(** * Loan forecasting application: the preprocessing pipeline of [app.py]

    A shallow embedding of the eight pandas/scikit-learn transformers of
    [src/app.py], of [full_pipeline] and of the construction of
    [profile_to_pred_prep], together with the properties the specification
    states about them.

    Modelling conventions.
    - A [DataFrame] is column-major, as in pandas: an index of row labels and an
      ordered list of named columns.
    - A cell is a number, a string or the missing value (NaN).  A number
      ([number]) is a float64 that is not NaN: a finite value, held as the
      rational it denotes, or an infinity.  Arithmetic is that of IEEE 754
      binary64: each operation rounds its exact result to the nearest
      float64, ties to even ([fl]), overflows to an infinity and propagates
      NaN.  The sign of a zero is not kept: the program never divides by a
      computed zero and compares numbers by value only.  The numbers of a
      frame read by pandas are float64 values ([float64_column]); an integer
      (a slider's value) is the float64 of the same value.
    - Frames are Python objects: they live in a store and are passed by
      reference.  A transformer either updates the object it was given
      ([inplace=True], item assignment) or allocates a new one (boolean
      indexing, [pd.DataFrame], [pd.concat]).
    - A Python exception is the [Raise] outcome of the monad [M].
    - [print] appends a line to the store's [stdout].
    - Library behaviour is that of pandas 2 without copy-on-write (a
      reduction over a column holding a string raises; an in-place method on
      [df[c]] updates [df]), of NumPy 1.22 or later (percentiles by
      [_lerp]) and of scikit-learn 1.x (a missing value is a category of its
      own; an input without rows or with an infinite value is rejected; a
      range below ten machine epsilons is not divided by). *)

From Stdlib Require Import QArith Qround Qabs Qpower Qreduction Lqa.
From Stdlib Require Import String Ascii DecimalString.
From stdpp Require Import base list.
From Stdlib Require Import Lia.

Open Scope string_scope.
Open Scope list_scope.
Open Scope Q_scope.

(** ** float64 *)

(** A float64 that is not NaN. *)
Inductive number : Type :=
  | Fin (q : Q)
  | Inf (negative : bool).

Coercion Fin : Q >-> number.

(** A float64: [None] is NaN. *)
Definition fnum := option number.

Definition Qlt_bool (x y : Q) : bool := negb (Qle_bool y x).

(** The integer part of the binary logarithm of a positive rational. *)
Definition Qlog2 (x : Q) : Z :=
  let k := (Z.log2 (Qnum x) - Z.log2 (Zpos (Qden x)))%Z in
  if Qle_bool (2 ^ k) x then k else (k - 1)%Z.

(** The nearest integer, the even one of two that are equally near. *)
Definition rint (x : Q) : Z :=
  let f := Qfloor x in
  match Qcompare (x - inject_Z f) (1 # 2) with
  | Lt => f
  | Gt => (f + 1)%Z
  | Eq => if Z.even f then f else (f + 1)%Z
  end.

(** The float64 nearest to a positive rational: 53 significant bits, the
    least exponent that of the subnormal numbers; [None] when the rounded
    value is 2^1024 or more. *)
Definition round_pos (a : Q) : option Q :=
  let e := Z.max (Qlog2 a - 52) (-1074) in
  let y := inject_Z (rint (a / 2 ^ e)) * 2 ^ e in
  if Qle_bool (2 ^ 1024) y then None else Some (Qred y).

(** Rounding to float64: to nearest, ties to even, overflow to infinity. *)
Definition fl (x : Q) : number :=
  let r := Qred x in
  match Qnum r with
  | Z0 => Fin 0
  | Zpos _ => match round_pos r with Some y => Fin y | None => Inf false end
  | Zneg _ => match round_pos (- r) with Some y => Fin (- y) | None => Inf true end
  end.

Definition number_opp (a : number) : number :=
  match a with Fin x => Fin (- x) | Inf s => Inf (negb s) end.

Definition fadd (a b : fnum) : fnum :=
  match a, b with
  | Some (Fin x), Some (Fin y) => Some (fl (x + y))
  | Some (Inf s), Some (Fin _) | Some (Fin _), Some (Inf s) => Some (Inf s)
  | Some (Inf s), Some (Inf t) => if Bool.eqb s t then Some (Inf s) else None
  | _, _ => None
  end.

Definition fsub (a b : fnum) : fnum := fadd a (option_map number_opp b).

Definition fmul (a b : fnum) : fnum :=
  match a, b with
  | Some (Fin x), Some (Fin y) => Some (fl (x * y))
  | Some (Inf s), Some (Fin y) | Some (Fin y), Some (Inf s) =>
      if Qeq_bool y 0 then None else Some (Inf (xorb s (Qlt_bool y 0)))
  | Some (Inf s), Some (Inf t) => Some (Inf (xorb s t))
  | _, _ => None
  end.

(** A zero divisor is taken for +0. *)
Definition fdiv (a b : fnum) : fnum :=
  match a, b with
  | Some (Fin x), Some (Fin y) =>
      if Qeq_bool y 0
      then (if Qeq_bool x 0 then None else Some (Inf (Qlt_bool x 0)))
      else Some (fl (x / y))
  | Some (Fin _), Some (Inf _) => Some (Fin 0)
  | Some (Inf s), Some (Fin y) => Some (Inf (xorb s (Qlt_bool y 0)))
  | _, _ => None
  end.

Definition number_eqb (a b : number) : bool :=
  match a, b with
  | Fin x, Fin y => Qeq_bool x y
  | Inf s, Inf t => Bool.eqb s t
  | _, _ => false
  end.

Definition number_ltb (a b : number) : bool :=
  match a, b with
  | Fin x, Fin y => Qlt_bool x y
  | Fin _, Inf t => negb t
  | Inf s, Fin _ => s
  | Inf s, Inf t => s && negb t
  end.

Definition number_leb (a b : number) : bool := negb (number_ltb b a).

(** The rational is a float64 value. *)
Definition float64 (x : Q) : Prop := number_eqb (fl x) (Fin x) = true.

(** ** Cells *)

Inductive value : Type :=
  | VNum (x : number)
  | VStr (s : string)
  | VNaN.

(** The float64 cell nearest to a decimal, as [read_csv] reads it. *)
Definition double (q : Q) : value := VNum (fl q).

Definition isna (v : value) : bool :=
  match v with VNaN => true | _ => false end.

Definition is_numeric (v : value) : bool :=
  match v with VStr _ => false | _ => true end.

Definition is_categorical (v : value) : bool :=
  match v with VNum _ => false | _ => true end.

(** Missing or a finite number. *)
Definition is_finite (v : value) : bool :=
  match v with VNum (Fin _) => true | VNaN => true | _ => false end.

Definition is_inf (v : value) : bool :=
  match v with VNum (Inf _) => true | _ => false end.

(** Python's [==] on cells; NaN is equal to nothing, not even itself. *)
Definition value_eqb (a b : value) : bool :=
  match a, b with
  | VNum x, VNum y => number_eqb x y
  | VStr s, VStr t => String.eqb s t
  | _, _ => false
  end.

(** Identity of a category: as [value_eqb], except that all missing values
    form one category (scikit-learn's encoders and pandas' hash tables treat
    NaN as a single key). *)
Definition same_key (a b : value) : bool :=
  match a, b with
  | VNaN, VNaN => true
  | _, _ => value_eqb a b
  end.

(** ** Data frames *)

Record DataFrame : Type := mkDataFrame {
  index : list Z;
  cols : list (string * list value)
}.

Definition columns (df : DataFrame) : list string := map fst (cols df).

Definition nrows (df : DataFrame) : nat := length (index df).

Fixpoint lookup_col (c : string) (l : list (string * list value)) : option (list value) :=
  match l with
  | [] => None
  | (k, v) :: l' => if String.eqb k c then Some v else lookup_col c l'
  end.

(** [df[c]] for a single label. *)
Definition getitem (c : string) (df : DataFrame) : option (list value) :=
  lookup_col c (cols df).

(** The column's values, empty when the label is absent. *)
Definition column (c : string) (df : DataFrame) : list value :=
  match getitem c df with Some v => v | None => [] end.

Definition cell (df : DataFrame) (c : string) (i : nat) : value :=
  nth i (column c df) VNaN.

Definition mem (c : string) (l : list string) : bool :=
  existsb (String.eqb c) l.

(** [set(cs).issubset(df.columns)] *)
Definition issubset (cs : list string) (names : list string) : bool :=
  forallb (fun c => mem c names) cs.

(** [df.drop(cs, axis=1)] once every label of [cs] is known to be present. *)
Definition drop_columns (cs : list string) (df : DataFrame) : DataFrame :=
  {| index := index df;
     cols := List.filter (fun kv => negb (mem (fst kv) cs)) (cols df) |}.

Fixpoint assign_col (c : string) (v : list value) (l : list (string * list value))
  : list (string * list value) :=
  match l with
  | [] => [(c, v)]
  | (k, w) :: l' => if String.eqb k c then (k, v) :: l' else (k, w) :: assign_col c v l'
  end.

(** [df[c] = v]: replaces the column, or appends it when the label is new. *)
Definition setitem (c : string) (v : list value) (df : DataFrame) : DataFrame :=
  {| index := index df; cols := assign_col c v (cols df) |}.

(** Boolean-mask selection: the entries whose flag is [true], in order. *)
Fixpoint mask_select {A : Type} (keep : list bool) (l : list A) : list A :=
  match keep, l with
  | b :: keep', x :: l' => if b then x :: mask_select keep' l' else mask_select keep' l'
  | _, _ => []
  end.

(** [df[keep]] for a boolean Series [keep] aligned with the rows. *)
Definition take_rows (keep : list bool) (df : DataFrame) : DataFrame :=
  {| index := mask_select keep (index df);
     cols := map (fun kv => (fst kv, mask_select keep (snd kv))) (cols df) |}.

(** A boolean Series computed row by row. *)
Definition row_mask (df : DataFrame) (p : nat -> bool) : list bool :=
  map p (seq 0 (nrows df)).

(** ** Exceptions, the object store and the monad of the program *)

Inductive exn : Type :=
  | KeyError (key : string)
  | TypeError
  | ValueError.

Inductive result (A : Type) : Type :=
  | Ok (a : A)
  | Raise (e : exn).
Arguments Ok {A} a.
Arguments Raise {A} e.

Definition ref := nat.

Record store : Type := mkStore {
  heap : list DataFrame;
  stdout : list string
}.

Definition M (A : Type) : Type := store -> result (A * store).

Definition ret {A} (a : A) : M A := fun s => Ok (a, s).

Definition bind {A B} (m : M A) (f : A -> M B) : M B :=
  fun s => match m s with
           | Ok (a, s') => f a s'
           | Raise e => Raise e
           end.

Notation "x <- m ;; k" := (bind m (fun x => k))
  (at level 100, m at next level, right associativity).
Notation "m ;;; k" := (bind m (fun _ => k))
  (at level 100, right associativity).

Definition lift {A} (r : result A) : M A :=
  fun s => match r with Ok a => Ok (a, s) | Raise e => Raise e end.

(** Reading the object behind a reference. *)
Definition deref (r : ref) : M DataFrame :=
  fun s => match heap s !! r with
           | Some d => Ok (d, s)
           | None => Raise (KeyError "dangling reference")
           end.

(** In-place update of the object behind a reference. *)
Definition update (r : ref) (d : DataFrame) : M unit :=
  fun s => Ok (tt, {| heap := <[r := d]> (heap s); stdout := stdout s |}).

(** A new object. *)
Definition alloc (d : DataFrame) : M ref :=
  fun s => Ok (length (heap s), {| heap := heap s ++ [d]; stdout := stdout s |}).

Definition print (line : string) : M unit :=
  fun s => Ok (tt, {| heap := heap s; stdout := stdout s ++ [line] |}).

(** Pure binds on [result]. *)
Definition rbind {A B} (r : result A) (f : A -> result B) : result B :=
  match r with Ok a => f a | Raise e => Raise e end.

Fixpoint rfold {A B} (f : B -> A -> result B) (l : list A) (b : B) : result B :=
  match l with
  | [] => Ok b
  | x :: l' => rbind (f b x) (rfold f l')
  end.

(** ** Column statistics (pandas / NumPy / scikit-learn) *)

Fixpoint insert_by {A : Type} (leb : A -> A -> bool) (x : A) (l : list A) : list A :=
  match l with
  | [] => [x]
  | y :: l' => if leb x y then x :: y :: l' else y :: insert_by leb x l'
  end.

Definition sort_by {A : Type} (leb : A -> A -> bool) (l : list A) : list A :=
  fold_right (insert_by leb) [] l.

(** The non-missing numbers of a column; a string makes the numeric
    reductions raise. *)
Fixpoint numeric_values (e : exn) (l : list value) : result (list number) :=
  match l with
  | [] => Ok []
  | VNum x :: l' => rbind (numeric_values e l') (fun xs => Ok (x :: xs))
  | VNaN :: l' => numeric_values e l'
  | VStr _ :: _ => Raise e
  end.

(** [cell < bound] and [cell > bound]; any comparison with NaN is [False]. *)
Definition lt_bound (v : value) (b : fnum) : bool :=
  match v, b with VNum x, Some y => number_ltb x y | _, _ => false end.
Definition gt_bound (v : value) (b : fnum) : bool :=
  match v, b with VNum x, Some y => number_ltb y x | _, _ => false end.

(** Python's [a[i]]: a negative index counts from the end. *)
Definition item {A : Type} (i : Z) (a : list A) (default : A) : A :=
  nth (Z.to_nat (if (i <? 0)%Z then Z.of_nat (length a) + i else i)) a default.

(** NumPy's [_lerp]: [a + (b - a) * t], computed from [b] when [t >= 0.5]. *)
Definition lerp (a b : number) (t : Q) : fnum :=
  let diff_b_a := fsub (Some b) (Some a) in
  if Qle_bool (1 # 2) t
  then fsub (Some b) (fmul diff_b_a (fsub (Some (Fin 1)) (Some (Fin t))))
  else fadd (Some a) (fmul diff_b_a (Some (Fin t))).

(** NumPy's [percentile] with linear interpolation, on the sorted sample
    [a]: the virtual index [(n - 1) * q], its two neighbours and [_lerp]
    between them. *)
Definition interpolate (q : Q) (a : list number) : fnum :=
  match a with
  | [] => None
  | x0 :: _ =>
      let n := Z.of_nat (length a) in
      match fmul (Some (fl (inject_Z (n - 1)))) (Some (Fin q)) with
      | Some (Fin virtual_index) =>
          let above := Qle_bool (inject_Z (n - 1)) virtual_index in
          let below := Qlt_bool virtual_index 0 in
          let previous_index :=
            if above then (-1)%Z else if below then 0%Z else Qfloor virtual_index in
          let next_index :=
            if above then (-1)%Z else if below then 0%Z else (Qfloor virtual_index + 1)%Z in
          match fl (virtual_index - inject_Z previous_index) with
          | Fin gamma => lerp (item previous_index a x0) (item next_index a x0) gamma
          | Inf _ => None
          end
      | _ => None
      end
  end.

(** [Series.quantile(q)]: missing values are skipped, an all-missing column
    gives NaN, a non-numeric column raises. *)
Definition quantile (q : Q) (l : list value) : result fnum :=
  rbind (numeric_values TypeError l) (fun xs => Ok (interpolate q (sort_by number_leb xs))).

(** [Series.median()]: NumPy's [mean] of the one or two middle values of the
    sorted sample. *)
Definition median_sorted (a : list number) : fnum :=
  match a with
  | [] => None
  | x0 :: _ =>
      let n := length a in
      if Nat.even n
      then fdiv (fadd (Some (nth (n / 2 - 1) a x0)) (Some (nth (n / 2) a x0))) (Some (Fin 2))
      else fdiv (Some (nth (n / 2) a x0)) (Some (Fin 1))
  end.

Definition median (l : list value) : result fnum :=
  rbind (numeric_values TypeError l) (fun xs => Ok (median_sorted (sort_by number_leb xs))).

Definition of_fnum (x : fnum) : value :=
  match x with Some y => VNum y | None => VNaN end.

(** The numbers of a column, missing cells and strings skipped. *)
Fixpoint numbers (l : list value) : list number :=
  match l with
  | [] => []
  | VNum x :: l' => x :: numbers l'
  | _ :: l' => numbers l'
  end.

(** The order in which pandas sorts modes and scikit-learn sorts categories.
    Numbers by value, strings by code point.  Columns mixing the two are not
    sortable in Python; where the model still needs an order, numbers come
    first. *)
Definition value_leb (a b : value) : bool :=
  match a, b with
  | VNum x, VNum y => number_leb x y
  | VNum _, _ => true
  | VStr _, VNum _ => false
  | VStr s, VStr t => String.leb s t
  | VStr _, VNaN => true
  | VNaN, VNaN => true
  | VNaN, _ => false
  end.

Definition count_key (v : value) (l : list value) : nat :=
  length (List.filter (same_key v) l).

(** First occurrences only, up to [same_key]. *)
Fixpoint unique_keys (l : list value) : list value :=
  match l with
  | [] => []
  | x :: l' => x :: List.filter (fun y => negb (same_key x y)) (unique_keys l')
  end.

(** [Series.mode()]: the most frequent non-missing values, each once,
    sorted. *)
Definition mode (l : list value) : list value :=
  let xs := List.filter (fun v => negb (isna v)) l in
  let best := fold_right Nat.max 0%nat (map (fun v => count_key v xs) xs) in
  sort_by value_leb (unique_keys (List.filter (fun v => Nat.eqb (count_key v xs) best) xs)).

(** [Series.fillna(v)] *)
Definition fillna (v : value) (l : list value) : list value :=
  map (fun x => if isna x then v else x) l.

(** [Series.replace(a, b)] for a numeric [a]: cells equal to [a] become [b]. *)
Definition replace (a : Q) (b : value) (l : list value) : list value :=
  map (fun x => if value_eqb x (VNum a) then b else x) l.

(** [np.nanmin] and [np.nanmax] of the numbers of a column. *)
Definition fmin_list (a : list number) : fnum :=
  match a with
  | [] => None
  | x :: a' => Some (fold_left (fun m y => if number_leb y m then y else m) a' x)
  end.

Definition fmax_list (a : list number) : fnum :=
  match a with
  | [] => None
  | x :: a' => Some (fold_left (fun m y => if number_leb m y then y else m) a' x)
  end.

(** The category vocabulary scikit-learn's [OneHotEncoder] fits on a column:
    the sorted distinct values, the missing value last ([vocabulary]); a
    column mixing strings and numbers raises. *)
Definition vocabulary (l : list value) : list value :=
  let u := unique_keys l in
  sort_by value_leb (List.filter (fun v => negb (isna v)) u) ++ List.filter isna u.

Definition categories (l : list value) : result (list value) :=
  if existsb (fun v => negb (is_numeric v)) l && existsb (fun v => negb (is_categorical v)) l
  then Raise TypeError
  else Ok (vocabulary l).

Fixpoint rmap {A B} (f : A -> result B) (l : list A) : result (list B) :=
  match l with
  | [] => Ok []
  | x :: l' => rbind (f x) (fun y => rbind (rmap f l') (fun ys => Ok (y :: ys)))
  end.

(** A Series indexed by column label (the result of a column-wise reduction). *)
Definition series := list (string * fnum).

Fixpoint series_get (c : string) (s : series) : fnum :=
  match s with
  | [] => None
  | (k, x) :: s' => if String.eqb k c then x else series_get c s'
  end.

(** Label-aligned arithmetic on Series. *)
Definition series_zip (op : fnum -> fnum -> fnum) (a b : series) : series :=
  map (fun kx => (fst kx, op (snd kx) (series_get (fst kx) b))) a.

Definition series_scale (k : Q) (a : series) : series :=
  map (fun kx => (fst kx, fmul (Some (Fin k)) (snd kx))) a.

(** [df[cs].quantile(q)] *)
Definition df_quantile (q : Q) (cs : list string) (df : DataFrame) : result series :=
  rmap (fun c => rbind (quantile q (column c df)) (fun x => Ok (c, x))) cs.

(** [df[cs] = news], column by column. *)
Definition setitems (news : list (string * list value)) (df : DataFrame) : DataFrame :=
  fold_left (fun d kv => setitem (fst kv) (snd kv) d) news df.

(** The library functions whose values the model leaves open: NumPy's
    cube root of a finite float, Python's [str] of a finite float, and
    Python's [float] of a string ([None] when it raises [ValueError]). *)
Class NumPy : Type := {
  cbrt : Q -> Q;
  str_float : Q -> string;
  float_of_str : string -> option fnum
}.

(** [np.cbrt] on one cell; the cube root of an infinity is that infinity. *)
Definition cbrt_cell `{NumPy} (v : value) : value :=
  match v with VNum (Fin q) => VNum (cbrt q) | _ => v end.

(** [np.cbrt] on a column. *)
Definition np_cbrt `{NumPy} (l : list value) : result (list value) :=
  rmap (fun v => match v with
                 | VStr _ => Raise TypeError
                 | _ => Ok (cbrt_cell v)
                 end) l.

(** Python's [str] of a category. *)
Definition str_value `{NumPy} (v : value) : string :=
  match v with
  | VStr s => s
  | VNum (Fin q) => str_float q
  | VNum (Inf false) => "inf"
  | VNum (Inf true) => "-inf"
  | VNaN => "nan"
  end.

(** ** The transformers of [app.py] *)

Definition target : string := "Loan Sanction Amount (USD)".

Module OutlierImputer.
Record t : Type := { feat_with_outliers : list string }.

Definition init : t :=
  {| feat_with_outliers :=
       ["Income (USD)"; "Loan Amount Request (USD)"; "Current Loan Expenses (USD)";
        "Property Age"; "Property Price"] |}.

(** [((df[fs] < lower) | (df[fs] > upper)).any(axis=1)] at row [i]. *)
Definition outside (fs : list string) (lower upper : series) (df : DataFrame) (i : nat) : bool :=
  existsb (fun c => lt_bound (cell df c i) (series_get c lower)
                    || gt_bound (cell df c i) (series_get c upper)) fs.

Definition body (self : t) (df : DataFrame) : result DataFrame :=
  let fs := feat_with_outliers self in
  rbind (df_quantile (1 # 4) fs df) (fun Q1 =>
  rbind (df_quantile (3 # 4) fs df) (fun Q3 =>
  let IQR := series_zip fsub Q3 Q1 in
  let lower := series_zip fsub Q1 (series_scale (3 # 2) IQR) in
  let upper := series_zip fadd Q3 (series_scale (3 # 2) IQR) in
  Ok (take_rows (row_mask df (fun i => negb (outside fs lower upper df i))) df))).

Definition transform (self : t) (df : ref) : M ref :=
  d <- deref df ;;
  if issubset (feat_with_outliers self) (columns d) then
    d' <- lift (body self d) ;;
    alloc d'
  else
    print "One or more features are not in the dataframe" ;;;
    ret df.
End OutlierImputer.

Module MissingValueImputer.
Record t : Type := {
  mode_imputed_ft : list string;
  median_imputed_ft : list string
}.

Definition init : t :=
  {| mode_imputed_ft :=
       ["Gender"; "Income Stability"; "Dependents"; "Has Active Credit Card";
        "Property Location"];
     median_imputed_ft :=
       ["Income (USD)"; "Current Loan Expenses (USD)"; "Credit Score"; "Property Age"] |}.

(** [df.dropna(axis=0, subset=[c])] *)
Definition dropna (c : string) (df : DataFrame) : result DataFrame :=
  if mem c (columns df)
  then Ok (take_rows (row_mask df (fun i => negb (isna (cell df c i)))) df)
  else Raise (KeyError c).

(** One round of the first loop: [df[ft] = df[ft].fillna(df[ft].mode()[0])]. *)
Definition impute_mode (df : DataFrame) (ft : string) : result DataFrame :=
  match mode (column ft df) with
  | the_mode :: _ => Ok (setitem ft (fillna the_mode (column ft df)) df)
  | [] => Raise (KeyError "0")
  end.

(** One round of the second loop: [df[ft] = df[ft].fillna(df[ft].median())]. *)
Definition impute_median (df : DataFrame) (ft : string) : result DataFrame :=
  rbind (median (column ft df)) (fun the_median =>
  Ok (setitem ft (fillna (of_fnum the_median) (column ft df)) df)).

Definition body (self : t) (df : DataFrame) : result DataFrame :=
  rbind (dropna target df) (fun df1 =>
  rbind (rfold impute_mode (mode_imputed_ft self) df1) (fun df2 =>
  rfold impute_median (median_imputed_ft self) df2)).

Definition transform (self : t) (df : ref) : M ref :=
  d <- deref df ;;
  if issubset (mode_imputed_ft self ++ median_imputed_ft self) (columns d) then
    d' <- lift (body self d) ;;
    update df d' ;;;
    ret df
  else
    print "One or more features are not in the dataframe" ;;;
    ret df.
End MissingValueImputer.

Module DropUncommonProfession.
Record t : Type := { profession_list : list string }.

Definition init : t := {| profession_list := ["Student"; "Unemployed"; "Businessman"] |}.

(** [Series.isin(l)] for a list of strings. *)
Definition isin (l : list string) (v : value) : bool :=
  match v with VStr s => mem s l | _ => false end.

Definition body (self : t) (df : DataFrame) : DataFrame :=
  take_rows (row_mask df (fun i => negb (isin (profession_list self) (cell df "Profession" i)))) df.

Definition transform (self : t) (df : ref) : M ref :=
  d <- deref df ;;
  if mem "Profession" (columns d) then
    alloc (body self d)
  else
    print "Profession feature is not in the dataframe" ;;;
    ret df.
End DropUncommonProfession.

Module DropFeatures.
Record t : Type := { feature_to_drop : list string }.

Definition init : t :=
  {| feature_to_drop := ["Customer ID"; "Name"; "Type of Employment"; "Property ID"] |}.

Definition transform (self : t) (df : ref) : M ref :=
  d <- deref df ;;
  if issubset (feature_to_drop self) (columns d) then
    update df (drop_columns (feature_to_drop self) d) ;;;
    ret df
  else
    print "One or more features are not in the dataframe" ;;;
    ret df.
End DropFeatures.

Module ValueImputer.
Record t : Type := { feat_with_999_val : list string }.

Definition init : t :=
  {| feat_with_999_val :=
       ["Co-Applicant"; "Current Loan Expenses (USD)"; "Loan Sanction Amount (USD)";
        "Property Price"] |}.

(** [df[ft].replace(-999.000, 0, inplace=True, regex=True)]: the pattern is
    not a string, so pandas falls back to replacing by value; the Series
    shares its data with the frame, which is therefore updated. *)
Definition replace_999 (df : DataFrame) (ft : string) : DataFrame :=
  setitem ft (replace (-999) (VNum 0) (column ft df)) df.

Definition body (self : t) (df : DataFrame) : DataFrame :=
  fold_left replace_999 (feat_with_999_val self) df.

Definition transform (self : t) (df : ref) : M ref :=
  d <- deref df ;;
  if issubset (feat_with_999_val self) (columns d) then
    update df (body self d) ;;;
    ret df
  else
    print "One or more features are not in the dataframe" ;;;
    ret df.
End ValueImputer.

(** scikit-learn's [MinMaxScaler] with its default [feature_range=(0, 1)]. *)
Module MinMaxScaler.
(** [10 * np.finfo(np.float64).eps] *)
Definition ten_eps : Q := 10 * 2 ^ (-52).

(** [_handle_zeros_in_scale]: a range below ten machine epsilons is
    replaced by 1 before dividing. *)
Definition handle_zeros_in_scale (scale : fnum) : fnum :=
  match scale with
  | Some r => if number_ltb r (Fin ten_eps) then Some (Fin 1) else scale
  | None => None
  end.

(** [scale_ = (1 - 0) / _handle_zeros_in_scale(data_max - data_min)] *)
Definition scale_ (data_min data_max : number) : fnum :=
  fdiv (Some (Fin (1 - 0))) (handle_zeros_in_scale (fsub (Some data_max) (Some data_min))).

(** [min_ = 0 - data_min * scale_] *)
Definition min_ (data_min data_max : number) : fnum :=
  fsub (Some (Fin 0)) (fmul (Some data_min) (scale_ data_min data_max)).

(** [X *= scale_; X += min_] on one cell. *)
Definition scale_cell (data_min data_max : number) (v : value) : value :=
  match v with
  | VNum x => of_fnum (fadd (fmul (Some x) (scale_ data_min data_max)) (min_ data_min data_max))
  | _ => v
  end.

(** The conversion of a cell to float64 by [check_array]: a string goes
    through Python's [float]. *)
Definition as_float `{NumPy} (v : value) : result value :=
  match v with
  | VStr t =>
      match float_of_str t with
      | Some x => Ok (of_fnum x)
      | None => Raise ValueError
      end
  | _ => Ok v
  end.

(** [fit_transform] on one column: the cells are converted to float64, an
    infinite value is rejected, NaN is ignored by the fit and kept by the
    transform. *)
Definition fit_transform `{NumPy} (l : list value) : result (list value) :=
  rbind (rmap as_float l) (fun X =>
  if existsb is_inf X then Raise ValueError
  else
    match fmin_list (numbers X), fmax_list (numbers X) with
    | Some data_min, Some data_max => Ok (map (scale_cell data_min data_max) X)
    | _, _ => Ok X
    end).
End MinMaxScaler.

Module MinMaxWithFeatNames.
Record t : Type := { min_max_scaler_ft : list string }.

Definition init : t :=
  {| min_max_scaler_ft :=
       ["Age"; "Income (USD)"; "Loan Amount Request (USD)"; "Current Loan Expenses (USD)";
        "Credit Score"; "Property Age"; "Property Price"] |}.

Definition body `{NumPy} (self : t) (df : DataFrame) : result DataFrame :=
  if Nat.eqb (nrows df) 0 then Raise ValueError
  else
    rbind (rmap (fun c => rbind (MinMaxScaler.fit_transform (column c df))
                                (fun v => Ok (c, v)))
                (min_max_scaler_ft self)) (fun scaled =>
    Ok (setitems scaled df)).

Definition transform `{NumPy} (self : t) (df : ref) : M ref :=
  d <- deref df ;;
  if issubset (min_max_scaler_ft self) (columns d) then
    d' <- lift (body self d) ;;
    update df d' ;;;
    ret df
  else
    print "One or more features are not in the dataframe" ;;;
    ret df.
End MinMaxWithFeatNames.

Module OneHotWithFeatNames.
Record t : Type := { one_hot_enc_ft : list string }.

Definition init : t :=
  {| one_hot_enc_ft :=
       ["Gender"; "Profession"; "Location"; "Expense Type 1"; "Expense Type 2";
        "Has Active Credit Card"; "Property Location"; "Income Stability"] |}.

(** [get_feature_names_out]: "<column>_<category>". *)
Definition feature_name `{NumPy} (c : string) (cat : value) : string :=
  String.append c (String.append "_" (str_value cat)).

(** The indicator column of one category. *)
Definition indicator (cat : value) (l : list value) : list value :=
  map (fun v => VNum (if same_key v cat then 1 else 0)) l.

(** The indicator columns of one encoded feature. *)
Definition expand `{NumPy} (df : DataFrame) (c : string) (cats : list value)
  : list (string * list value) :=
  map (fun cat => (feature_name c cat, indicator cat (column c df))) cats.

Definition one_hot_enc `{NumPy} (df : DataFrame) (fts : list string) : result DataFrame :=
  if Nat.eqb (nrows df) 0 then Raise ValueError
  else
    rbind (rmap (fun c => rbind (categories (column c df)) (fun cats => Ok (c, cats))) fts)
          (fun vocabulary =>
    Ok {| index := index df;
          cols := flat_map (fun cc => expand df (fst cc) (snd cc)) vocabulary |}).

Definition concat_with_rest (df one_hot_enc_df : DataFrame) (fts : list string) : DataFrame :=
  let rest_of_features := List.filter (fun kv => negb (mem (fst kv) fts)) (cols df) in
  {| index := index one_hot_enc_df;
     cols := cols one_hot_enc_df ++ rest_of_features |}.

Definition body `{NumPy} (self : t) (df : DataFrame) : result DataFrame :=
  rbind (one_hot_enc df (one_hot_enc_ft self)) (fun one_hot_enc_df =>
  Ok (concat_with_rest df one_hot_enc_df (one_hot_enc_ft self))).

Definition transform `{NumPy} (self : t) (df : ref) : M ref :=
  d <- deref df ;;
  if issubset (one_hot_enc_ft self) (columns d) then
    d' <- lift (body self d) ;;
    alloc d'
  else
    print "One or more features are not in the dataframe" ;;;
    ret df.
End OneHotWithFeatNames.

Module SkewnessHandler.
Record t : Type := { col_with_skewness : list string }.

Definition init : t :=
  {| col_with_skewness :=
       ["Income (USD)"; "Loan Amount Request (USD)"; "Current Loan Expenses (USD)";
        "Property Age"] |}.

Definition body `{NumPy} (self : t) (df : DataFrame) : result DataFrame :=
  rbind (rmap (fun c => rbind (np_cbrt (column c df)) (fun v => Ok (c, v)))
              (col_with_skewness self)) (fun roots =>
  Ok (setitems roots df)).

Definition transform `{NumPy} (self : t) (df : ref) : M ref :=
  d <- deref df ;;
  if issubset (col_with_skewness self) (columns d) then
    d' <- lift (body self d) ;;
    update df d' ;;;
    ret df
  else
    print "One or more skewed columns are not found" ;;;
    ret df.
End SkewnessHandler.

(** ** scikit-learn's estimator interface and [Pipeline] *)

Class Estimator (T : Type) : Type := {
  fit : T -> ref -> M T;
  transform : T -> ref -> M ref
}.

(** [TransformerMixin.fit_transform]: [self.fit(X).transform(X)]. *)
Definition fit_transform {T} `{Estimator T} (self : T) (X : ref) : M ref :=
  fitted <- fit self X ;;
  transform fitted X.

(** Every class of [app.py] has [fit] return [self]. *)
#[export] Instance OutlierImputer_estimator : Estimator OutlierImputer.t :=
  {| fit self _ := ret self; transform := OutlierImputer.transform |}.
#[export] Instance MissingValueImputer_estimator : Estimator MissingValueImputer.t :=
  {| fit self _ := ret self; transform := MissingValueImputer.transform |}.
#[export] Instance DropUncommonProfession_estimator : Estimator DropUncommonProfession.t :=
  {| fit self _ := ret self; transform := DropUncommonProfession.transform |}.
#[export] Instance DropFeatures_estimator : Estimator DropFeatures.t :=
  {| fit self _ := ret self; transform := DropFeatures.transform |}.
#[export] Instance ValueImputer_estimator : Estimator ValueImputer.t :=
  {| fit self _ := ret self; transform := ValueImputer.transform |}.
#[export] Instance MinMaxWithFeatNames_estimator `{NumPy} : Estimator MinMaxWithFeatNames.t :=
  {| fit self _ := ret self; transform := MinMaxWithFeatNames.transform |}.
#[export] Instance OneHotWithFeatNames_estimator `{NumPy} : Estimator OneHotWithFeatNames.t :=
  {| fit self _ := ret self; transform := OneHotWithFeatNames.transform |}.
#[export] Instance SkewnessHandler_estimator `{NumPy} : Estimator SkewnessHandler.t :=
  {| fit self _ := ret self; transform := SkewnessHandler.transform |}.

(** A named step of a pipeline. *)
Inductive step : Type :=
  | Step {T : Type} `{Estimator T} (name : string) (estimator : T).

Definition step_name (s : step) : string :=
  match s with Step name _ => name end.

Definition fit_transform_one (s : step) (X : ref) : M ref :=
  match s with Step _ estimator => fit_transform estimator X end.

(** [Pipeline._fit]: every step but the last, each on the previous output. *)
Fixpoint Pipeline_fit (steps : list step) (X : ref) : M ref :=
  match steps with
  | [] => ret X
  | [_] => ret X
  | s :: rest => Xt <- fit_transform_one s X ;; Pipeline_fit rest Xt
  end.

Definition final_estimator (steps : list step) : option step := List.last (map Some steps) None.

(** [Pipeline.fit_transform] *)
Definition Pipeline_fit_transform (steps : list step) (X : ref) : M ref :=
  Xt <- Pipeline_fit steps X ;;
  match final_estimator steps with
  | Some last_step => fit_transform_one last_step Xt
  | None => ret Xt
  end.

Definition pipeline_steps `{NumPy} : list step :=
  [ Step "drop features" DropFeatures.init;
    Step "outlier remover" OutlierImputer.init;
    Step "drop uncommon profession" DropUncommonProfession.init;
    Step "missing value imputer" MissingValueImputer.init;
    Step "-999 value imputer" ValueImputer.init;
    Step "skewness handler" SkewnessHandler.init;
    Step "min max scaler" MinMaxWithFeatNames.init;
    Step "one hot encoder" OneHotWithFeatNames.init ].

Definition full_pipeline `{NumPy} (df : ref) : M ref :=
  df_pipe_prep <- Pipeline_fit_transform pipeline_steps df ;;
  ret df_pipe_prep.

(** ** The form and the query record *)

Inductive yes_no : Type := Yes | No.
Inductive gender_choice : Type := Male | Female.
Inductive stability_choice : Type := Low | High.
Inductive profession_choice : Type :=
  Working | Commercial_associate | Pensioner | State_servant.
Inductive location_choice : Type := Semi_Urban | Rural | Urban.
Inductive cc_status_choice : Type := Active | Inactive | Unpossessed.

Definition yes_no_label (x : yes_no) : string :=
  match x with Yes => "Yes" | No => "No" end.
Definition gender_label (x : gender_choice) : string :=
  match x with Male => "Male" | Female => "Female" end.
Definition stability_label (x : stability_choice) : string :=
  match x with Low => "Low" | High => "High" end.
Definition profession_label (x : profession_choice) : string :=
  match x with
  | Working => "Working"
  | Commercial_associate => "Commercial associate"
  | Pensioner => "Pensioner"
  | State_servant => "State servant"
  end.
Definition location_label (x : location_choice) : string :=
  match x with Semi_Urban => "Semi-Urban" | Rural => "Rural" | Urban => "Urban" end.
Definition cc_status_label (x : cc_status_choice) : string :=
  match x with Active => "Active" | Inactive => "Inactive" | Unpossessed => "Unpossessed" end.

(** [{"Yes": 1, "No": 0}.get(x)] *)
Definition yes_no_dict (x : yes_no) : Q :=
  match x with Yes => 1 | No => 0 end.

(** The widgets' values.  Sliders return integers. *)
Record form : Type := {
  input_gender : gender_choice;
  input_age : Z;
  input_income : Z;
  income_stab : stability_choice;
  input_professions : profession_choice;
  location : location_choice;
  input_current_loan_amt : Z;
  exp_type_one : yes_no;
  exp_type_two : yes_no;
  dependents_count : Z;
  credit_score : Z;
  loan_default_input : yes_no;
  cc_status_input : cc_status_choice;
  property_age_years : Z;
  prop_price : Z;
  property_type_input : Z;
  prop_location : location_choice;
  co_applicant : yes_no;
  loan_amount_req : Z
}.

(** [s[:1]] *)
Definition first_char (s : string) : string := substring 0 1 s.

Definition property_age (f : form) : Q := inject_Z (property_age_years f) * (1461 # 4).

Definition profile_to_predict (f : form) : list value :=
  [ VStr "";                                           (* customer id *)
    VStr "";                                           (* name *)
    VStr (first_char (gender_label (input_gender f)));
    VNum (inject_Z (input_age f));
    VNum (inject_Z (input_income f));
    VStr (stability_label (income_stab f));
    VStr (profession_label (input_professions f));
    VStr "";                                           (* type of employment *)
    VStr (location_label (location f));
    VNum (inject_Z (loan_amount_req f));
    VNum (inject_Z (input_current_loan_amt f));
    VStr (first_char (yes_no_label (exp_type_one f)));
    VStr (first_char (yes_no_label (exp_type_two f)));
    VNum (inject_Z (dependents_count f));
    VNum (inject_Z (credit_score f));
    VNum (yes_no_dict (loan_default_input f));
    VStr (cc_status_label (cc_status_input f));
    VNum 0;                                            (* property id *)
    VNum (property_age f);
    VNum (inject_Z (property_type_input f));
    VStr (location_label (prop_location f));
    VNum (yes_no_dict (co_applicant f));
    VNum (inject_Z (prop_price f));
    VNum 0                                             (* loan amount sanctioned *)
  ].


(** [pd.concat([a, b], ignore_index=True)] for two frames with the same
    columns: the rows of [b] follow those of [a] and the rows are renumbered. *)
Definition pd_concat (a b : DataFrame) : DataFrame :=
  {| index := map Z.of_nat (seq 0 (nrows a + nrows b));
     cols := map (fun kv => (fst kv, snd kv ++ column (fst kv) b)) (cols a) |}.





(** A frame is well formed when every column is as long as the index. *)
Definition well_formed (df : DataFrame) : Prop :=
  Forall (fun kv => length (snd kv) = nrows df) (cols df).

(** The header of [datasets/train.csv], in file order; the comments of
    [profile_to_predict] give the position of each field. *)
Definition train_columns : list string :=
  ["Customer ID"; "Name"; "Gender"; "Age"; "Income (USD)"; "Income Stability";
   "Profession"; "Type of Employment"; "Location"; "Loan Amount Request (USD)";
   "Current Loan Expenses (USD)"; "Expense Type 1"; "Expense Type 2"; "Dependents";
   "Credit Score"; "No. of Defaults"; "Has Active Credit Card"; "Property ID";
   "Property Age"; "Property Type"; "Property Location"; "Co-Applicant";
   "Property Price"; "Loan Sanction Amount (USD)"].

(** ** Stores after one effect *)

(** The object behind [df] replaced by [d]. *)
Definition written (s : store) (df : ref) (d : DataFrame) : store :=
  {| heap := <[df := d]> (heap s); stdout := stdout s |}.

(** One more object, [d]. *)
Definition allocated (s : store) (d : DataFrame) : store :=
  {| heap := heap s ++ [d]; stdout := stdout s |}.

(** One more line on standard output. *)
Definition printed (s : store) (line : string) : store :=
  {| heap := heap s; stdout := stdout s ++ [line] |}.


(** ** The statistics in the specification's words *)

(** A numeric column holds numbers and missing cells only. *)
Definition numeric_column (c : string) (df : DataFrame) : Prop :=
  forallb is_numeric (column c df) = true.

(** A categorical column holds strings and missing cells only. *)
Definition categorical_column (c : string) (df : DataFrame) : Prop :=
  forallb is_categorical (column c df) = true.

(** A column of finite numbers and missing cells. *)
Definition finite_column (c : string) (df : DataFrame) : Prop :=
  forallb is_finite (column c df) = true.

(** Missing, or a finite number that is a float64 value. *)
Definition is_float64 (v : value) : bool :=
  match v with
  | VNum (Fin q) => number_eqb (fl q) (Fin q)
  | VNaN => true
  | _ => false
  end.

(** A column as pandas holds it: finite float64 values and missing cells. *)
Definition float64_column (c : string) (df : DataFrame) : Prop :=
  forallb is_float64 (column c df) = true.



(** The 25th and 75th percentile of a column and the bounds
    [Q1 - 1.5 IQR] and [Q3 + 1.5 IQR]. *)
Definition percentile (q : Q) (df : DataFrame) (c : string) : fnum :=
  interpolate q (sort_by number_leb (numbers (column c df))).

Definition IQR (df : DataFrame) (c : string) : fnum :=
  fsub (percentile (3 # 4) df c) (percentile (1 # 4) df c).

Definition lower_bound (df : DataFrame) (c : string) : fnum :=
  fsub (percentile (1 # 4) df c) (fmul (Some (Fin (3 # 2))) (IQR df c)).

Definition upper_bound (df : DataFrame) (c : string) : fnum :=
  fadd (percentile (3 # 4) df c) (fmul (Some (Fin (3 # 2))) (IQR df c)).

(** The cell of row [i] in column [c] lies outside the column's bounds. *)
Definition out_of_bounds (df : DataFrame) (c : string) (i : nat) : bool :=
  lt_bound (cell df c i) (lower_bound df c) || gt_bound (cell df c i) (upper_bound df c).

(** At least one of the columns [fs] is out of bounds in row [i]. *)
Definition outlier_row (fs : list string) (df : DataFrame) (i : nat) : bool :=
  existsb (fun c => out_of_bounds df c i) fs.

(** The value of a computation that succeeded, the empty column otherwise. *)
Definition unwrap (r : result (list value)) : list value :=
  match r with Ok v => v | Raise _ => [] end.

(** One column recomputed from itself and assigned back: the shape of
    [df[c] = g(df[c])]. *)
Definition colwise (g : list value -> result (list value)) (df : DataFrame) (c : string)
  : result DataFrame :=
  rbind (g (column c df)) (fun v => Ok (setitem c v df)).

(** The smallest and the largest number of a column. *)
Definition data_min (df : DataFrame) (c : string) : fnum :=
  fmin_list (numbers (column c df)).

Definition data_max (df : DataFrame) (c : string) : fnum :=
  fmax_list (numbers (column c df)).

(** How many columns of a group hold 1 in row [i]. *)
Definition ones_at (i : nat) (group : list (string * list value)) : nat :=
  length (List.filter (fun kv => value_eqb (nth i (snd kv) VNaN) (VNum 1)) group).

(** The bodies of the two imputation loops, on one column. *)
Definition mode_fill (l : list value) : result (list value) :=
  match mode l with
  | the_mode :: _ => Ok (fillna the_mode l)
  | [] => Raise (KeyError "0")
  end.

Definition median_fill (l : list value) : result (list value) :=
  rbind (median l) (fun the_median => Ok (fillna (of_fnum the_median) l)).

(** The value the form puts in column [c] of the query record. *)
Definition query_cell (f : form) (c : string) : value :=
  match lookup_col c (map (fun kv => (fst kv, [snd kv]))
                          (combine train_columns (profile_to_predict f))) with
  | Some [v] => v
  | _ => VNaN
  end.

(** The rows whose target is present: the mask of [dropna(subset=[target])]. *)
Definition has_target (df : DataFrame) : list bool :=
  row_mask df (fun i => negb (isna (cell df target i))).

(** ** Data for the examples *)

(** Integer cube root, by bits from the top. *)
Fixpoint icbrt_bits (k : nat) (n r : Z) : Z :=
  match k with
  | O => r
  | S k' =>
      let t := (r + 2 ^ Z.of_nat k')%Z in
      icbrt_bits k' n (if (t * t * t <=? n)%Z then t else r)
  end.

Definition icbrt (n : Z) : Z :=
  let root m := icbrt_bits (Z.to_nat (Z.log2 m / 3 + 1)) m 0 in
  if (n <? 0)%Z then (- root (- n))%Z else root n.

(** An implementation of the library functions for evaluating examples:
    the cube root rounded towards zero to three decimals, a float printed as
    the integer below it followed by ".0", and a [float] that reads decimal
    integers only. *)
Definition example_numpy : NumPy :=
  {| cbrt := fun q => inject_Z (icbrt (Qfloor (q * 1000000000))) / 1000;
     str_float := fun q =>
       String.append (DecimalString.NilZero.string_of_int (Z.to_int (Qfloor q))) ".0";
     float_of_str := fun t =>
       option_map (fun i => Some (fl (inject_Z (Z.of_int i))))
                  (DecimalString.NilZero.int_of_string t) |}.

(** A frame from its rows. *)
Definition from_rows (names : list string) (rows : list (list value)) : DataFrame :=
  {| index := map Z.of_nat (seq 0 (length rows));
     cols := map (fun ic => (snd ic, map (fun r => nth (fst ic) r VNaN) rows))
                 (combine (seq 0 (length names)) names) |}.

Definition num (z : Z) : value := VNum (inject_Z z).

(** Four historical records in the layout of [train.csv]; the second lacks
    some cells and holds a sentinel, the third is a student without a
    sanctioned amount. *)
Definition sample_rows : list (list value) :=
  [ [VStr "C-1"; VStr "Ann"; VStr "F"; num 30; num 2000; VStr "Low"; VStr "Working";
     VStr "Sales staff"; VStr "Urban"; num 50000; num 300; VStr "N"; VStr "Y"; num 2;
     num 700; num 0; VStr "Active"; num 11; num 2000; num 1; VStr "Urban"; num 1;
     num 80000; num 40000];
    [VStr "C-2"; VStr "Bob"; VStr "M"; num 45; num 2600; VStr "High"; VStr "Pensioner";
     VNaN; VStr "Rural"; num 60000; num 400; VStr "Y"; VStr "Y"; VNaN;
     num 750; num 1; VNaN; num 12; VNaN; num 2; VStr "Rural"; num (-999);
     num 90000; num 45000];
    [VStr "C-3"; VStr "Cid"; VNaN; num 50; num 2400; VStr "Low"; VStr "Student";
     VStr "Laborers"; VStr "Semi-Urban"; num 55000; num (-999); VStr "N"; VStr "N"; num 1;
     VNaN; num 0; VStr "Inactive"; num 13; num 2500; num 3; VStr "Semi-Urban"; num 0;
     num 85000; VNaN];
    [VStr "C-4"; VStr "Dee"; VStr "M"; num 38; num 2500; VStr "Low"; VStr "Working";
     VStr "Laborers"; VStr "Semi-Urban"; num 52000; num 350; VStr "N"; VStr "N"; num 1;
     num 720; num 0; VStr "Inactive"; num 14; num 2200; num 3; VStr "Semi-Urban"; num 0;
     num 82000; num 41000] ].

Definition sample_train : DataFrame := from_rows train_columns sample_rows.

Definition sample_form : form :=
  {| input_gender := Male; input_age := 40; input_income := 2500; income_stab := Low;
     input_professions := Working; location := Semi_Urban; input_current_loan_amt := 350;
     exp_type_one := No; exp_type_two := No; dependents_count := 0; credit_score := 740;
     loan_default_input := No; cc_status_input := Active; property_age_years := 6;
     prop_price := 85000; property_type_input := 1; prop_location := Semi_Urban;
     co_applicant := No; loan_amount_req := 55000 |}.

(** The store at start-up: the training split is the only frame. *)
Definition sample_store : store := {| heap := [sample_train]; stdout := [] |}.

(** A frame with none of the columns any transformer declares. *)
Definition foreign_frame : DataFrame :=
  {| index := [0%Z; 1%Z]; cols := [("Remark", [VStr "a"; VStr "b"])] |}.

(** The training sample without its target column. *)
Definition sample_without_target : DataFrame := drop_columns [target] sample_train.

(** ** Re-applying a transformer *)

(** [transform] applied to its own output returns the same frame, for the
    outputs that are [clean]. *)
Definition idempotent_on (T : ref -> M ref) (clean : DataFrame -> Prop) : Prop :=
  forall (s s1 : store) (df df1 : ref) (d d1 : DataFrame),
    heap s !! df = Some d ->
    well_formed d ->
    T df s = Ok (df1, s1) ->
    heap s1 !! df1 = Some d1 ->
    clean d1 ->
    exists df2 s2, T df1 s1 = Ok (df2, s2) /\ heap s2 !! df2 = Some d1.

(** No row has a cell outside its column's bounds. *)
Definition no_outlier (fs : list string) (df : DataFrame) : Prop :=
  forall i, (i < nrows df)%nat -> outlier_row fs df i = false.

(** No row has one of the excluded professions. *)
Definition no_excluded_profession (l : list string) (df : DataFrame) : Prop :=
  forall i, (i < nrows df)%nat ->
    DropUncommonProfession.isin l (cell df "Profession" i) = false.

(** No cell of the columns [cs] is missing. *)
Definition no_missing (cs : list string) (df : DataFrame) : Prop :=
  forall c, In c cs -> forallb (fun v => negb (isna v)) (column c df) = true.

(** No cell of the columns [cs] holds the sentinel. *)
Definition no_sentinel (cs : list string) (df : DataFrame) : Prop :=
  forall c, In c cs -> forallb (fun v => negb (value_eqb v (VNum (-999)))) (column c df) = true.

(** ** The query row on its way through the pipeline *)


(** The one-row frame of the query record, and the frame the pipeline
    receives: the training split followed by the query record. *)
Definition query_frame (f : form) : DataFrame :=
  {| index := [0%Z];
     cols := map (fun kv => (fst kv, [snd kv])) (combine train_columns (profile_to_predict f)) |}.

Definition combined (train : DataFrame) (f : form) : DataFrame :=
  pd_concat train (query_frame f).


(** The columns left by [DropFeatures]. *)
Definition kept_columns : list string :=
  List.filter (fun k => negb (mem k (DropFeatures.feature_to_drop DropFeatures.init)))
              train_columns.

Definition numeric_features : list string :=
  MinMaxWithFeatNames.min_max_scaler_ft MinMaxWithFeatNames.init.

Definition categorical_features : list string :=
  OneHotWithFeatNames.one_hot_enc_ft OneHotWithFeatNames.init.




(** The columns in which the row filters and the imputer look at the query
    record. *)
Definition watched_columns : list string :=
  "Profession" :: target :: MissingValueImputer.mode_imputed_ft MissingValueImputer.init.




From Stdlib Require Sorted.

(** ** Further notions used by the properties *)

(** The column holds at least one string. *)
Definition holds_text (c : string) (df : DataFrame) : Prop :=
  existsb (fun v => negb (is_numeric v)) (column c df) = true.

(** The column holds a string that Python's [float] rejects. *)
Definition holds_unreadable_text `{NumPy} (c : string) (df : DataFrame) : Prop :=
  exists t, In (VStr t) (column c df) /\ float_of_str t = None.

(** The training sample with a remark typed into the income column. *)
Definition sample_with_text : DataFrame :=
  setitem "Income (USD)" [num 2000; VStr "n/a"; num 2400; num 2500] sample_train.

(** The training sample with the same age in every row. *)
Definition sample_same_age : DataFrame :=
  setitem "Age" [num 40; num 40; num 40; num 40] sample_train.

(** A frame with the given labels and no rows. *)
Definition empty_frame (names : list string) : DataFrame :=
  {| index := []; cols := map (fun c => (c, [])) names |}.

(** A step that may drop rows but never adds, duplicates or reorders them:
    the index of the frame it returns is a subsequence of the index of the
    frame it was given. *)
Definition only_removes_rows (T : ref -> M ref) : Prop :=
  forall (s s' : store) (df r : ref) (d : DataFrame),
    heap s !! df = Some d ->
    T df s = Ok (r, s') ->
    exists d', heap s' !! r = Some d' /\ sublist (index d') (index d).

(** Ascending in the order of [value_leb]. *)
Definition ascending (l : list value) : Prop :=
  Sorted.Sorted (fun a b => value_leb a b = true) l.

(** Strings in strictly ascending order of code points: every string is
    below all the strings after it. *)
Definition strictly_ascending (l : list string) : Prop :=
  Sorted.StronglySorted (fun a b => String.ltb a b = true) l.

(** The strings among some cells. *)
Definition strings_of (l : list value) : list string :=
  flat_map (fun v => match v with VStr s => [s] | _ => [] end) l.

(** * Properties *)

(** ** The monad *)

Lemma bind_ret_l {A B} (a : A) (f : A -> M B) (s : store) :
  bind (ret a) f s = f a s.
Proof. reflexivity. Qed.

Lemma bind_ret_r {A} (m : M A) (s : store) : bind m ret s = m s.
Proof. unfold bind, ret. destruct (m s) as [[a s']|e]; reflexivity. Qed.

Lemma bind_assoc {A B C} (m : M A) (f : A -> M B) (g : B -> M C) (s : store) :
  bind (bind m f) g s = bind m (fun a => bind (f a) g) s.
Proof. unfold bind. destruct (m s) as [[a s']|e]; reflexivity. Qed.

Lemma bind_ext {A B} (m : M A) (f g : A -> M B) (s : store) :
  (forall a s', f a s' = g a s') -> bind m f s = bind m g s.
Proof. intros E. unfold bind. destruct (m s) as [[a s']|e]; auto. Qed.

Lemma fit_transform_eq {T} `{Estimator T} (self : T) (X : ref) (s : store) :
  (forall Y s', fit self Y s' = Ok (self, s')) ->
  fit_transform self X s = transform self X s.
Proof. intros F. unfold fit_transform, bind. rewrite F. reflexivity. Qed.

(** ** Labels, columns and masks *)

Lemma mem_true_iff c l : mem c l = true <-> In c l.
Proof.
  unfold mem. rewrite existsb_exists. split.
  - intros (x & Hx & E). apply String.eqb_eq in E. subst. exact Hx.
  - intros Hc. exists c. split; [exact Hc | apply String.eqb_refl].
Qed.

Lemma mem_false_iff c l : mem c l = false <-> ~ In c l.
Proof.
  rewrite <- mem_true_iff. destruct (mem c l); split; intros; congruence.
Qed.

Lemma issubset_true_iff cs names :
  issubset cs names = true <-> (forall c, In c cs -> In c names).
Proof.
  unfold issubset. rewrite forallb_forall. split; intros Hs c Hc.
  - apply mem_true_iff. auto.
  - apply mem_true_iff. auto.
Qed.

Lemma lookup_col_Some_iff c l : (exists v, lookup_col c l = Some v) <-> In c (map fst l).
Proof.
  induction l as [|[k w] l IH]; simpl.
  - split; [intros [v Hv]; discriminate | intros []].
  - destruct (String.eqb_spec k c) as [->|Hne].
    + split; eauto.
    + rewrite IH. split; [auto | intros [E|Hin]; [congruence | exact Hin]].
Qed.

Lemma lookup_col_assign_eq c v l : lookup_col c (assign_col c v l) = Some v.
Proof.
  induction l as [|[k w] l IH]; simpl.
  - rewrite String.eqb_refl. reflexivity.
  - destruct (String.eqb_spec k c) as [->|Hne]; simpl.
    + rewrite String.eqb_refl. reflexivity.
    + destruct (String.eqb_spec k c); [congruence | exact IH].
Qed.

Lemma lookup_col_assign_ne c c' v l :
  c <> c' -> lookup_col c (assign_col c' v l) = lookup_col c l.
Proof.
  intros Hne. induction l as [|[k w] l IH]; simpl.
  - destruct (String.eqb_spec c' c); [congruence | reflexivity].
  - destruct (String.eqb_spec k c') as [->|Hk]; simpl.
    + destruct (String.eqb_spec c' c); [congruence | reflexivity].
    + rewrite IH. reflexivity.
Qed.

Lemma map_fst_assign_col c v l :
  In c (map fst l) -> map fst (assign_col c v l) = map fst l.
Proof.
  induction l as [|[k w] l IH]; simpl; [intros [] |].
  destruct (String.eqb_spec k c) as [->|Hne]; simpl; [reflexivity |].
  intros [E|Hin]; [congruence | rewrite IH by exact Hin; reflexivity].
Qed.

Lemma assign_col_id c v l : lookup_col c l = Some v -> assign_col c v l = l.
Proof.
  induction l as [|[k w] l IH]; simpl; [discriminate |].
  destruct (String.eqb_spec k c) as [->|Hne].
  - intros [= ->]. reflexivity.
  - intros Hl. rewrite IH by exact Hl. reflexivity.
Qed.

Lemma column_setitem_eq c v df : column c (setitem c v df) = v.
Proof. unfold column, getitem. simpl. rewrite lookup_col_assign_eq. reflexivity. Qed.

Lemma column_setitem_ne c c' v df : c <> c' -> column c (setitem c' v df) = column c df.
Proof.
  intros Hne. unfold column, getitem. simpl.
  rewrite lookup_col_assign_ne by exact Hne. reflexivity.
Qed.

Lemma columns_setitem c v df :
  In c (columns df) -> columns (setitem c v df) = columns df.
Proof. intros Hc. unfold columns. simpl. apply map_fst_assign_col, Hc. Qed.

Lemma setitem_id c df : In c (columns df) -> setitem c (column c df) df = df.
Proof.
  intros Hc. destruct df as [idx cs]. unfold setitem, column, getitem, columns in *. simpl in *.
  apply lookup_col_Some_iff in Hc. destruct Hc as [v Hv]. rewrite Hv.
  rewrite assign_col_id by exact Hv. reflexivity.
Qed.

Lemma mask_select_nil {A} (keep : list bool) : mask_select keep (@nil A) = [].
Proof. destruct keep as [|[] ?]; reflexivity. Qed.

Lemma lookup_col_map (f : list value -> list value) c l :
  lookup_col c (map (fun kv => (fst kv, f (snd kv))) l) = option_map f (lookup_col c l).
Proof.
  induction l as [|[k w] l IH]; simpl; [reflexivity |].
  destruct (String.eqb k c); [reflexivity | exact IH].
Qed.

Lemma column_take_rows c keep df :
  column c (take_rows keep df) = mask_select keep (column c df).
Proof.
  unfold column, getitem, take_rows. simpl.
  rewrite (lookup_col_map (mask_select keep)).
  destruct (lookup_col c (cols df)); simpl; [reflexivity |].
  symmetry. apply mask_select_nil.
Qed.

Lemma columns_take_rows keep df : columns (take_rows keep df) = columns df.
Proof. unfold columns, take_rows. simpl. rewrite map_map. reflexivity. Qed.

Lemma lookup_col_filter (p : string -> bool) c l :
  p c = true ->
  lookup_col c (List.filter (fun kv => p (fst kv)) l) = lookup_col c l.
Proof.
  intros Hp. induction l as [|[k w] l IH]; simpl; [reflexivity |].
  destruct (String.eqb_spec k c) as [->|Hne].
  - rewrite Hp. simpl. rewrite String.eqb_refl. reflexivity.
  - destruct (p k); simpl; [|exact IH].
    destruct (String.eqb_spec k c); [congruence | exact IH].
Qed.


Lemma columns_drop_columns cs df :
  columns (drop_columns cs df) = List.filter (fun k => negb (mem k cs)) (columns df).
Proof.
  unfold columns, drop_columns. simpl.
  induction (cols df) as [|[k w] l IH]; simpl; [reflexivity |].
  destruct (mem k cs); simpl; rewrite IH; reflexivity.
Qed.

(** ** The statistics on small columns *)

Example quantile_of_four :
  quantile (1 # 4) [VNum 1; VNum 2; VNaN; VNum 3; VNum 4] = Ok (Some (Fin (7 # 4))).
Proof. vm_compute. reflexivity. Qed.

Example quantile_of_four_value :
  quantile (3 # 4) [VNum 4; VNum 2; VNum 1; VNum 3] = Ok (Some (Fin (13 # 4))).
Proof. vm_compute. reflexivity. Qed.

Example quantile_of_a_string_column : quantile (1 # 4) [VNum 1; VStr "x"] = Raise TypeError.
Proof. reflexivity. Qed.

Example quantile_of_nothing : quantile (1 # 4) [VNaN; VNaN] = Ok None.
Proof. reflexivity. Qed.

(** Rounding decides at the boundary.  For the incomes 0.0, 0.1, 0.5, 1.3
    and 3.1 the upper bound [Q3 + 1.5 IQR] is 3.0999999999999996 in float64
    and 3.1 lies above it; for 0.0, 0.6, 0.9, 1.0 and 1.6 the bound is 1.6
    and 1.6 does not. *)
Example bound_below_its_exact_value :
  let d := {| index := [0%Z; 1%Z; 2%Z; 3%Z; 4%Z];
              cols := [("Income (USD)",
                        map double [0; 1 # 10; 5 # 10; 13 # 10; 31 # 10])] |} in
  of_fnum (upper_bound d "Income (USD)") = double (30999999999999996 # 10000000000000000)
  /\ of_fnum (lower_bound d "Income (USD)") = double (-16999999999999997 # 10000000000000000)
  /\ map (out_of_bounds d "Income (USD)") [0; 1; 2; 3; 4]%nat = [false; false; false; false; true].
Proof. vm_compute. repeat split; reflexivity. Qed.

Example bound_at_its_exact_value :
  let d := {| index := [0%Z; 1%Z; 2%Z; 3%Z; 4%Z];
              cols := [("Income (USD)",
                        map double [0; 6 # 10; 9 # 10; 1; 16 # 10])] |} in
  of_fnum (upper_bound d "Income (USD)") = double (16 # 10)
  /\ map (out_of_bounds d "Income (USD)") [0; 1; 2; 3; 4]%nat = [false; false; false; false; false].
Proof. vm_compute. repeat split; reflexivity. Qed.

(** The current loan expenses -5.0, -4.0, 0.5 and 1.6 with a query of 10:
    the upper bound is 9.999999999999998 and the query lies above it. *)
Example bound_below_a_query :
  let d := {| index := [0%Z; 1%Z; 2%Z; 3%Z; 4%Z];
              cols := [("Current Loan Expenses (USD)",
                        map double [-5; -4; 5 # 10; 16 # 10; 10])] |} in
  of_fnum (upper_bound d "Current Loan Expenses (USD)")
  = double (9999999999999998 # 1000000000000000)
  /\ of_fnum (lower_bound d "Current Loan Expenses (USD)")
     = double (-12399999999999999 # 1000000000000000)
  /\ out_of_bounds d "Current Loan Expenses (USD)" 4 = true.
Proof. vm_compute. repeat split; reflexivity. Qed.

Example median_of_three : median [VNum 3; VNaN; VNum 1; VNum 2] = Ok (Some (Fin 2)).
Proof. vm_compute. reflexivity. Qed.

Example median_of_four :
  median [VNum 4; VNum 1; VNum 3; VNum 2] = Ok (Some (Fin (5 # 2))).
Proof. vm_compute. reflexivity. Qed.

(** The mean of the two middle values is rounded twice: the median of 0.1
    and 0.2 is 0.15000000000000002. *)
Example median_is_rounded :
  option_map of_fnum
    (match median [double (1 # 10); VNaN; double (2 # 10)] with Ok m => Some m | Raise _ => None end)
  = Some (double (15000000000000002 # 100000000000000000)).
Proof. vm_compute. reflexivity. Qed.

Example median_overflows :
  median [VNum (2 ^ 1023); VNum (2 ^ 1023)] = Ok (Some (Inf false)).
Proof. vm_compute. reflexivity. Qed.

Example mode_breaks_ties_by_order :
  mode [VStr "b"; VStr "a"; VNaN; VStr "b"; VStr "a"; VStr "c"] = [VStr "a"; VStr "b"].
Proof. reflexivity. Qed.

Example mode_of_nothing : mode [VNaN; VNaN] = [].
Proof. reflexivity. Qed.

Example vocabulary_is_sorted_and_missing_is_last :
  categories [VStr "Urban"; VNaN; VStr "Rural"; VStr "Urban"; VNaN]
  = Ok [VStr "Rural"; VStr "Urban"; VNaN].
Proof. reflexivity. Qed.

Example mixed_categories_raise : categories [VStr "Urban"; VNum 1] = Raise TypeError.
Proof. reflexivity. Qed.

Example replace_is_exact :
  replace (-999) (VNum 0) [VNum (-999); VNum (-998999 # 1000); VNum (-1998 # 2); VStr "-999"; VNaN]
  = [VNum 0; VNum (-998999 # 1000); VNum 0; VStr "-999"; VNaN].
Proof. reflexivity. Qed.

Example scaler_on_three :
  @MinMaxScaler.fit_transform example_numpy [VNum 10; VNaN; VNum 20; VNum 15]
  = Ok [VNum 0; VNaN; VNum 1; VNum (1 # 2)].
Proof. vm_compute. reflexivity. Qed.

(** The scaler does not clip: 2600 in a column from 2000 to 2600 becomes
    1.0000000000000004. *)
Example scaler_exceeds_one :
  @MinMaxScaler.fit_transform example_numpy [VNum 2000; VNum 2600; VNum 2400; VNum 2500]
  = Ok [VNum 0; double (10000000000000004 # 10000000000000000);
        double (6666666666666665 # 10000000000000000);
        double (8333333333333335 # 10000000000000000)].
Proof. vm_compute. reflexivity. Qed.

Example scaler_on_a_constant_column :
  @MinMaxScaler.fit_transform example_numpy [VNum 7; VNum 7] = Ok [VNum 0; VNum 0].
Proof. vm_compute. reflexivity. Qed.

(** A range below ten machine epsilons is not divided by. *)
Example scaler_on_a_tiny_range :
  @MinMaxScaler.fit_transform example_numpy [VNum 1; VNum (1 + 2 ^ (-50))]
  = Ok [VNum 0; VNum (2 ^ (-50))].
Proof. vm_compute. reflexivity. Qed.

(** A range that overflows makes the scale 0. *)
Example scaler_on_an_overflowing_range :
  @MinMaxScaler.fit_transform example_numpy [VNum (2 ^ 1023); VNum (- 2 ^ 1023); VNum 0]
  = Ok [VNum 0; VNum 0; VNum 0].
Proof. vm_compute. reflexivity. Qed.

Example scaler_rejects_infinity :
  @MinMaxScaler.fit_transform example_numpy [VNum 1; VNum (Inf false)] = Raise ValueError.
Proof. vm_compute. reflexivity. Qed.

(** A string is read by [float]: "2600" is scaled, "n/a" is rejected. *)
Example scaler_reads_strings :
  @MinMaxScaler.fit_transform example_numpy [VNum 10; VStr "20"; VNum 15]
  = Ok [VNum 0; VNum 1; VNum (1 # 2)]
  /\ @MinMaxScaler.fit_transform example_numpy [VNum 10; VStr "n/a"] = Raise ValueError.
Proof. vm_compute. split; reflexivity. Qed.

(** Adding 0.1 and 0.2 gives 0.30000000000000004; the largest float64 plus
    itself overflows. *)
Example addition_is_rounded :
  fadd (Some (fl (1 # 10))) (Some (fl (2 # 10)))
  = Some (fl (30000000000000004 # 100000000000000000))
  /\ fadd (Some (fl (2 ^ 1024 - 2 ^ 971))) (Some (fl (2 ^ 1024 - 2 ^ 971))) = Some (Inf false)
  /\ fsub (Some (Inf false)) (Some (Inf false)) = None.
Proof. vm_compute. repeat split; reflexivity. Qed.

Example query_record_has_24_fields f : length (profile_to_predict f) = length train_columns.
Proof. reflexivity. Qed.

(** ** The pipeline orchestrator *)

Lemma fit_transform_one_eq {T} `{Estimator T} name (self : T) (X : ref) (s : store) :
  (forall Y s', fit self Y s' = Ok (self, s')) ->
  fit_transform_one (Step name self) X s = transform self X s.
Proof. intros F. simpl. apply fit_transform_eq, F. Qed.

Lemma full_pipeline_chain `{NumPy} (df : ref) (s : store) :
  full_pipeline df s =
    (d1 <- DropFeatures.transform DropFeatures.init df ;;
     d2 <- OutlierImputer.transform OutlierImputer.init d1 ;;
     d3 <- DropUncommonProfession.transform DropUncommonProfession.init d2 ;;
     d4 <- MissingValueImputer.transform MissingValueImputer.init d3 ;;
     d5 <- ValueImputer.transform ValueImputer.init d4 ;;
     d6 <- SkewnessHandler.transform SkewnessHandler.init d5 ;;
     d7 <- MinMaxWithFeatNames.transform MinMaxWithFeatNames.init d6 ;;
     OneHotWithFeatNames.transform OneHotWithFeatNames.init d7) s.
Proof.
  unfold full_pipeline. rewrite bind_ret_r.
  unfold Pipeline_fit_transform, pipeline_steps.
  cbn [Pipeline_fit final_estimator List.last map].
  repeat (rewrite bind_assoc; apply bind_ext; intros).
  reflexivity.
Qed.

(** C1.  [full_pipeline] runs the eight transformers in the fixed order drop
    features, outlier remover, drop uncommon profession, missing value
    imputer, -999 value imputer, skewness handler, min max scaler, one hot
    encoder; each [transform] receives the reference returned by the previous
    one, for every input and every store. *)
Theorem full_pipeline_runs_the_eight_steps_in_order `{NumPy} (df : ref) (s : store) :
  map step_name pipeline_steps =
    ["drop features"; "outlier remover"; "drop uncommon profession";
     "missing value imputer"; "-999 value imputer"; "skewness handler";
     "min max scaler"; "one hot encoder"]
  /\ full_pipeline df s =
       (d1 <- DropFeatures.transform DropFeatures.init df ;;
        d2 <- OutlierImputer.transform OutlierImputer.init d1 ;;
        d3 <- DropUncommonProfession.transform DropUncommonProfession.init d2 ;;
        d4 <- MissingValueImputer.transform MissingValueImputer.init d3 ;;
        d5 <- ValueImputer.transform ValueImputer.init d4 ;;
        d6 <- SkewnessHandler.transform SkewnessHandler.init d5 ;;
        d7 <- MinMaxWithFeatNames.transform MinMaxWithFeatNames.init d6 ;;
        OneHotWithFeatNames.transform OneHotWithFeatNames.init d7) s.
Proof.
  split; [reflexivity | apply full_pipeline_chain].
Qed.

(** ** Running one transformer

    Each [transform] reads the frame behind its argument, tests the guard and
    then either computes its body (updating the object in place or allocating
    a new one) or prints the diagnostic and returns its argument. *)

Ltac run_transform Hd Hg :=
  unfold bind, deref, lift, update, alloc, print, ret; rewrite Hd; cbn beta iota;
  rewrite Hg; cbn beta iota.

Section Runs.
Context `{NumPy}.
Variables (s : store) (df : ref) (d : DataFrame).
Hypothesis Hd : heap s !! df = Some d.

Lemma DropFeatures_run self :
  issubset (DropFeatures.feature_to_drop self) (columns d) = true ->
  DropFeatures.transform self df s
  = Ok (df, written s df (drop_columns (DropFeatures.feature_to_drop self) d)).
Proof. intros Hg. unfold DropFeatures.transform. run_transform Hd Hg. reflexivity. Qed.

Lemma DropFeatures_skip self :
  issubset (DropFeatures.feature_to_drop self) (columns d) = false ->
  DropFeatures.transform self df s
  = Ok (df, printed s "One or more features are not in the dataframe").
Proof. intros Hg. unfold DropFeatures.transform. run_transform Hd Hg. reflexivity. Qed.

Lemma OutlierImputer_run self :
  issubset (OutlierImputer.feat_with_outliers self) (columns d) = true ->
  OutlierImputer.transform self df s
  = match OutlierImputer.body self d with
    | Ok d' => Ok (length (heap s), allocated s d')
    | Raise e => Raise e
    end.
Proof.
  intros Hg. unfold OutlierImputer.transform. run_transform Hd Hg.
  destruct (OutlierImputer.body self d); reflexivity.
Qed.

Lemma OutlierImputer_skip self :
  issubset (OutlierImputer.feat_with_outliers self) (columns d) = false ->
  OutlierImputer.transform self df s
  = Ok (df, printed s "One or more features are not in the dataframe").
Proof. intros Hg. unfold OutlierImputer.transform. run_transform Hd Hg. reflexivity. Qed.

Lemma DropUncommonProfession_run self :
  mem "Profession" (columns d) = true ->
  DropUncommonProfession.transform self df s
  = Ok (length (heap s), allocated s (DropUncommonProfession.body self d)).
Proof. intros Hg. unfold DropUncommonProfession.transform. run_transform Hd Hg. reflexivity. Qed.

Lemma DropUncommonProfession_skip self :
  mem "Profession" (columns d) = false ->
  DropUncommonProfession.transform self df s
  = Ok (df, printed s "Profession feature is not in the dataframe").
Proof. intros Hg. unfold DropUncommonProfession.transform. run_transform Hd Hg. reflexivity. Qed.

Lemma MissingValueImputer_run self :
  issubset (MissingValueImputer.mode_imputed_ft self ++ MissingValueImputer.median_imputed_ft self)
           (columns d) = true ->
  MissingValueImputer.transform self df s
  = match MissingValueImputer.body self d with
    | Ok d' => Ok (df, written s df d')
    | Raise e => Raise e
    end.
Proof.
  intros Hg. unfold MissingValueImputer.transform. run_transform Hd Hg.
  destruct (MissingValueImputer.body self d); reflexivity.
Qed.

Lemma MissingValueImputer_skip self :
  issubset (MissingValueImputer.mode_imputed_ft self ++ MissingValueImputer.median_imputed_ft self)
           (columns d) = false ->
  MissingValueImputer.transform self df s
  = Ok (df, printed s "One or more features are not in the dataframe").
Proof. intros Hg. unfold MissingValueImputer.transform. run_transform Hd Hg. reflexivity. Qed.

Lemma ValueImputer_run self :
  issubset (ValueImputer.feat_with_999_val self) (columns d) = true ->
  ValueImputer.transform self df s = Ok (df, written s df (ValueImputer.body self d)).
Proof. intros Hg. unfold ValueImputer.transform. run_transform Hd Hg. reflexivity. Qed.

Lemma ValueImputer_skip self :
  issubset (ValueImputer.feat_with_999_val self) (columns d) = false ->
  ValueImputer.transform self df s
  = Ok (df, printed s "One or more features are not in the dataframe").
Proof. intros Hg. unfold ValueImputer.transform. run_transform Hd Hg. reflexivity. Qed.

Lemma SkewnessHandler_run self :
  issubset (SkewnessHandler.col_with_skewness self) (columns d) = true ->
  SkewnessHandler.transform self df s
  = match SkewnessHandler.body self d with
    | Ok d' => Ok (df, written s df d')
    | Raise e => Raise e
    end.
Proof.
  intros Hg. unfold SkewnessHandler.transform. run_transform Hd Hg.
  destruct (SkewnessHandler.body self d); reflexivity.
Qed.

Lemma SkewnessHandler_skip self :
  issubset (SkewnessHandler.col_with_skewness self) (columns d) = false ->
  SkewnessHandler.transform self df s
  = Ok (df, printed s "One or more skewed columns are not found").
Proof. intros Hg. unfold SkewnessHandler.transform. run_transform Hd Hg. reflexivity. Qed.

Lemma MinMaxWithFeatNames_run self :
  issubset (MinMaxWithFeatNames.min_max_scaler_ft self) (columns d) = true ->
  MinMaxWithFeatNames.transform self df s
  = match MinMaxWithFeatNames.body self d with
    | Ok d' => Ok (df, written s df d')
    | Raise e => Raise e
    end.
Proof.
  intros Hg. unfold MinMaxWithFeatNames.transform. run_transform Hd Hg.
  destruct (MinMaxWithFeatNames.body self d); reflexivity.
Qed.

Lemma MinMaxWithFeatNames_skip self :
  issubset (MinMaxWithFeatNames.min_max_scaler_ft self) (columns d) = false ->
  MinMaxWithFeatNames.transform self df s
  = Ok (df, printed s "One or more features are not in the dataframe").
Proof. intros Hg. unfold MinMaxWithFeatNames.transform. run_transform Hd Hg. reflexivity. Qed.

Lemma OneHotWithFeatNames_run self :
  issubset (OneHotWithFeatNames.one_hot_enc_ft self) (columns d) = true ->
  OneHotWithFeatNames.transform self df s
  = match OneHotWithFeatNames.body self d with
    | Ok d' => Ok (length (heap s), allocated s d')
    | Raise e => Raise e
    end.
Proof.
  intros Hg. unfold OneHotWithFeatNames.transform. run_transform Hd Hg.
  destruct (OneHotWithFeatNames.body self d); reflexivity.
Qed.

Lemma OneHotWithFeatNames_skip self :
  issubset (OneHotWithFeatNames.one_hot_enc_ft self) (columns d) = false ->
  OneHotWithFeatNames.transform self df s
  = Ok (df, printed s "One or more features are not in the dataframe").
Proof. intros Hg. unfold OneHotWithFeatNames.transform. run_transform Hd Hg. reflexivity. Qed.

End Runs.

(** ** Lists, masks and reductions *)

Lemma existsb_ext_in {A} (f g : A -> bool) (l : list A) :
  (forall x, In x l -> f x = g x) -> existsb f l = existsb g l.
Proof.
  induction l as [|x l IH]; simpl; intros E; [reflexivity |].
  rewrite E by auto. rewrite IH by auto. reflexivity.
Qed.

Lemma length_row_mask df p : length (row_mask df p) = nrows df.
Proof. unfold row_mask. rewrite length_map, length_seq. reflexivity. Qed.

Lemma mask_select_all {A} (keep : list bool) (l : list A) :
  Forall (fun b => b = true) keep -> (length l <= length keep)%nat ->
  mask_select keep l = l.
Proof.
  intros Hk. revert l. induction Hk as [|b keep Hb Hk IH]; intros [|x l] Hl; simpl in *;
    try reflexivity; try lia.
  subst b. rewrite IH by lia. reflexivity.
Qed.

Lemma Forall_row_mask df (p : nat -> bool) :
  (forall i, (i < nrows df)%nat -> p i = true) ->
  Forall (fun b => b = true) (row_mask df p).
Proof.
  intros Hp. unfold row_mask. apply Forall_map, List.Forall_forall.
  intros i Hi. apply in_seq in Hi. apply Hp. lia.
Qed.

Lemma take_rows_all keep df :
  well_formed df -> Forall (fun b => b = true) keep -> length keep = nrows df ->
  take_rows keep df = df.
Proof.
  intros Hwf Hk Hlen. destruct df as [idx cs]. unfold take_rows, well_formed, nrows in *.
  simpl in *. f_equal.
  - apply mask_select_all; [exact Hk | lia].
  - induction Hwf as [|[k v] cs Hv Hwf IH]; simpl; [reflexivity |].
    simpl in Hv. rewrite IH. rewrite mask_select_all; [reflexivity | exact Hk | lia].
Qed.

Lemma numeric_values_numbers e l :
  forallb is_numeric l = true -> numeric_values e l = Ok (numbers l).
Proof.
  induction l as [|[q|t|] l IH]; simpl; intros Hn; try discriminate; auto.
  rewrite IH by exact Hn. reflexivity.
Qed.

Lemma numeric_values_Ok e l xs :
  numeric_values e l = Ok xs -> forallb is_numeric l = true.
Proof.
  revert xs. induction l as [|[q|t|] l IH]; simpl; intros xs Hn; try discriminate; eauto.
  destruct (numeric_values e l) eqn:E; simpl in Hn; [eauto | discriminate].
Qed.

Lemma rmap_ok {A B} (f : A -> result B) (g : A -> B) (l : list A) :
  (forall x, In x l -> f x = Ok (g x)) -> rmap f l = Ok (map g l).
Proof.
  induction l as [|x l IH]; simpl; intros E; [reflexivity |].
  rewrite E by auto. simpl. rewrite IH by auto. reflexivity.
Qed.

Lemma series_get_map (f : string -> fnum) c cs :
  In c cs -> series_get c (map (fun k => (k, f k)) cs) = f c.
Proof.
  induction cs as [|k cs IH]; simpl; [intros [] |].
  destruct (String.eqb_spec k c) as [->|Hne]; [reflexivity |].
  intros [E|Hin]; [congruence | auto].
Qed.

Lemma series_get_zip op (a b : series) c :
  In c (map fst a) ->
  series_get c (series_zip op a b) = op (series_get c a) (series_get c b).
Proof.
  induction a as [|[k x] a IH]; simpl; [intros [] |].
  destruct (String.eqb_spec k c) as [->|Hne]; [reflexivity |].
  intros [E|Hin]; [congruence | auto].
Qed.

Lemma series_get_scale k (a : series) c :
  series_get c (series_scale k a) = fmul (Some (Fin k)) (series_get c a).
Proof.
  induction a as [|[k' x] a IH]; simpl; [reflexivity |].
  destruct (String.eqb k' c); [reflexivity | exact IH].
Qed.

Lemma map_fst_series_zip op (a b : series) : map fst (series_zip op a b) = map fst a.
Proof. unfold series_zip. rewrite map_map. reflexivity. Qed.

Lemma map_fst_tagged {B} (f : string -> B) cs : map fst (map (fun c => (c, f c)) cs) = cs.
Proof. rewrite map_map. simpl. apply map_id. Qed.

(** ** OutlierImputer *)

Lemma df_quantile_numeric q cs df :
  (forall c, In c cs -> numeric_column c df) ->
  df_quantile q cs df = Ok (map (fun c => (c, percentile q df c)) cs).
Proof.
  intros Hn. unfold df_quantile. apply rmap_ok. intros c Hc.
  unfold quantile. rewrite numeric_values_numbers by (apply Hn, Hc). reflexivity.
Qed.

Lemma OutlierImputer_body_numeric self df :
  (forall c, In c (OutlierImputer.feat_with_outliers self) -> numeric_column c df) ->
  OutlierImputer.body self df
  = Ok (take_rows
          (row_mask df (fun i => negb (outlier_row (OutlierImputer.feat_with_outliers self) df i)))
          df).
Proof.
  intros Hn. unfold OutlierImputer.body.
  rewrite !df_quantile_numeric by exact Hn. cbn [rbind]. cbv zeta.
  do 2 f_equal. unfold row_mask. apply map_ext. intros i. f_equal.
  unfold OutlierImputer.outside, outlier_row. apply existsb_ext_in. intros c Hc.
  unfold out_of_bounds, lower_bound, upper_bound, IQR.
  rewrite !series_get_zip, !series_get_scale, !series_get_zip
    by (rewrite ?map_fst_series_zip, map_fst_tagged; exact Hc).
  rewrite (series_get_map (percentile (1 # 4) df)), (series_get_map (percentile (3 # 4) df))
    by exact Hc.
  reflexivity.
Qed.

(** C4.  On a frame holding the five declared numeric columns, the outlier
    remover returns a new frame made of exactly the rows in which none of the
    five columns lies outside [Q1 - 1.5 IQR, Q3 + 1.5 IQR], the percentiles
    being those of the input itself and the bounds their float64 values
    ([IQR = Q3 - Q1], then [1.5 * IQR], then the difference and the sum, each
    rounded); the cells of the surviving rows are those of the input (rows
    are removed, values are never clipped), and when no row is out of bounds
    nothing is removed. *)
Theorem outlier_remover_removes_exactly_the_out_of_bounds_rows
    (s : store) (df : ref) (d : DataFrame) :
  heap s !! df = Some d ->
  issubset (OutlierImputer.feat_with_outliers OutlierImputer.init) (columns d) = true ->
  (forall c, In c (OutlierImputer.feat_with_outliers OutlierImputer.init) ->
             numeric_column c d) ->
  let fs := OutlierImputer.feat_with_outliers OutlierImputer.init in
  let keep := row_mask d (fun i => negb (outlier_row fs d i)) in
  exists d',
    OutlierImputer.transform OutlierImputer.init df s = Ok (length (heap s), allocated s d')
    /\ index d' = mask_select keep (index d)
    /\ columns d' = columns d
    /\ (forall c, column c d' = mask_select keep (column c d))
    /\ (forall i, (i < nrows d)%nat -> nth i keep false = negb (outlier_row fs d i))
    /\ (well_formed d ->
        (forall i, (i < nrows d)%nat -> outlier_row fs d i = false) -> d' = d).
Proof.
  intros Hd Hg Hn fs keep. exists (take_rows keep d).
  split; [|split; [|split; [|split; [|split]]]].
  - rewrite (OutlierImputer_run s df d Hd _ Hg).
    rewrite OutlierImputer_body_numeric by exact Hn. reflexivity.
  - reflexivity.
  - apply columns_take_rows.
  - intros c. apply column_take_rows.
  - intros i Hi. unfold keep, row_mask.
    rewrite (nth_indep _ false (negb (outlier_row fs d 0))) by (rewrite length_map, length_seq; exact Hi).
    rewrite (map_nth (fun i => negb (outlier_row fs d i))).
    rewrite seq_nth by exact Hi. reflexivity.
  - intros Hwf Hin. apply take_rows_all; [exact Hwf | | apply length_row_mask].
    apply Forall_row_mask. intros i Hi. rewrite Hin by exact Hi. reflexivity.
Qed.

(** ** Column-wise updates *)

Lemma well_formed_setitem c v df :
  well_formed df -> length v = nrows df -> well_formed (setitem c v df).
Proof.
  intros Hwf Hv. unfold well_formed, setitem, nrows in *. simpl.
  induction Hwf as [|[k w] l Hk Hwf IH]; simpl.
  - constructor; [exact Hv | constructor].
  - destruct (String.eqb k c); constructor; auto.
Qed.

Lemma well_formed_column c df :
  well_formed df -> In c (columns df) -> length (column c df) = nrows df.
Proof.
  unfold well_formed, column, getitem, columns. intros Hwf.
  induction Hwf as [|[k w] l Hk Hwf IH]; simpl; [intros [] |].
  destruct (String.eqb_spec k c) as [->|Hne]; [intros _; exact Hk |].
  intros [E|Hin]; [congruence | auto].
Qed.

Lemma setitems_spec news df :
  List.NoDup (map fst news) ->
  index (setitems news df) = index df
  /\ (forall c v, In (c, v) news -> column c (setitems news df) = v)
  /\ (forall c, ~ In c (map fst news) -> column c (setitems news df) = column c df)
  /\ ((forall c, In c (map fst news) -> In c (columns df)) ->
      columns (setitems news df) = columns df)
  /\ (well_formed df -> (forall c v, In (c, v) news -> length v = nrows df) ->
      well_formed (setitems news df)).
Proof.
  unfold setitems. revert df. induction news as [|[k w] news IH]; intros df Hnd; simpl.
  - repeat split; auto; intros c v [].
  - inversion Hnd as [|? ? Hk Hnd']; subst.
    destruct (IH (setitem k w df) Hnd') as (Hi & Hin & Hout & Hcols & Hwf).
    split; [exact Hi |]. split; [|split; [|split]].
    + intros c v [[= -> ->]|Hcv]; [|auto].
      rewrite Hout by exact Hk. apply column_setitem_eq.
    + intros c Hc. simpl in Hc. rewrite Hout by tauto.
      apply column_setitem_ne. intros ->. tauto.
    + intros Hsub. simpl in Hsub. rewrite Hcols.
      * apply columns_setitem. auto.
      * intros c Hc. rewrite columns_setitem by auto. auto.
    + intros Hw Hlen. apply Hwf.
      * apply well_formed_setitem; [exact Hw | eauto].
      * intros c v Hcv. apply (Hlen c v). auto.
Qed.

Lemma NoDup_tagged {B} (f : string -> B) cs :
  List.NoDup cs -> List.NoDup (map fst (map (fun c => (c, f c)) cs)).
Proof. rewrite map_fst_tagged. auto. Qed.

(** [df[cs] = [g(df[c]) for c in cs]], every [g] computed on the input. *)
Lemma setitems_tagged (h : string -> list value) cs df :
  List.NoDup cs ->
  let df' := setitems (map (fun c => (c, h c)) cs) df in
  index df' = index df
  /\ (forall c, In c cs -> column c df' = h c)
  /\ (forall c, ~ In c cs -> column c df' = column c df)
  /\ ((forall c, In c cs -> In c (columns df)) -> columns df' = columns df)
  /\ (well_formed df -> (forall c, In c cs -> length (h c) = nrows df) -> well_formed df').
Proof.
  intros Hnd df'.
  destruct (setitems_spec (map (fun c => (c, h c)) cs) df (NoDup_tagged h cs Hnd))
    as (Hi & Hin & Hout & Hcols & Hwf).
  rewrite map_fst_tagged in Hout, Hcols.
  split; [exact Hi |]. split; [|split; [|split]].
  - intros c Hc. apply Hin. apply in_map_iff. exists c. auto.
  - exact Hout.
  - exact Hcols.
  - intros Hw Hlen. apply Hwf; [exact Hw |].
    intros c v Hcv. apply in_map_iff in Hcv. destruct Hcv as (c' & [= <- <-] & Hc'). auto.
Qed.

Lemma rmap_tagged (g : list value -> result (list value)) cs df :
  (forall c, In c cs -> exists v, g (column c df) = Ok v) ->
  rmap (fun c => rbind (g (column c df)) (fun v => Ok (c, v))) cs
  = Ok (map (fun c => (c, unwrap (g (column c df)))) cs).
Proof.
  intros Hg. apply rmap_ok. intros c Hc. destruct (Hg c Hc) as [v Hv].
  rewrite Hv. reflexivity.
Qed.

(** A loop [for c in cs: df[c] = g(df[c])] that may raise. *)
Lemma rfold_colwise_inv g cs : forall df df',
  List.NoDup cs ->
  rfold (colwise g) cs df = Ok df' ->
  index df' = index df
  /\ (forall c, In c cs -> g (column c df) = Ok (column c df'))
  /\ (forall c, ~ In c cs -> column c df' = column c df)
  /\ ((forall c, In c cs -> In c (columns df)) -> columns df' = columns df)
  /\ ((forall l v, g l = Ok v -> length v = length l) ->
      (forall c, In c cs -> In c (columns df)) ->
      well_formed df -> well_formed df').
Proof.
  induction cs as [|k cs IH]; intros df df' Hnd Hr; simpl in Hr.
  - injection Hr as <-. repeat split; auto; intros c [].
  - inversion Hnd as [|? ? Hk Hnd']; subst.
    unfold colwise in Hr at 1. destruct (g (column k df)) as [v|e] eqn:Hv; [|discriminate].
    simpl in Hr. destruct (IH _ _ Hnd' Hr) as (Hi & Hin & Hout & Hcols & Hwf).
    split; [exact Hi |]. split; [|split; [|split]].
    + intros c [<-|Hc].
      * rewrite Hout by exact Hk. rewrite column_setitem_eq. exact Hv.
      * specialize (Hin c Hc). rewrite column_setitem_ne in Hin; [exact Hin |].
        intros ->. tauto.
    + intros c Hc. simpl in Hc. rewrite Hout by tauto.
      apply column_setitem_ne. intros ->. tauto.
    + intros Hsub. rewrite Hcols.
      * apply columns_setitem. apply Hsub. left. reflexivity.
      * intros c Hc. rewrite columns_setitem by (apply Hsub; left; reflexivity).
        apply Hsub. right. exact Hc.
    + intros Hlen Hsub Hw. apply Hwf; [exact Hlen | |].
      * intros c Hc. rewrite columns_setitem by (apply Hsub; left; reflexivity).
        apply Hsub. right. exact Hc.
      * apply well_formed_setitem; [exact Hw |].
        rewrite (Hlen _ _ Hv). apply well_formed_column; [exact Hw |].
        apply Hsub. left. reflexivity.
Qed.

Lemma rfold_colwise_ok g cs : forall df,
  List.NoDup cs ->
  (forall c, In c cs -> exists v, g (column c df) = Ok v) ->
  exists df', rfold (colwise g) cs df = Ok df'.
Proof.
  induction cs as [|k cs IH]; intros df Hnd Hg; simpl; [eauto |].
  inversion Hnd as [|? ? Hk Hnd']; subst.
  destruct (Hg k (or_introl eq_refl)) as [v Hv].
  unfold colwise at 1. rewrite Hv. simpl. apply IH; [exact Hnd' |].
  intros c Hc. rewrite column_setitem_ne by (intros ->; tauto). apply Hg. right. exact Hc.
Qed.

(** Nothing changes when every column is already a fixed point of [g]. *)
Lemma rfold_colwise_id g cs : forall df,
  (forall c, In c cs -> In c (columns df) /\ g (column c df) = Ok (column c df)) ->
  rfold (colwise g) cs df = Ok df.
Proof.
  induction cs as [|k cs IH]; intros df Hg; simpl; [reflexivity |].
  destruct (Hg k (or_introl eq_refl)) as [Hk Hv].
  unfold colwise at 1. rewrite Hv. simpl. rewrite setitem_id by exact Hk.
  apply IH. intros c Hc. apply Hg. right. exact Hc.
Qed.

Lemma fold_left_colwise (g : list value -> list value) cs : forall df,
  List.NoDup cs ->
  let df' := fold_left (fun d c => setitem c (g (column c d)) d) cs df in
  index df' = index df
  /\ (forall c, In c cs -> column c df' = g (column c df))
  /\ (forall c, ~ In c cs -> column c df' = column c df)
  /\ ((forall c, In c cs -> In c (columns df)) -> columns df' = columns df).
Proof.
  induction cs as [|k cs IH]; intros df Hnd; simpl.
  - repeat split; auto; intros c [].
  - inversion Hnd as [|? ? Hk Hnd']; subst.
    destruct (IH (setitem k (g (column k df)) df) Hnd') as (Hi & Hin & Hout & Hcols).
    split; [exact Hi |]. split; [|split].
    + intros c [<-|Hc].
      * rewrite Hout by exact Hk. apply column_setitem_eq.
      * rewrite Hin by exact Hc. rewrite column_setitem_ne by (intros ->; tauto). reflexivity.
    + intros c Hc. simpl in Hc. rewrite Hout by tauto.
      apply column_setitem_ne. intros ->. tauto.
    + intros Hsub. simpl in Hsub. rewrite Hcols.
      * apply columns_setitem. auto.
      * intros c Hc. rewrite columns_setitem by auto. auto.
Qed.

Lemma fold_left_colwise_id (g : list value -> list value) cs : forall df,
  (forall c, In c cs -> In c (columns df) /\ g (column c df) = column c df) ->
  fold_left (fun d c => setitem c (g (column c d)) d) cs df = df.
Proof.
  induction cs as [|k cs IH]; intros df Hg; simpl; [reflexivity |].
  destruct (Hg k (or_introl eq_refl)) as [Hk Hv].
  rewrite Hv, setitem_id by exact Hk. apply IH. intros c Hc. apply Hg. right. exact Hc.
Qed.

Ltac solve_NoDup :=
  repeat (constructor; [simpl; intuition discriminate |]); constructor.

Lemma nth_map_default {A B} (f : A -> B) (l : list A) (a : A) (b : B) (i : nat) :
  f a = b -> nth i (map f l) b = f (nth i l a).
Proof.
  intros E. revert i. induction l as [|x l IH]; intros [|i]; simpl; auto.
Qed.

(** ** ValueImputer *)

Lemma ValueImputer_body_spec self df :
  List.NoDup (ValueImputer.feat_with_999_val self) ->
  let df' := ValueImputer.body self df in
  index df' = index df
  /\ (forall c, In c (ValueImputer.feat_with_999_val self) ->
                column c df' = replace (-999) (VNum 0) (column c df))
  /\ (forall c, ~ In c (ValueImputer.feat_with_999_val self) -> column c df' = column c df)
  /\ ((forall c, In c (ValueImputer.feat_with_999_val self) -> In c (columns df)) ->
      columns df' = columns df).
Proof.
  intros Hnd. apply (fold_left_colwise (replace (-999) (VNum 0))). exact Hnd.
Qed.

Lemma cell_replace a b l i :
  nth i (replace a b l) VNaN
  = if value_eqb (nth i l VNaN) (VNum a) then b else nth i l VNaN.
Proof.
  unfold replace.
  apply (nth_map_default (fun x => if value_eqb x (VNum a) then b else x)). reflexivity.
Qed.

(** C7.  On a frame holding the four declared columns, the sentinel replacer
    turns every cell of those columns whose value is exactly -999 into 0,
    leaves every other cell of them (for instance -998.999) as it is, and
    leaves every other column, the column labels and the index unchanged. *)
Theorem sentinel_replacer_maps_minus_999_to_zero (s : store) (df : ref) (d : DataFrame) :
  heap s !! df = Some d ->
  issubset (ValueImputer.feat_with_999_val ValueImputer.init) (columns d) = true ->
  let fs := ValueImputer.feat_with_999_val ValueImputer.init in
  exists d',
    ValueImputer.transform ValueImputer.init df s = Ok (df, written s df d')
    /\ index d' = index d
    /\ columns d' = columns d
    /\ (forall c i (q : Q), In c fs -> cell d c i = VNum q -> q == -999 -> cell d' c i = VNum 0)
    /\ (forall c i, In c fs -> (forall q : Q, cell d c i = VNum q -> ~ q == -999) ->
                    cell d' c i = cell d c i)
    /\ (forall c i, In c fs -> cell d c i = VNum (-998999 # 1000) ->
                    cell d' c i = VNum (-998999 # 1000))
    /\ (forall c, ~ In c fs -> column c d' = column c d).
Proof.
  intros Hd Hg fs. exists (ValueImputer.body ValueImputer.init d).
  assert (Hnd : List.NoDup fs) by (unfold fs; simpl; solve_NoDup).
  destruct (ValueImputer_body_spec ValueImputer.init d Hnd) as (Hi & Hin & Hout & Hcols).
  assert (Hcell : forall c i, In c fs ->
            cell (ValueImputer.body ValueImputer.init d) c i
            = if value_eqb (cell d c i) (VNum (-999)) then VNum 0 else cell d c i).
  { intros c i Hc. unfold cell. rewrite Hin by exact Hc. apply cell_replace. }
  split; [apply (ValueImputer_run s df d Hd _ Hg) |].
  split; [exact Hi |].
  split; [apply Hcols; apply issubset_true_iff; exact Hg |].
  split; [|split; [|split]].
  - intros c i q Hc Hq Heq. rewrite Hcell by exact Hc. rewrite Hq. simpl.
    apply Qeq_bool_iff in Heq. rewrite Heq. reflexivity.
  - intros c i Hc Hne. rewrite Hcell by exact Hc.
    destruct (cell d c i) as [[q|b]| |] eqn:E; simpl; try reflexivity.
    destruct (Qeq_bool q (-999)) eqn:Eq; [|reflexivity].
    apply Qeq_bool_iff in Eq. exfalso. exact (Hne q eq_refl Eq).
  - intros c i Hc Hq. rewrite Hcell by exact Hc. rewrite Hq. reflexivity.
  - exact Hout.
Qed.

(** ** float64 arithmetic *)

Lemma fl_Proper x y : x == y -> fl x = fl y.
Proof. intros E. unfold fl. rewrite (Qred_complete x y E). reflexivity. Qed.

Lemma Qopp_opp_eq (x : Q) : - - x = x.
Proof. destruct x as [n d]. unfold Qopp. simpl. rewrite Z.opp_involutive. reflexivity. Qed.

Lemma fl_opp x : fl (- x) = number_opp (fl x).
Proof.
  unfold fl. rewrite Qred_opp. cbv zeta.
  destruct (Qred x) as [n d]. destruct n as [|p|p].
  - reflexivity.
  - change (Qnum (- (Z.pos p # d))) with (Z.neg p). change (Qnum (Z.pos p # d)) with (Z.pos p).
    cbv iota. rewrite Qopp_opp_eq. destruct (round_pos (Z.pos p # d)); reflexivity.
  - change (Qnum (- (Z.neg p # d))) with (Z.pos p). change (Qnum (Z.neg p # d)) with (Z.neg p).
    cbv iota. destruct (round_pos (- (Z.neg p # d))) as [y|]; simpl; [rewrite Qopp_opp_eq|]; reflexivity.
Qed.

Lemma fl_zero x : x == 0 -> fl x = Fin 0.
Proof. intros E. rewrite (fl_Proper x 0 E). reflexivity. Qed.













Lemma Qlt_bool_false_iff x y : Qlt_bool x y = false <-> y <= x.
Proof.
  unfold Qlt_bool. rewrite negb_false_iff. apply Qle_bool_iff.
Qed.

Lemma number_leb_Fin x y : number_leb (Fin x) (Fin y) = true <-> x <= y.
Proof.
  unfold number_leb. simpl. rewrite negb_true_iff. apply Qlt_bool_false_iff.
Qed.

Lemma number_leb_refl a : number_leb a a = true.
Proof.
  destruct a as [x|[]]; try reflexivity. apply number_leb_Fin, Qle_refl.
Qed.

Lemma number_leb_trans a b c :
  number_leb a b = true -> number_leb b c = true -> number_leb a c = true.
Proof.
  destruct a as [x|[]], b as [y|[]], c as [z|[]]; try reflexivity; try discriminate.
  rewrite !number_leb_Fin. apply Qle_trans.
Qed.

Lemma number_leb_total a b : number_leb a b = true \/ number_leb b a = true.
Proof.
  destruct a as [x|[]], b as [y|[]]; auto.
  rewrite !number_leb_Fin. destruct (Qlt_le_dec y x) as [Hlt|Hle]; [right | left]; lra.
Qed.

Lemma number_leb_antisym a b :
  number_leb a b = true -> number_leb b a = true -> number_eqb a b = true.
Proof.
  destruct a as [x|[]], b as [y|[]]; try reflexivity; try discriminate.
  rewrite !number_leb_Fin. intros H1 H2. apply Qeq_bool_iff. lra.
Qed.

Lemma number_eqb_refl a : number_eqb a a = true.
Proof. destruct a as [x|[]]; try reflexivity. apply Qeq_bool_iff, Qeq_refl. Qed.

Lemma number_eqb_sym a b : number_eqb a b = number_eqb b a.
Proof.
  destruct a as [x|[]], b as [y|[]]; try reflexivity. simpl.
  destruct (Qeq_bool x y) eqn:E1, (Qeq_bool y x) eqn:E2; try reflexivity.
  - apply Qeq_bool_iff, Qeq_sym, Qeq_bool_iff in E1. congruence.
  - apply Qeq_bool_iff, Qeq_sym, Qeq_bool_iff in E2. congruence.
Qed.

Lemma number_eqb_trans a b c :
  number_eqb a b = true -> number_eqb b c = true -> number_eqb a c = true.
Proof.
  destruct a as [x|[]], b as [y|[]], c as [z|[]]; try reflexivity; try discriminate.
  simpl. intros E1 E2. apply Qeq_bool_iff in E1, E2. apply Qeq_bool_iff.
  eapply Qeq_trans; eauto.
Qed.

(** ** MinMaxWithFeatNames *)

Lemma fold_min_spec (a : list number) : forall m,
  let r := fold_left (fun m y => if number_leb y m then y else m) a m in
  number_leb r m = true /\ forall y, In y a -> number_leb r y = true.
Proof.
  induction a as [|x a IH]; intros m; simpl.
  - split; [apply number_leb_refl | intros y []].
  - destruct (IH (if number_leb x m then x else m)) as [Hm Ha].
    destruct (number_leb x m) eqn:E.
    + split; [eapply number_leb_trans; eauto |].
      intros y [<-|Hy]; auto.
    + assert (number_leb m x = true).
      { destruct (number_leb_total m x) as [H|H]; [exact H | congruence]. }
      split; [exact Hm |]. intros y [<-|Hy]; [eapply number_leb_trans; eauto | auto].
Qed.

Lemma fold_max_spec (a : list number) : forall m,
  let r := fold_left (fun m y => if number_leb m y then y else m) a m in
  number_leb m r = true /\ forall y, In y a -> number_leb y r = true.
Proof.
  induction a as [|x a IH]; intros m; simpl.
  - split; [apply number_leb_refl | intros y []].
  - destruct (IH (if number_leb m x then x else m)) as [Hm Ha].
    destruct (number_leb m x) eqn:E.
    + split; [eapply number_leb_trans; eauto |].
      intros y [<-|Hy]; auto.
    + assert (number_leb x m = true).
      { destruct (number_leb_total x m) as [H|H]; [exact H | congruence]. }
      split; [exact Hm |]. intros y [<-|Hy]; [eapply number_leb_trans; eauto | auto].
Qed.

Lemma fmin_list_le a lo x : fmin_list a = Some lo -> In x a -> number_leb lo x = true.
Proof.
  destruct a as [|x0 a]; simpl; [discriminate |]. intros [= <-].
  destruct (fold_min_spec a x0) as [Hm Ha]. intros [<-|Hx]; auto.
Qed.

Lemma fmax_list_ge a hi x : fmax_list a = Some hi -> In x a -> number_leb x hi = true.
Proof.
  destruct a as [|x0 a]; simpl; [discriminate |]. intros [= <-].
  destruct (fold_max_spec a x0) as [Hm Ha]. intros [<-|Hx]; auto.
Qed.

Lemma In_numbers x l : In (VNum x) l -> In x (numbers l).
Proof.
  induction l as [|[q|t|] l IH]; simpl; [intros [] | | |].
  - intros [[= ->]|Hx]; auto.
  - intros [[=]|Hx]; auto.
  - intros [[=]|Hx]; auto.
Qed.


Lemma cell_In df c i v : cell df c i = v -> v <> VNaN -> In v (column c df).
Proof.
  unfold cell. intros E Hv.
  destruct (Nat.lt_ge_cases i (length (column c df))) as [Hlt|Hge].
  - rewrite <- E. apply nth_In, Hlt.
  - rewrite nth_overflow in E by exact Hge. congruence.
Qed.

Lemma is_finite_numeric v : is_finite v = true -> is_numeric v = true.
Proof. destruct v as [[q|b]|t|]; simpl; congruence. Qed.

Lemma forallb_impl {A} (p q : A -> bool) (l : list A) :
  (forall x, p x = true -> q x = true) -> forallb p l = true -> forallb q l = true.
Proof.
  intros Hpq. rewrite !forallb_forall. intros Hp x Hx. apply Hpq, Hp, Hx.
Qed.

Lemma finite_column_numeric c df : finite_column c df -> numeric_column c df.
Proof. apply forallb_impl, is_finite_numeric. Qed.

Section Scaler.
Context `{NumPy}.

Lemma as_float_finite l : forallb is_finite l = true -> rmap MinMaxScaler.as_float l = Ok l.
Proof.
  induction l as [|x l IH]; simpl; intros Hl; [reflexivity |].
  apply andb_true_iff in Hl. destruct Hl as [Hx Hl]. rewrite (IH Hl).
  destruct x as [[q|b]|t|]; try discriminate; reflexivity.
Qed.

Lemma no_infinity l : forallb is_finite l = true -> existsb is_inf l = false.
Proof.
  induction l as [|x l IH]; simpl; intros Hl; [reflexivity |].
  apply andb_true_iff in Hl. destruct Hl as [Hx Hl]. rewrite (IH Hl).
  destruct x as [[q|b]|t|]; try discriminate; reflexivity.
Qed.

Lemma MinMaxScaler_fit_transform_finite l :
  forallb is_finite l = true ->
  MinMaxScaler.fit_transform l
  = Ok (match fmin_list (numbers l), fmax_list (numbers l) with
        | Some lo, Some hi => map (MinMaxScaler.scale_cell lo hi) l
        | _, _ => l
        end).
Proof.
  intros Hn. unfold MinMaxScaler.fit_transform.
  rewrite as_float_finite by exact Hn. cbn [rbind]. rewrite no_infinity by exact Hn.
  destruct (fmin_list (numbers l)), (fmax_list (numbers l)); reflexivity.
Qed.

(** A range that overflows gives the scale 0: every number becomes 0. *)
Lemma scaled_value_overflow (lo hi x : Q) :
  fsub (Some (Fin hi)) (Some (Fin lo)) = Some (Inf false) ->
  MinMaxScaler.scale_cell lo hi (VNum x) = VNum 0.
Proof.
  intros Hr.
  assert (Hscale : MinMaxScaler.scale_ lo hi = Some (Fin 0)).
  { unfold MinMaxScaler.scale_, MinMaxScaler.handle_zeros_in_scale. rewrite Hr. reflexivity. }
  unfold MinMaxScaler.scale_cell, MinMaxScaler.min_. rewrite Hscale.
  cbn [fmul]. rewrite (fl_zero (x * 0)) by ring. rewrite (fl_zero (lo * 0)) by ring.
  reflexivity.
Qed.

(** C5 (amended).  On a non-empty frame whose seven declared columns hold
    finite numbers and missing cells, the range normalizer replaces, in
    place, every number [x] of those columns by the float64 value of
    [x * scale + offset], where [scale = 1 / (max - min)] (1 when
    [max - min] is below ten machine epsilons) and [offset = 0 - min * scale],
    each operation rounded, [min] and [max] being those of the column in the
    input.  The result is not clipped; when [max - min] overflows it is 0.
    Missing cells stay missing; the other columns, the column labels and the
    index (hence the row order) are unchanged. *)
Theorem range_normalizer_rounds_and_does_not_clip
    (s : store) (df : ref) (d : DataFrame) :
  heap s !! df = Some d ->
  nrows d <> 0%nat ->
  issubset (MinMaxWithFeatNames.min_max_scaler_ft MinMaxWithFeatNames.init) (columns d) = true ->
  (forall c, In c (MinMaxWithFeatNames.min_max_scaler_ft MinMaxWithFeatNames.init) ->
             finite_column c d) ->
  let fs := MinMaxWithFeatNames.min_max_scaler_ft MinMaxWithFeatNames.init in
  exists d',
    MinMaxWithFeatNames.transform MinMaxWithFeatNames.init df s = Ok (df, written s df d')
    /\ index d' = index d
    /\ columns d' = columns d
    /\ (forall c i x lo hi,
          In c fs -> data_min d c = Some lo -> data_max d c = Some hi ->
          cell d c i = VNum x ->
          let range := fsub (Some hi) (Some lo) in
          let scale :=
            fdiv (Some (Fin 1))
                 (match range with
                  | Some r => if number_ltb r (Fin (10 * 2 ^ (-52))) then Some (Fin 1) else range
                  | None => None
                  end) in
          let offset := fsub (Some (Fin 0)) (fmul (Some lo) scale) in
          cell d' c i = of_fnum (fadd (fmul (Some x) scale) offset))
    /\ (forall c i (x lo hi : Q),
          In c fs -> data_min d c = Some (Fin lo) -> data_max d c = Some (Fin hi) ->
          cell d c i = VNum x ->
          fsub (Some (Fin hi)) (Some (Fin lo)) = Some (Inf false) ->
          cell d' c i = VNum 0)
    /\ (forall c i, In c fs -> cell d c i = VNaN -> cell d' c i = VNaN)
    /\ (forall c, ~ In c fs -> column c d' = column c d).
Proof.
  intros Hd Hrows Hg Hcols fs.
  assert (Hnd : List.NoDup fs) by (unfold fs; simpl; solve_NoDup).
  assert (Hsub : forall c, In c fs -> In c (columns d)) by (apply issubset_true_iff, Hg).
  set (h := fun c => unwrap (MinMaxScaler.fit_transform (column c d))).
  destruct (setitems_tagged h fs d Hnd) as (Hi & Hin & Hout & Hnames & _).
  exists (setitems (map (fun c => (c, h c)) fs) d).
  assert (Hh : forall c lo hi, In c fs -> data_min d c = Some lo -> data_max d c = Some hi ->
                 h c = map (MinMaxScaler.scale_cell lo hi) (column c d)).
  { intros c lo hi Hc Hlo Hhi. unfold h.
    rewrite MinMaxScaler_fit_transform_finite by (apply Hcols, Hc).
    unfold data_min, data_max in Hlo, Hhi. rewrite Hlo, Hhi. reflexivity. }
  assert (Hcell : forall c i lo hi, In c fs -> data_min d c = Some lo -> data_max d c = Some hi ->
                    cell (setitems (map (fun c => (c, h c)) fs) d) c i
                    = MinMaxScaler.scale_cell lo hi (cell d c i)).
  { intros c i lo hi Hc Hlo Hhi. unfold cell. rewrite Hin by exact Hc.
    rewrite (Hh c lo hi Hc Hlo Hhi).
    apply (nth_map_default (MinMaxScaler.scale_cell lo hi) _ VNaN). reflexivity. }
  split; [|split; [exact Hi | split; [exact (Hnames Hsub) |
                                      split; [|split; [|split; [|exact Hout]]]]]].
  - rewrite (MinMaxWithFeatNames_run s df d Hd _ Hg).
    unfold MinMaxWithFeatNames.body. apply Nat.eqb_neq in Hrows. rewrite Hrows.
    rewrite (rmap_tagged MinMaxScaler.fit_transform).
    + reflexivity.
    + intros c Hc. rewrite MinMaxScaler_fit_transform_finite by (apply Hcols, Hc). eauto.
  - intros c i x lo hi Hc Hlo Hhi Hx. cbv zeta.
    rewrite (Hcell c i lo hi Hc Hlo Hhi), Hx. reflexivity.
  - intros c i x lo hi Hc Hlo Hhi Hx Hover.
    rewrite (Hcell c i lo hi Hc Hlo Hhi), Hx. apply scaled_value_overflow, Hover.
  - intros c i Hc Hx. unfold cell. rewrite Hin by exact Hc. unfold h.
    rewrite MinMaxScaler_fit_transform_finite by (apply Hcols, Hc).
    destruct (fmin_list (numbers (column c d))) as [lo|], (fmax_list (numbers (column c d))) as [hi|];
      simpl; try exact Hx.
    rewrite (nth_map_default (MinMaxScaler.scale_cell lo hi) _ VNaN) by reflexivity.
    unfold cell in Hx. rewrite Hx. reflexivity.
Qed.

End Scaler.

(** The range normalizer does not keep within [0, 1]: the training sample
    holds the seven columns, each with a maximum above its minimum, and the
    income 2600 of row 1, the maximum of its column, becomes
    1.0000000000000004 = 1 + 2^-51. *)
Lemma range_normalizer_exceeds_one_on_the_sample :
  issubset (MinMaxWithFeatNames.min_max_scaler_ft MinMaxWithFeatNames.init)
           (columns sample_train) = true
  /\ forallb (fun c => match data_min sample_train c, data_max sample_train c with
                       | Some lo, Some hi => number_ltb lo hi
                       | _, _ => false
                       end)
             (MinMaxWithFeatNames.min_max_scaler_ft MinMaxWithFeatNames.init) = true
  /\ exists d',
       @MinMaxWithFeatNames.transform example_numpy MinMaxWithFeatNames.init 0%nat sample_store
       = Ok (0%nat, written sample_store 0%nat d')
       /\ cell sample_train "Income (USD)" 1 = VNum 2600
       /\ data_min sample_train "Income (USD)" = Some (Fin 2000)
       /\ data_max sample_train "Income (USD)" = Some (Fin 2600)
       /\ cell d' "Income (USD)" 1 = VNum (1 + 2 ^ (-51))
       /\ 1 < 1 + 2 ^ (-51).
Proof.
  split; [vm_compute; reflexivity |]. split; [vm_compute; reflexivity |].
  eexists. split; [vm_compute; reflexivity |].
  split; [reflexivity |]. split; [reflexivity |]. split; [reflexivity |].
  split; [vm_compute; reflexivity | reflexivity].
Qed.

(** ** OneHotWithFeatNames *)

Lemma same_key_refl v : same_key v v = true.
Proof.
  destruct v as [q|t|]; simpl; [apply number_eqb_refl | apply String.eqb_refl | reflexivity].
Qed.

Lemma same_key_sym a b : same_key a b = same_key b a.
Proof.
  destruct a as [x|t|], b as [y|u|]; simpl; try reflexivity.
  - apply number_eqb_sym.
  - apply String.eqb_sym.
Qed.

Lemma same_key_trans a b c : same_key a b = true -> same_key b c = true -> same_key a c = true.
Proof.
  destruct a as [x|t|], b as [y|u|], c as [z|w|]; simpl; try discriminate; auto.
  - apply number_eqb_trans.
  - intros E1 E2. apply String.eqb_eq in E1, E2. subst. apply String.eqb_refl.
Qed.

Lemma count_key_filter_none v (q : value -> bool) l :
  (forall y, same_key v y = true -> q y = false) -> count_key v (List.filter q l) = 0%nat.
Proof.
  intros Hq. unfold count_key. induction l as [|x l IH]; simpl; [reflexivity |].
  destruct (q x) eqn:E; [|exact IH]. simpl.
  destruct (same_key v x) eqn:Ev; [rewrite Hq in E by exact Ev; discriminate | exact IH].
Qed.

Lemma count_key_filter_all v (q : value -> bool) l :
  (forall y, same_key v y = true -> q y = true) ->
  count_key v (List.filter q l) = count_key v l.
Proof.
  intros Hq. unfold count_key. induction l as [|x l IH]; simpl; [reflexivity |].
  destruct (same_key v x) eqn:Ev.
  - rewrite Hq by exact Ev. simpl. rewrite Ev. simpl. rewrite IH. reflexivity.
  - destruct (q x); simpl; [rewrite Ev |]; exact IH.
Qed.

Lemma In_unique_keys x l : In x (unique_keys l) -> In x l.
Proof.
  revert x. induction l as [|y l IH]; simpl; intros x; [auto |].
  intros [<-|Hx]; [auto |]. apply filter_In in Hx. right. apply IH, Hx.
Qed.

Lemma count_key_unique_keys v l : In v l -> count_key v (unique_keys l) = 1%nat.
Proof.
  induction l as [|x l IH]; simpl; [intros [] |]. intros Hv.
  change (count_key v (x :: List.filter (fun y => negb (same_key x y)) (unique_keys l)))
    with (length (if same_key v x
                  then x :: List.filter (same_key v)
                              (List.filter (fun y => negb (same_key x y)) (unique_keys l))
                  else List.filter (same_key v)
                         (List.filter (fun y => negb (same_key x y)) (unique_keys l)))).
  destruct (same_key v x) eqn:E; simpl.
  - f_equal. apply (count_key_filter_none v). intros y Hy.
    rewrite (same_key_trans x v y); [reflexivity | rewrite same_key_sym; exact E | exact Hy].
  - destruct Hv as [<-|Hv]; [rewrite same_key_refl in E; discriminate |].
    rewrite <- (IH Hv). apply (count_key_filter_all v). intros y Hy.
    destruct (same_key x y) eqn:Exy; [|reflexivity].
    rewrite (same_key_trans v y x) in E; [discriminate | exact Hy | rewrite same_key_sym; exact Exy].
Qed.

Lemma length_filter_insert_by {A} (leb : A -> A -> bool) (p : A -> bool) x l :
  length (List.filter p (insert_by leb x l)) = length (List.filter p (x :: l)).
Proof.
  induction l as [|y l IH]; simpl; [reflexivity |].
  destruct (leb x y); simpl; [reflexivity |].
  simpl in IH. destruct (p y), (p x); simpl in *; lia.
Qed.

Lemma length_filter_sort_by {A} (leb : A -> A -> bool) (p : A -> bool) l :
  length (List.filter p (sort_by leb l)) = length (List.filter p l).
Proof.
  induction l as [|x l IH]; simpl; [reflexivity |].
  rewrite length_filter_insert_by. simpl. destruct (p x); simpl; rewrite IH; reflexivity.
Qed.

Lemma length_sort_by {A} (leb : A -> A -> bool) (l : list A) :
  length (sort_by leb l) = length l.
Proof.
  rewrite <- (filter_true (sort_by leb l)) at 1.
  rewrite <- (filter_true l) at 2. apply length_filter_sort_by.
Qed.

Lemma In_insert_by {A} (leb : A -> A -> bool) x y l :
  In y (insert_by leb x l) <-> y = x \/ In y l.
Proof.
  induction l as [|z l IH]; simpl; [intuition |].
  destruct (leb x z); simpl; [intuition | rewrite IH; intuition].
Qed.

Lemma In_sort_by {A} (leb : A -> A -> bool) y l : In y (sort_by leb l) <-> In y l.
Proof.
  induction l as [|x l IH]; simpl; [tauto |].
  rewrite In_insert_by, IH. intuition.
Qed.

Lemma length_filter_split {A} (p q : A -> bool) l :
  (length (List.filter p (List.filter (fun x => negb (q x)) l))
   + length (List.filter p (List.filter q l)))%nat
  = length (List.filter p l).
Proof.
  induction l as [|x l IH]; simpl; [reflexivity |].
  destruct (q x), (p x) eqn:E; simpl; rewrite ?E; simpl; lia.
Qed.

Lemma count_key_vocabulary v l : count_key v (vocabulary l) = count_key v (unique_keys l).
Proof.
  unfold vocabulary, count_key. rewrite List.filter_app, length_app, length_filter_sort_by.
  apply (length_filter_split (same_key v) isna).
Qed.

Lemma length_vocabulary l : length (vocabulary l) = length (unique_keys l).
Proof.
  unfold vocabulary. rewrite length_app, length_sort_by.
  rewrite <- (filter_true (List.filter (fun v => negb (isna v)) (unique_keys l))).
  rewrite <- (filter_true (List.filter isna (unique_keys l))).
  rewrite (length_filter_split (fun _ => true) isna). rewrite filter_true. reflexivity.
Qed.

Lemma In_vocabulary x l : In x (vocabulary l) -> In x l.
Proof.
  unfold vocabulary. rewrite in_app_iff, In_sort_by, !filter_In.
  intros [[Hx _]|[Hx _]]; apply In_unique_keys, Hx.
Qed.

Lemma categories_categorical l :
  forallb is_categorical l = true -> categories l = Ok (vocabulary l).
Proof.
  intros Hc. unfold categories.
  assert (E : existsb (fun v => negb (is_categorical v)) l = false).
  { apply not_true_is_false. intros Hex. apply existsb_exists in Hex.
    destruct Hex as (x & Hx & Hn). rewrite forallb_forall in Hc.
    rewrite (Hc x Hx) in Hn. discriminate. }
  rewrite E, andb_false_r. reflexivity.
Qed.

Lemma ones_at_expand `{NumPy} df c cats i :
  (i < length (column c df))%nat ->
  ones_at i (OneHotWithFeatNames.expand df c cats) = count_key (cell df c i) cats.
Proof.
  intros Hi. unfold ones_at, OneHotWithFeatNames.expand, count_key.
  induction cats as [|cat cats IH]; simpl; [reflexivity |].
  unfold OneHotWithFeatNames.indicator at 1.
  rewrite (nth_indep _ VNaN (VNum (if same_key (cell df c i) cat then 1 else 0)))
    by (rewrite length_map; exact Hi).
  rewrite (map_nth (fun v => VNum (if same_key v cat then 1 else 0))).
  fold (cell df c i).
  rewrite (nth_indep _ (cell df c i) VNaN) by exact Hi. fold (cell df c i).
  destruct (same_key (cell df c i) cat); simpl; rewrite IH; reflexivity.
Qed.

Lemma flat_map_tagged {B C} (f : string -> B) (g : string * B -> list C) cs :
  flat_map g (map (fun c => (c, f c)) cs) = flat_map (fun c => g (c, f c)) cs.
Proof. induction cs as [|c cs IH]; simpl; [reflexivity | rewrite IH; reflexivity]. Qed.

Lemma OneHotWithFeatNames_body_categorical `{NumPy} self df :
  nrows df <> 0%nat ->
  (forall c, In c (OneHotWithFeatNames.one_hot_enc_ft self) -> categorical_column c df) ->
  OneHotWithFeatNames.body self df
  = Ok {| index := index df;
          cols := flat_map (fun c => OneHotWithFeatNames.expand df c (vocabulary (column c df)))
                           (OneHotWithFeatNames.one_hot_enc_ft self)
                  ++ List.filter (fun kv => negb (mem (fst kv) (OneHotWithFeatNames.one_hot_enc_ft self)))
                                 (cols df) |}.
Proof.
  intros Hrows Hcat. unfold OneHotWithFeatNames.body, OneHotWithFeatNames.one_hot_enc.
  apply Nat.eqb_neq in Hrows. rewrite Hrows.
  rewrite (rmap_ok _ (fun c => (c, vocabulary (column c df)))).
  - simpl. unfold OneHotWithFeatNames.concat_with_rest. simpl.
    rewrite (flat_map_tagged (fun c => vocabulary (column c df))). reflexivity.
  - intros c Hc. rewrite categories_categorical by (apply Hcat, Hc). reflexivity.
Qed.

(** C6.  On a non-empty frame whose eight declared columns are categorical,
    the encoder returns a new frame with the same index whose columns are,
    for each declared column in turn, one indicator column per category
    observed in that column, named "<column>_<category>", followed by the
    untouched columns.  Every indicator cell is 0 or 1; in every row exactly
    one indicator of each declared column's group is 1; the group has as many
    columns as the column has distinct categories. *)
Theorem one_hot_encoder_expands_each_column_into_indicators `{NumPy}
    (s : store) (df : ref) (d : DataFrame) :
  heap s !! df = Some d ->
  nrows d <> 0%nat ->
  issubset (OneHotWithFeatNames.one_hot_enc_ft OneHotWithFeatNames.init) (columns d) = true ->
  (forall c, In c (OneHotWithFeatNames.one_hot_enc_ft OneHotWithFeatNames.init) ->
             categorical_column c d) ->
  let fs := OneHotWithFeatNames.one_hot_enc_ft OneHotWithFeatNames.init in
  let group c :=
    map (fun cat => (String.append c (String.append "_" (str_value cat)),
                     map (fun v => VNum (if same_key v cat then 1 else 0)) (column c d)))
        (vocabulary (column c d)) in
  exists d',
    OneHotWithFeatNames.transform OneHotWithFeatNames.init df s
    = Ok (length (heap s), allocated s d')
    /\ index d' = index d
    /\ cols d' = flat_map group fs
                 ++ List.filter (fun kv => negb (mem (fst kv) fs)) (cols d)
    /\ forall c, In c fs ->
         (forall cat, In cat (vocabulary (column c d)) -> In cat (column c d))
         /\ (forall v, In v (column c d) -> count_key v (vocabulary (column c d)) = 1%nat)
         /\ length (group c) = length (unique_keys (column c d))
         /\ (forall k w x, In (k, w) (group c) -> In x w -> x = VNum 0 \/ x = VNum 1)
         /\ (forall i, (i < length (column c d))%nat -> ones_at i (group c) = 1%nat).
Proof.
  intros Hd Hrows Hg Hcat fs group.
  eexists. split; [|split; [|split]].
  - rewrite (OneHotWithFeatNames_run s df d Hd _ Hg).
    rewrite OneHotWithFeatNames_body_categorical by assumption. reflexivity.
  - reflexivity.
  - reflexivity.
  - intros c Hc. split; [|split; [|split; [|split]]].
    + intros cat. apply In_vocabulary.
    + intros v Hv. rewrite count_key_vocabulary. apply count_key_unique_keys, Hv.
    + unfold group. rewrite length_map. apply length_vocabulary.
    + intros k w x Hkw Hx. unfold group in Hkw. apply in_map_iff in Hkw.
      destruct Hkw as (cat & [= <- <-] & _). apply in_map_iff in Hx.
      destruct Hx as (v & <- & _). destruct (same_key v cat); auto.
    + intros i Hi.
      change (group c) with (OneHotWithFeatNames.expand d c (vocabulary (column c d))).
      rewrite ones_at_expand by exact Hi. rewrite count_key_vocabulary.
      apply count_key_unique_keys. unfold cell. apply nth_In, Hi.
Qed.

(** ** MissingValueImputer *)

Lemma rfold_ext {A B} (f g : B -> A -> result B) l : forall b,
  (forall b x, f b x = g b x) -> rfold f l b = rfold g l b.
Proof.
  induction l as [|x l IH]; intros b E; simpl; [reflexivity |].
  rewrite E. destruct (g b x); simpl; auto.
Qed.

Lemma impute_mode_colwise df ft :
  MissingValueImputer.impute_mode df ft = colwise mode_fill df ft.
Proof.
  unfold MissingValueImputer.impute_mode, colwise, mode_fill.
  destruct (mode (column ft df)); reflexivity.
Qed.

Lemma impute_median_colwise df ft :
  MissingValueImputer.impute_median df ft = colwise median_fill df ft.
Proof.
  unfold MissingValueImputer.impute_median, colwise, median_fill.
  destruct (median (column ft df)); reflexivity.
Qed.

Lemma max_attained {A} (f : A -> nat) (l : list A) :
  l <> [] -> exists x, In x l /\ f x = fold_right Nat.max 0%nat (map f l).
Proof.
  induction l as [|x l IH]; [congruence |]. intros _. simpl.
  destruct l as [|y l].
  - exists x. simpl. split; [auto | lia].
  - destruct IH as (z & Hz & Ez); [discriminate |].
    destruct (Nat.max_spec (f x) (fold_right Nat.max 0%nat (map f (y :: l)))) as [[_ E]|[_ E]].
    + exists z. split; [right; exact Hz | rewrite E; exact Ez].
    + exists x. split; [left; reflexivity | rewrite E; reflexivity].
Qed.

(** A column with at least one value has a mode, and the mode is one of the
    column's values. *)
Lemma mode_nonempty l v :
  In v l -> isna v = false -> exists m rest, mode l = m :: rest.
Proof.
  intros Hv Hna. unfold mode.
  set (xs := List.filter (fun v => negb (isna v)) l).
  assert (Hxs : xs <> []).
  { intros E. assert (Hin : In v xs) by (apply filter_In; rewrite Hna; auto).
    rewrite E in Hin. exact Hin. }
  destruct (max_attained (fun v => count_key v xs) xs Hxs) as (x & Hx & Ex).
  set (best := fold_right Nat.max 0%nat (map (fun v => count_key v xs) xs)) in *.
  set (modes := List.filter (fun v => Nat.eqb (count_key v xs) best) xs).
  assert (Hin : In x modes) by (apply filter_In; split; [exact Hx | apply Nat.eqb_eq, Ex]).
  assert (Hlen : length (sort_by value_leb (unique_keys modes)) <> 0%nat).
  { rewrite length_sort_by. destruct modes; [destruct Hin | simpl; lia]. }
  destruct (sort_by value_leb (unique_keys modes)) as [|m rest]; [simpl in Hlen; lia | eauto].
Qed.

Lemma mode_In l m rest : mode l = m :: rest -> In m l /\ isna m = false.
Proof.
  unfold mode. intros E.
  assert (Hm : In m (m :: rest)) by (left; reflexivity).
  rewrite <- E in Hm. apply In_sort_by, In_unique_keys, filter_In in Hm. destruct Hm as [Hm _].
  apply filter_In in Hm. destruct Hm as [Hm Hna].
  split; [exact Hm | destruct (isna m); [discriminate | reflexivity]].
Qed.

Lemma mask_select_In {A} (keep : list bool) (l : list A) i x :
  nth_error keep i = Some true -> nth_error l i = Some x -> In x (mask_select keep l).
Proof.
  revert l i. induction keep as [|b keep IH]; intros [|y l] [|i]; simpl; try discriminate.
  - intros [= ->] [= ->]. left. reflexivity.
  - intros Hk Hl. destruct b; [right |]; eapply IH; eauto.
Qed.

Lemma In_mask_select {A} (keep : list bool) (l : list A) x :
  In x (mask_select keep l) -> In x l.
Proof.
  revert l. induction keep as [|b keep IH]; intros [|y l]; simpl; try tauto.
  destruct b; simpl; [intros [->|Hx]; auto | auto].
Qed.

Lemma forallb_mask_select {A} (p : A -> bool) keep l :
  forallb p l = true -> forallb p (mask_select keep l) = true.
Proof.
  rewrite !forallb_forall. intros Hp x Hx. apply Hp. eapply In_mask_select, Hx.
Qed.

Lemma nth_error_row_mask df p i :
  (i < nrows df)%nat -> nth_error (row_mask df p) i = Some (p i).
Proof.
  intros Hi. unfold row_mask. rewrite nth_error_map, nth_error_seq.
  destruct (Nat.ltb_spec i (nrows df)); [reflexivity | lia].
Qed.

Lemma cell_nth_error df c i v :
  cell df c i = v -> isna v = false -> nth_error (column c df) i = Some v.
Proof.
  unfold cell. intros E Hv.
  destruct (Nat.lt_ge_cases i (length (column c df))) as [Hlt|Hge].
  - rewrite (nth_error_nth' _ VNaN Hlt). rewrite E. reflexivity.
  - rewrite nth_overflow in E by exact Hge. subst v. discriminate.
Qed.

Lemma forallb_fillna (p : value -> bool) v l :
  p v = true -> forallb p l = true -> forallb p (fillna v l) = true.
Proof.
  intros Hv. unfold fillna. rewrite !forallb_forall. intros Hp x Hx.
  apply in_map_iff in Hx. destruct Hx as (y & <- & Hy).
  destruct (isna y); [exact Hv | apply Hp, Hy].
Qed.

Lemma median_fill_numeric l :
  forallb is_numeric l = true ->
  exists v, median_fill l = Ok v /\ forallb is_numeric v = true /\ length v = length l.
Proof.
  intros Hn. unfold median_fill, median. rewrite numeric_values_numbers by exact Hn. simpl.
  eexists. split; [reflexivity |]. split.
  - apply forallb_fillna; [|exact Hn].
    destruct (median_sorted (sort_by number_leb (numbers l))); reflexivity.
  - unfold fillna. apply length_map.
Qed.

Lemma query_cell_target f : query_cell f target = VNum 0.
Proof. reflexivity. Qed.

Lemma query_cell_mode_columns f c :
  In c (MissingValueImputer.mode_imputed_ft MissingValueImputer.init) ->
  isna (query_cell f c) = false.
Proof.
  simpl. intros [<-|[<-|[<-|[<-|[<-|[]]]]]]; reflexivity.
Qed.

Lemma length_mask_select {A B} (keep : list bool) (l1 : list A) (l2 : list B) :
  length l1 = length l2 -> length (mask_select keep l1) = length (mask_select keep l2).
Proof.
  revert l1 l2. induction keep as [|b keep IH]; intros [|x l1] [|y l2]; simpl; try discriminate;
    try reflexivity.
  intros [= E]. destruct b; simpl; rewrite (IH _ _ E); reflexivity.
Qed.

Lemma well_formed_take_rows keep df : well_formed df -> well_formed (take_rows keep df).
Proof.
  unfold well_formed, take_rows, nrows. simpl. intros Hwf.
  apply Forall_map. eapply List.Forall_impl; [|exact Hwf].
  intros [k v] Hv. simpl in *. apply length_mask_select, Hv.
Qed.

Lemma mode_fill_ok l v :
  In v l -> isna v = false ->
  exists m, In m l /\ isna m = false /\ mode_fill l = Ok (fillna m l).
Proof.
  intros Hv Hna. destruct (mode_nonempty l v Hv Hna) as (m & rest & Hm).
  destruct (mode_In l m rest Hm) as [Hin Hmna].
  exists m. unfold mode_fill. rewrite Hm. auto.
Qed.

Lemma mode_fill_inv l w :
  mode_fill l = Ok w -> exists m, In m l /\ isna m = false /\ w = fillna m l.
Proof.
  unfold mode_fill. destruct (mode l) as [|m rest] eqn:Hm; [discriminate |].
  intros [= <-]. destruct (mode_In l m rest Hm). eauto.
Qed.

Lemma mode_fill_length l w : mode_fill l = Ok w -> length w = length l.
Proof.
  intros Hw. apply mode_fill_inv in Hw. destruct Hw as (m & _ & _ & ->).
  unfold fillna. apply length_map.
Qed.

Lemma median_fill_length l w : median_fill l = Ok w -> length w = length l.
Proof.
  unfold median_fill. destruct (median l); simpl; [|discriminate].
  intros [= <-]. unfold fillna. apply length_map.
Qed.

Lemma mode_median_disjoint c :
  In c (MissingValueImputer.median_imputed_ft MissingValueImputer.init) ->
  ~ In c (MissingValueImputer.mode_imputed_ft MissingValueImputer.init).
Proof.
  simpl. intros [<-|[<-|[<-|[<-|[]]]]]; intuition discriminate.
Qed.

(** The imputer on a frame that has the target column, at least one value
    in each mode-imputed column among the rows with a target, and numeric
    median-imputed columns. *)
Lemma MissingValueImputer_body_ok (d : DataFrame) :
  In target (columns d) ->
  (forall c, In c (MissingValueImputer.mode_imputed_ft MissingValueImputer.init
                   ++ MissingValueImputer.median_imputed_ft MissingValueImputer.init) ->
             In c (columns d)) ->
  let d1 := take_rows (has_target d) d in
  (forall c, In c (MissingValueImputer.mode_imputed_ft MissingValueImputer.init) ->
             exists v, In v (column c d1) /\ isna v = false) ->
  (forall c, In c (MissingValueImputer.median_imputed_ft MissingValueImputer.init) ->
             numeric_column c d) ->
  exists d',
    MissingValueImputer.body MissingValueImputer.init d = Ok d'
    /\ index d' = index d1
    /\ columns d' = columns d
    /\ (well_formed d -> well_formed d')
    /\ (forall c, In c (MissingValueImputer.mode_imputed_ft MissingValueImputer.init) ->
          exists m, In m (column c d1) /\ isna m = false /\ column c d' = fillna m (column c d1))
    /\ (forall c, In c (MissingValueImputer.median_imputed_ft MissingValueImputer.init) ->
          exists m, median (column c d1) = Ok m
                    /\ column c d' = fillna (of_fnum m) (column c d1))
    /\ (forall c, ~ In c (MissingValueImputer.mode_imputed_ft MissingValueImputer.init
                          ++ MissingValueImputer.median_imputed_ft MissingValueImputer.init) ->
          column c d' = column c d1).
Proof.
  intros Ht Hsub d1 Hmode Hmed.
  set (modes := MissingValueImputer.mode_imputed_ft MissingValueImputer.init) in *.
  set (medians := MissingValueImputer.median_imputed_ft MissingValueImputer.init) in *.
  assert (Hnd1 : List.NoDup modes) by (unfold modes; simpl; solve_NoDup).
  assert (Hnd2 : List.NoDup medians) by (unfold medians; simpl; solve_NoDup).
  assert (Hcols1 : columns d1 = columns d) by apply columns_take_rows.
  destruct (rfold_colwise_ok mode_fill modes d1 Hnd1) as [d2 Hd2].
  { intros c Hc. destruct (Hmode c Hc) as (v & Hv & Hna).
    destruct (mode_fill_ok _ v Hv Hna) as (m & _ & _ & Hm). eauto. }
  destruct (rfold_colwise_inv mode_fill modes d1 d2 Hnd1 Hd2) as (Hi2 & Hin2 & Hout2 & Hn2 & Hwf2).
  assert (Hcols2 : columns d2 = columns d).
  { rewrite Hn2; [exact Hcols1 |]. intros c Hc. rewrite Hcols1. apply Hsub, in_or_app. auto. }
  destruct (rfold_colwise_ok median_fill medians d2 Hnd2) as [d3 Hd3].
  { intros c Hc. rewrite Hout2 by (apply mode_median_disjoint, Hc).
    destruct (median_fill_numeric (column c d1)) as (v & Hv & _).
    - unfold d1. rewrite column_take_rows. apply forallb_mask_select, Hmed, Hc.
    - eauto. }
  destruct (rfold_colwise_inv median_fill medians d2 d3 Hnd2 Hd3) as (Hi3 & Hin3 & Hout3 & Hn3 & Hwf3).
  exists d3. split; [|split; [|split; [|split; [|split; [|split]]]]].
  - unfold MissingValueImputer.body, MissingValueImputer.dropna.
    apply mem_true_iff in Ht. rewrite Ht. cbn [rbind]. fold (has_target d). fold d1.
    fold modes medians.
    rewrite (rfold_ext _ (colwise mode_fill)) by (intros; apply impute_mode_colwise).
    rewrite Hd2. cbn [rbind].
    rewrite (rfold_ext _ (colwise median_fill)) by (intros; apply impute_median_colwise).
    exact Hd3.
  - congruence.
  - rewrite Hn3; [exact Hcols2 |]. intros c Hc. rewrite Hcols2. apply Hsub, in_or_app. auto.
  - intros Hwf. apply Hwf3.
    + apply median_fill_length.
    + intros c Hc. rewrite Hcols2. apply Hsub, in_or_app. auto.
    + apply Hwf2.
      * apply mode_fill_length.
      * intros c Hc. rewrite Hcols1. apply Hsub, in_or_app. auto.
      * apply well_formed_take_rows, Hwf.
  - intros c Hc. rewrite Hout3 by (intros Hc'; apply (mode_median_disjoint c Hc' Hc)).
    destruct (mode_fill_inv _ _ (Hin2 c Hc)) as (m & Hm & Hna & E). eauto.
  - intros c Hc. specialize (Hin3 c Hc).
    rewrite Hout2 in Hin3 by (apply mode_median_disjoint, Hc).
    unfold median_fill in Hin3. destruct (median (column c d1)) as [m|e]; [|discriminate].
    simpl in Hin3. injection Hin3 as <-. eauto.
  - intros c Hc. rewrite Hout3, Hout2; [reflexivity | |]; intros Hc'; apply Hc, in_or_app; auto.
Qed.

Lemma has_target_query f d i :
  (i < nrows d)%nat -> cell d target i = query_cell f target ->
  nth_error (has_target d) i = Some true.
Proof.
  intros Hi Hc. unfold has_target. rewrite nth_error_row_mask by exact Hi.
  rewrite Hc, query_cell_target. reflexivity.
Qed.

(** C3.  The query record carries the number 0 in the target column, which
    [dropna] does not take for a missing value: whenever row [i] of the
    frame given to the missing-value imputer holds the query record's target
    and mode-imputed cells, the imputer returns and the label of that row is
    still in the index of the result. *)
Theorem missing_value_imputer_keeps_the_query_row
    (f : form) (s : store) (df : ref) (d : DataFrame) (i : nat) (label : Z) :
  heap s !! df = Some d ->
  issubset (MissingValueImputer.mode_imputed_ft MissingValueImputer.init
            ++ MissingValueImputer.median_imputed_ft MissingValueImputer.init)
           (columns d) = true ->
  In target (columns d) ->
  nth_error (index d) i = Some label ->
  (forall c, In c (target :: MissingValueImputer.mode_imputed_ft MissingValueImputer.init) ->
             cell d c i = query_cell f c) ->
  (forall c, In c (MissingValueImputer.median_imputed_ft MissingValueImputer.init) ->
             numeric_column c d) ->
  nth 23 (profile_to_predict f) VNaN = VNum 0
  /\ isna (query_cell f target) = false
  /\ nth_error (has_target d) i = Some true
  /\ exists d',
       MissingValueImputer.transform MissingValueImputer.init df s = Ok (df, written s df d')
       /\ In label (index d').
Proof.
  intros Hd Hg Ht Hi Hrow Hnum.
  assert (Hlt : (i < nrows d)%nat) by (apply nth_error_Some; unfold nrows in *; congruence).
  assert (Hkeep : nth_error (has_target d) i = Some true).
  { apply (has_target_query f); [exact Hlt | apply Hrow; left; reflexivity]. }
  split; [reflexivity |]. split; [reflexivity |]. split; [exact Hkeep |].
  destruct (MissingValueImputer_body_ok d Ht) as (d' & Hbody & Hidx & _).
  - apply issubset_true_iff, Hg.
  - intros c Hc. exists (query_cell f c). split; [|apply query_cell_mode_columns, Hc].
    rewrite column_take_rows. apply (mask_select_In _ _ i); [exact Hkeep |].
    apply cell_nth_error; [apply Hrow; right; exact Hc | apply query_cell_mode_columns, Hc].
  - exact Hnum.
  - exists d'. split.
    + rewrite (MissingValueImputer_run s df d Hd _ Hg). rewrite Hbody. reflexivity.
    + rewrite Hidx. simpl. apply (mask_select_In _ _ i); assumption.
Qed.

(** ** Schema mismatch *)

(** X1.  When the declared columns of a transformer are not all present, its
    [transform] returns the reference it was given, leaves every object of
    the store as it was and prints one diagnostic line. *)
Theorem schema_mismatch_is_a_noop_with_a_diagnostic `{NumPy}
    (s : store) (df : ref) (d : DataFrame) :
  heap s !! df = Some d ->
  (issubset (DropFeatures.feature_to_drop DropFeatures.init) (columns d) = false ->
   DropFeatures.transform DropFeatures.init df s
   = Ok (df, printed s "One or more features are not in the dataframe"))
  /\ (issubset (OutlierImputer.feat_with_outliers OutlierImputer.init) (columns d) = false ->
      OutlierImputer.transform OutlierImputer.init df s
      = Ok (df, printed s "One or more features are not in the dataframe"))
  /\ (mem "Profession" (columns d) = false ->
      DropUncommonProfession.transform DropUncommonProfession.init df s
      = Ok (df, printed s "Profession feature is not in the dataframe"))
  /\ (issubset (MissingValueImputer.mode_imputed_ft MissingValueImputer.init
                ++ MissingValueImputer.median_imputed_ft MissingValueImputer.init)
               (columns d) = false ->
      MissingValueImputer.transform MissingValueImputer.init df s
      = Ok (df, printed s "One or more features are not in the dataframe"))
  /\ (issubset (ValueImputer.feat_with_999_val ValueImputer.init) (columns d) = false ->
      ValueImputer.transform ValueImputer.init df s
      = Ok (df, printed s "One or more features are not in the dataframe"))
  /\ (issubset (SkewnessHandler.col_with_skewness SkewnessHandler.init) (columns d) = false ->
      SkewnessHandler.transform SkewnessHandler.init df s
      = Ok (df, printed s "One or more skewed columns are not found"))
  /\ (issubset (MinMaxWithFeatNames.min_max_scaler_ft MinMaxWithFeatNames.init) (columns d) = false ->
      MinMaxWithFeatNames.transform MinMaxWithFeatNames.init df s
      = Ok (df, printed s "One or more features are not in the dataframe"))
  /\ (issubset (OneHotWithFeatNames.one_hot_enc_ft OneHotWithFeatNames.init) (columns d) = false ->
      OneHotWithFeatNames.transform OneHotWithFeatNames.init df s
      = Ok (df, printed s "One or more features are not in the dataframe")).
Proof.
  intros Hd. repeat split; intros Hg.
  - apply (DropFeatures_skip s df d Hd _ Hg).
  - apply (OutlierImputer_skip s df d Hd _ Hg).
  - apply (DropUncommonProfession_skip s df d Hd _ Hg).
  - apply (MissingValueImputer_skip s df d Hd _ Hg).
  - apply (ValueImputer_skip s df d Hd _ Hg).
  - apply (SkewnessHandler_skip s df d Hd _ Hg).
  - apply (MinMaxWithFeatNames_skip s df d Hd _ Hg).
  - apply (OneHotWithFeatNames_skip s df d Hd _ Hg).
Qed.

(** C2.  The guard of the missing-value imputer covers the nine imputed
    columns only.  On the training sample without its target column the guard
    passes and [dropna(subset=[target])] raises [KeyError]: this schema
    mismatch is not a no-op. *)
Theorem missing_value_imputer_raises_without_the_target_column :
  issubset (MissingValueImputer.mode_imputed_ft MissingValueImputer.init
            ++ MissingValueImputer.median_imputed_ft MissingValueImputer.init)
           (columns sample_without_target) = true
  /\ mem target (columns sample_without_target) = false
  /\ MissingValueImputer.transform MissingValueImputer.init 0%nat
       {| heap := [sample_without_target]; stdout := [] |}
     = Raise (KeyError "Loan Sanction Amount (USD)").
Proof. repeat split; vm_compute; reflexivity. Qed.

(** ** Which objects a step touches *)



Lemma written_here (s : store) (df : ref) (d d' : DataFrame) :
  heap s !! df = Some d -> heap (written s df d') !! df = Some d'.
Proof.
  intros Hd. unfold written. simpl. apply list_lookup_insert_eq.
  eapply lookup_lt_Some, Hd.
Qed.



(** ** Idempotence on clean data *)

Lemma rmap_inv {A B} (f : A -> result B) (l : list A) ys :
  rmap f l = Ok ys -> forall x, In x l -> exists y, f x = Ok y.
Proof.
  revert ys. induction l as [|a l IH]; simpl; intros ys Hr x; [intros [] |].
  destruct (f a) as [y|e] eqn:Ea; [|discriminate]. simpl in Hr.
  destruct (rmap f l) as [zs|e] eqn:El; [|discriminate].
  intros [<-|Hx]; [eauto | eapply IH; eauto].
Qed.

Lemma OutlierImputer_body_inv self d d' :
  OutlierImputer.body self d = Ok d' ->
  forall c, In c (OutlierImputer.feat_with_outliers self) -> numeric_column c d.
Proof.
  unfold OutlierImputer.body. intros Hb c Hc.
  destruct (df_quantile (1 # 4) (OutlierImputer.feat_with_outliers self) d) as [Q1|e] eqn:E1;
    [|discriminate].
  destruct (rmap_inv _ _ _ E1 c Hc) as [y Hy].
  unfold quantile in Hy.
  destruct (numeric_values TypeError (column c d)) as [xs|e] eqn:En; [|discriminate].
  eapply numeric_values_Ok, En.
Qed.

Lemma fillna_id v l : forallb (fun x => negb (isna x)) l = true -> fillna v l = l.
Proof.
  unfold fillna. induction l as [|x l IH]; simpl; [reflexivity |].
  intros Hl. apply andb_true_iff in Hl. destruct Hl as [Hx Hl].
  rewrite IH by exact Hl. destruct (isna x); [discriminate | reflexivity].
Qed.

Lemma replace_id (a : Q) b l :
  forallb (fun x => negb (value_eqb x (VNum a))) l = true -> replace a b l = l.
Proof.
  unfold replace. induction l as [|x l IH]; simpl; [reflexivity |].
  intros Hl. apply andb_true_iff in Hl. destruct Hl as [Hx Hl].
  rewrite IH by exact Hl. destruct (value_eqb x (VNum a)); [discriminate | reflexivity].
Qed.

Lemma forallb_nonempty_In {A} (p : A -> bool) (l : list A) :
  l <> [] -> forallb p l = true -> exists x, In x l /\ p x = true.
Proof.
  destruct l as [|x l]; [congruence |]. simpl. intros _ Hp.
  apply andb_true_iff in Hp. exists x. tauto.
Qed.

Lemma mode_fill_clean l :
  l <> [] -> forallb (fun x => negb (isna x)) l = true -> mode_fill l = Ok l.
Proof.
  intros Hne Hl. destruct (forallb_nonempty_In _ l Hne Hl) as (v & Hv & Hna).
  destruct (mode_fill_ok l v Hv) as (m & _ & _ & Hm).
  - destruct (isna v); [discriminate | reflexivity].
  - rewrite Hm, fillna_id by exact Hl. reflexivity.
Qed.

Lemma median_fill_clean l :
  forallb is_numeric l = true -> forallb (fun x => negb (isna x)) l = true ->
  median_fill l = Ok l.
Proof.
  intros Hn Hl. unfold median_fill, median. rewrite numeric_values_numbers by exact Hn.
  simpl. rewrite fillna_id by exact Hl. reflexivity.
Qed.

Lemma median_fill_inv_numeric l w : median_fill l = Ok w -> forallb is_numeric w = true.
Proof.
  unfold median_fill, median. intros Hw.
  destruct (numeric_values TypeError l) as [xs|e] eqn:En; [|discriminate].
  simpl in Hw. injection Hw as <-. apply forallb_fillna.
  - destruct (median_sorted (sort_by number_leb xs)); reflexivity.
  - eapply numeric_values_Ok, En.
Qed.

Lemma length_fillna v l : length (fillna v l) = length l.
Proof. unfold fillna. apply length_map. Qed.

(** What a successful run of the imputer's body tells about its output. *)
Lemma MissingValueImputer_body_inv d d' :
  (forall c, In c (MissingValueImputer.mode_imputed_ft MissingValueImputer.init
                   ++ MissingValueImputer.median_imputed_ft MissingValueImputer.init) ->
             In c (columns d)) ->
  MissingValueImputer.body MissingValueImputer.init d = Ok d' ->
  In target (columns d)
  /\ columns d' = columns d
  /\ (well_formed d -> well_formed d')
  /\ (forall c, In c (MissingValueImputer.mode_imputed_ft MissingValueImputer.init) ->
                column c d' <> [])
  /\ (forall c, In c (MissingValueImputer.median_imputed_ft MissingValueImputer.init) ->
                numeric_column c d').
Proof.
  intros Hsub Hb. unfold MissingValueImputer.body, MissingValueImputer.dropna in Hb.
  destruct (mem target (columns d)) eqn:Ht; [|discriminate]. cbn [rbind] in Hb.
  fold (has_target d) in Hb.
  set (d1 := take_rows (has_target d) d) in *.
  set (modes := MissingValueImputer.mode_imputed_ft MissingValueImputer.init) in *.
  set (medians := MissingValueImputer.median_imputed_ft MissingValueImputer.init) in *.
  assert (Hnd1 : List.NoDup modes) by (unfold modes; simpl; solve_NoDup).
  assert (Hnd2 : List.NoDup medians) by (unfold medians; simpl; solve_NoDup).
  assert (Hcols1 : columns d1 = columns d) by apply columns_take_rows.
  rewrite (rfold_ext _ (colwise mode_fill)) in Hb by (intros; apply impute_mode_colwise).
  destruct (rfold (colwise mode_fill) modes d1) as [d2|e] eqn:Hd2; [|discriminate].
  cbn [rbind] in Hb.
  rewrite (rfold_ext _ (colwise median_fill)) in Hb by (intros; apply impute_median_colwise).
  destruct (rfold_colwise_inv mode_fill modes d1 d2 Hnd1 Hd2) as (Hi2 & Hin2 & Hout2 & Hn2 & Hwf2).
  destruct (rfold_colwise_inv median_fill medians d2 d' Hnd2 Hb) as (Hi3 & Hin3 & Hout3 & Hn3 & Hwf3).
  assert (Hcols2 : columns d2 = columns d).
  { rewrite Hn2; [exact Hcols1 |]. intros c Hc. rewrite Hcols1. apply Hsub, in_or_app. auto. }
  split; [apply mem_true_iff, Ht |]. split; [|split; [|split]].
  - rewrite Hn3; [exact Hcols2 |]. intros c Hc. rewrite Hcols2. apply Hsub, in_or_app. auto.
  - intros Hwf. apply Hwf3.
    + apply median_fill_length.
    + intros c Hc. rewrite Hcols2. apply Hsub, in_or_app. auto.
    + apply Hwf2.
      * apply mode_fill_length.
      * intros c Hc. rewrite Hcols1. apply Hsub, in_or_app. auto.
      * apply well_formed_take_rows, Hwf.
  - intros c Hc. rewrite Hout3 by (intros Hc'; apply (mode_median_disjoint c Hc' Hc)).
    destruct (mode_fill_inv _ _ (Hin2 c Hc)) as (m & Hm & _ & E). rewrite E.
    intros Hnil. apply (f_equal (@length value)) in Hnil. rewrite length_fillna in Hnil.
    destruct (column c d1); [destruct Hm | discriminate].
  - intros c Hc. eapply median_fill_inv_numeric, Hin3, Hc.
Qed.

Lemma allocated_new (s : store) (d' : DataFrame) :
  heap (allocated s d') !! length (heap s) = Some d'.
Proof. unfold allocated. simpl. apply list_lookup_middle. reflexivity. Qed.

Lemma issubset_columns_eq cs df df' :
  columns df' = columns df -> issubset cs (columns df') = issubset cs (columns df).
Proof. intros ->. reflexivity. Qed.

Lemma OutlierImputer_idempotent :
  idempotent_on (OutlierImputer.transform OutlierImputer.init)
                (no_outlier (OutlierImputer.feat_with_outliers OutlierImputer.init)).
Proof.
  intros s s1 df df1 d d1 Hd Hwf HT Hd1 Hclean.
  destruct (issubset (OutlierImputer.feat_with_outliers OutlierImputer.init) (columns d)) eqn:Hg.
  - rewrite (OutlierImputer_run s df d Hd _ Hg) in HT.
    destruct (OutlierImputer.body OutlierImputer.init d) as [d'|e] eqn:Hb; [|discriminate].
    injection HT as <- <-. rewrite allocated_new in Hd1. injection Hd1 as <-.
    pose proof (OutlierImputer_body_inv _ _ _ Hb) as Hnum.
    rewrite OutlierImputer_body_numeric in Hb by exact Hnum. injection Hb as Hb.
    assert (Hcols : columns d' = columns d) by (rewrite <- Hb; apply columns_take_rows).
    assert (Hwf' : well_formed d') by (rewrite <- Hb; apply well_formed_take_rows, Hwf).
    assert (Hnum' : forall c, In c (OutlierImputer.feat_with_outliers OutlierImputer.init) ->
                              numeric_column c d').
    { intros c Hc. unfold numeric_column. rewrite <- Hb, column_take_rows.
      apply forallb_mask_select, Hnum, Hc. }
    exists (length (heap (allocated s d'))), (allocated (allocated s d') d'). split.
    + rewrite (OutlierImputer_run _ _ d' (allocated_new s d')).
      * rewrite OutlierImputer_body_numeric by exact Hnum'.
        rewrite take_rows_all; [reflexivity | exact Hwf' | | apply length_row_mask].
        apply Forall_row_mask. intros i Hi. rewrite (Hclean i Hi). reflexivity.
      * rewrite (issubset_columns_eq _ d d' Hcols). exact Hg.
    + apply allocated_new.
  - rewrite (OutlierImputer_skip s df d Hd _ Hg) in HT. injection HT as <- <-.
    simpl in Hd1. assert (d1 = d) by congruence. subst d1.
    eexists _, _. split; [apply (OutlierImputer_skip _ _ d); [exact Hd | exact Hg] | exact Hd].
Qed.

Lemma DropUncommonProfession_idempotent :
  idempotent_on (DropUncommonProfession.transform DropUncommonProfession.init)
                (no_excluded_profession
                   (DropUncommonProfession.profession_list DropUncommonProfession.init)).
Proof.
  intros s s1 df df1 d d1 Hd Hwf HT Hd1 Hclean.
  destruct (mem "Profession" (columns d)) eqn:Hg.
  - rewrite (DropUncommonProfession_run s df d Hd _ Hg) in HT.
    injection HT as <- <-. rewrite allocated_new in Hd1. injection Hd1 as Hb.
    assert (Hcols : columns d1 = columns d) by (rewrite <- Hb; apply columns_take_rows).
    assert (Hwf' : well_formed d1) by (rewrite <- Hb; apply well_formed_take_rows, Hwf).
    rewrite Hb.
    exists (length (heap (allocated s d1))), (allocated (allocated s d1) d1). split.
    + rewrite (DropUncommonProfession_run _ _ d1 (allocated_new s d1)) by (rewrite Hcols; exact Hg).
      unfold DropUncommonProfession.body.
      rewrite take_rows_all; [reflexivity | exact Hwf' | | apply length_row_mask].
      apply Forall_row_mask. intros i Hi. rewrite (Hclean i Hi). reflexivity.
    + apply allocated_new.
  - rewrite (DropUncommonProfession_skip s df d Hd _ Hg) in HT. injection HT as <- <-.
    simpl in Hd1. assert (d1 = d) by congruence. subst d1.
    eexists _, _. split; [apply (DropUncommonProfession_skip _ _ d); [exact Hd | exact Hg] | exact Hd].
Qed.

Lemma ValueImputer_idempotent :
  idempotent_on (ValueImputer.transform ValueImputer.init)
                (no_sentinel (ValueImputer.feat_with_999_val ValueImputer.init)).
Proof.
  intros s s1 df df1 d d1 Hd Hwf HT Hd1 Hclean.
  destruct (issubset (ValueImputer.feat_with_999_val ValueImputer.init) (columns d)) eqn:Hg.
  - rewrite (ValueImputer_run s df d Hd _ Hg) in HT. injection HT as <- <-.
    rewrite (written_here s df d _ Hd) in Hd1. injection Hd1 as Hb.
    assert (Hnd : List.NoDup (ValueImputer.feat_with_999_val ValueImputer.init))
      by (simpl; solve_NoDup).
    destruct (ValueImputer_body_spec ValueImputer.init d Hnd) as (_ & _ & _ & Hcols).
    rewrite Hb in Hcols. specialize (Hcols (proj1 (issubset_true_iff _ _) Hg)).
    rewrite Hb.
    assert (Hd1 : heap (written s df d1) !! df = Some d1) by (eapply written_here, Hd).
    eexists _, _. split.
    + apply (ValueImputer_run _ _ d1 Hd1). rewrite Hcols. exact Hg.
    + unfold ValueImputer.body.
      rewrite (fold_left_colwise_id (replace (-999) (VNum 0))).
      * eapply written_here, Hd1.
      * intros c Hc. split.
        -- rewrite Hcols. apply (proj1 (issubset_true_iff _ _) Hg), Hc.
        -- apply replace_id, Hclean, Hc.
  - rewrite (ValueImputer_skip s df d Hd _ Hg) in HT. injection HT as <- <-.
    simpl in Hd1. assert (d1 = d) by congruence. subst d1.
    eexists _, _. split; [apply (ValueImputer_skip _ _ d); [exact Hd | exact Hg] | exact Hd].
Qed.

Lemma MissingValueImputer_idempotent :
  idempotent_on (MissingValueImputer.transform MissingValueImputer.init)
                (no_missing (target :: MissingValueImputer.mode_imputed_ft MissingValueImputer.init
                             ++ MissingValueImputer.median_imputed_ft MissingValueImputer.init)).
Proof.
  intros s s1 df df1 d d1 Hd Hwf HT Hd1 Hclean.
  set (declared := MissingValueImputer.mode_imputed_ft MissingValueImputer.init
                   ++ MissingValueImputer.median_imputed_ft MissingValueImputer.init) in *.
  destruct (issubset declared (columns d)) eqn:Hg.
  - rewrite (MissingValueImputer_run s df d Hd _ Hg) in HT.
    destruct (MissingValueImputer.body MissingValueImputer.init d) as [d'|e] eqn:Hb; [|discriminate].
    injection HT as <- <-. rewrite (written_here s df d _ Hd) in Hd1. injection Hd1 as <-.
    pose proof (proj1 (issubset_true_iff _ _) Hg) as Hsub.
    destruct (MissingValueImputer_body_inv d d' Hsub Hb) as (Ht & Hcols & Hwf' & Hne & Hnum).
    specialize (Hwf' Hwf).
    assert (Hd' : heap (written s df d') !! df = Some d') by (eapply written_here, Hd).
    assert (Hsub' : forall c, In c declared -> In c (columns d')) by (rewrite Hcols; exact Hsub).
    assert (Hb' : MissingValueImputer.body MissingValueImputer.init d' = Ok d').
    { unfold MissingValueImputer.body, MissingValueImputer.dropna.
      rewrite Hcols. apply mem_true_iff in Ht. rewrite Ht. cbn [rbind].
      rewrite take_rows_all; [| exact Hwf' | | apply length_row_mask].
      - rewrite (rfold_ext _ (colwise mode_fill)) by (intros; apply impute_mode_colwise).
        rewrite rfold_colwise_id.
        + cbn [rbind].
          rewrite (rfold_ext _ (colwise median_fill)) by (intros; apply impute_median_colwise).
          apply rfold_colwise_id. intros c Hc. split.
          * apply Hsub', in_or_app. auto.
          * apply median_fill_clean; [apply Hnum, Hc |].
            apply Hclean. right. apply in_or_app. auto.
        + intros c Hc. split.
          * apply Hsub', in_or_app. auto.
          * apply mode_fill_clean; [apply Hne, Hc |].
            apply Hclean. right. apply in_or_app. auto.
      - apply Forall_row_mask. intros i Hi.
        assert (Hcol : forallb (fun v => negb (isna v)) (column target d') = true)
          by (apply Hclean; left; reflexivity).
        rewrite forallb_forall in Hcol. apply Hcol. unfold cell. apply nth_In.
        rewrite well_formed_column; [exact Hi | exact Hwf' |].
        rewrite Hcols. apply mem_true_iff, Ht. }
    eexists _, _. split.
    + rewrite (MissingValueImputer_run _ _ d' Hd') by (rewrite Hcols; exact Hg).
      rewrite Hb'. reflexivity.
    + eapply written_here, Hd'.
  - rewrite (MissingValueImputer_skip s df d Hd _ Hg) in HT. injection HT as <- <-.
    simpl in Hd1. assert (d1 = d) by congruence. subst d1.
    eexists _, _. split; [apply (MissingValueImputer_skip _ _ d); [exact Hd | exact Hg] | exact Hd].
Qed.

(** C8.  Each imputer is idempotent on clean data: when the frame a
    transform produced holds no out-of-bounds row (by the float64 bounds of
    that frame), no excluded profession, no missing cell in the target and
    the imputed columns, and no sentinel respectively, applying the transform
    to that frame again returns the same frame. *)
Theorem imputers_are_idempotent_on_clean_data :
  idempotent_on (OutlierImputer.transform OutlierImputer.init)
                (no_outlier (OutlierImputer.feat_with_outliers OutlierImputer.init))
  /\ idempotent_on (DropUncommonProfession.transform DropUncommonProfession.init)
                   (no_excluded_profession
                      (DropUncommonProfession.profession_list DropUncommonProfession.init))
  /\ idempotent_on (MissingValueImputer.transform MissingValueImputer.init)
                   (no_missing (target :: MissingValueImputer.mode_imputed_ft MissingValueImputer.init
                                ++ MissingValueImputer.median_imputed_ft MissingValueImputer.init))
  /\ idempotent_on (ValueImputer.transform ValueImputer.init)
                   (no_sentinel (ValueImputer.feat_with_999_val ValueImputer.init)).
Proof.
  split; [exact OutlierImputer_idempotent |].
  split; [exact DropUncommonProfession_idempotent |].
  split; [exact MissingValueImputer_idempotent | exact ValueImputer_idempotent].
Qed.

(** ** The query row through the pipeline *)

Lemma bind_Ok {A B} (m : M A) (k : A -> M B) (s s' : store) (a : A) :
  m s = Ok (a, s') -> bind m k s = k a s'.
Proof. intros E. unfold bind. rewrite E. reflexivity. Qed.








Lemma In_kept_columns c :
  In c (watched_columns ++ numeric_features ++ categorical_features
        ++ ValueImputer.feat_with_999_val ValueImputer.init
        ++ MissingValueImputer.median_imputed_ft MissingValueImputer.init) ->
  In c kept_columns.
Proof.
  intros Hc. apply mem_true_iff. apply mem_true_iff in Hc.
  revert Hc. unfold mem. rewrite !existsb_exists.
  intros (x & Hx & E). apply String.eqb_eq in E. subst x.
  exists c. split; [|apply String.eqb_refl].
  vm_compute in Hx. vm_compute.
  repeat (destruct Hx as [<-|Hx]; [tauto |]). destruct Hx.
Qed.



Lemma outlier_features_numeric c :
  In c (OutlierImputer.feat_with_outliers OutlierImputer.init) -> In c numeric_features.
Proof. simpl. intros [<-|[<-|[<-|[<-|[<-|[]]]]]]; simpl; tauto. Qed.



























(** *** The frame the pipeline receives *)








Lemma In_train_columns c : In c kept_columns -> In c train_columns.
Proof. unfold kept_columns. intros Hc. apply filter_In in Hc. tauto. Qed.


Lemma well_formed_drop_columns cs df : well_formed df -> well_formed (drop_columns cs df).
Proof.
  unfold well_formed, drop_columns, nrows. simpl. intros Hwf.
  apply List.Forall_forall. intros kv Hkv. apply filter_In in Hkv.
  rewrite List.Forall_forall in Hwf. apply Hwf, Hkv.
Qed.

Lemma kept_not_dropped c :
  In c kept_columns -> ~ In c (DropFeatures.feature_to_drop DropFeatures.init).
Proof.
  unfold kept_columns. intros Hc. apply filter_In in Hc. destruct Hc as [_ Hc].
  apply mem_false_iff. destruct (mem c _); [discriminate | reflexivity].
Qed.



(** *** The eight steps on the combined frame *)



(** *** From the form to the feature vector *)











(** ** The theorems at the sample data *)

Ltac by_cases Hc :=
  vm_compute in Hc;
  repeat (destruct Hc as [<-|Hc]; [vm_compute; reflexivity |]);
  destruct Hc.

Lemma outlier_remover_on_the_sample :
  exists d',
    OutlierImputer.transform OutlierImputer.init 0%nat sample_store
    = Ok (1%nat, allocated sample_store d')
    /\ index d' = [0%Z; 1%Z; 3%Z].
Proof.
  destruct (outlier_remover_removes_exactly_the_out_of_bounds_rows sample_store 0%nat sample_train)
    as (d' & Hrun & Hidx & _).
  - reflexivity.
  - vm_compute. reflexivity.
  - intros c Hc. by_cases Hc.
  - exists d'. split; [exact Hrun |]. rewrite Hidx. vm_compute. reflexivity.
Defined.

Lemma range_normalizer_on_the_sample :
  exists d',
    @MinMaxWithFeatNames.transform example_numpy MinMaxWithFeatNames.init 0%nat sample_store
    = Ok (0%nat, written sample_store 0%nat d')
    /\ index d' = index sample_train
    /\ columns d' = columns sample_train
    /\ cell d' "Age" 1 = VNum (3 # 4).
Proof.
  destruct (@range_normalizer_rounds_and_does_not_clip example_numpy
              sample_store 0%nat sample_train)
    as (d' & Hrun & Hidx & Hcols & Hcell & _).
  - reflexivity.
  - vm_compute. discriminate.
  - vm_compute. reflexivity.
  - intros c Hc. by_cases Hc.
  - exists d'. split; [exact Hrun |]. split; [exact Hidx |]. split; [exact Hcols |].
    rewrite (Hcell "Age" 1%nat (Fin 45) (Fin 30) (Fin 50));
      [vm_compute; reflexivity | simpl; tauto | vm_compute; reflexivity
       | vm_compute; reflexivity | reflexivity].
Defined.

Lemma one_hot_encoder_on_the_sample :
  exists d',
    @OneHotWithFeatNames.transform example_numpy OneHotWithFeatNames.init 0%nat sample_store
    = Ok (1%nat, allocated sample_store d')
    /\ index d' = index sample_train.
Proof.
  destruct (@one_hot_encoder_expands_each_column_into_indicators example_numpy
              sample_store 0%nat sample_train)
    as (d' & Hrun & Hidx & _).
  - reflexivity.
  - vm_compute. discriminate.
  - vm_compute. reflexivity.
  - intros c Hc. by_cases Hc.
  - exists d'. auto.
Defined.

Lemma sentinel_replacer_on_the_sample :
  exists d',
    ValueImputer.transform ValueImputer.init 0%nat sample_store
    = Ok (0%nat, written sample_store 0%nat d')
    /\ cell sample_train "Co-Applicant" 1 = VNum (-999)
    /\ cell d' "Co-Applicant" 1 = VNum 0.
Proof.
  destruct (sentinel_replacer_maps_minus_999_to_zero sample_store 0%nat sample_train)
    as (d' & Hrun & _ & _ & Hz & _).
  - reflexivity.
  - vm_compute. reflexivity.
  - exists d'. split; [exact Hrun |]. split; [reflexivity |].
    apply (Hz "Co-Applicant" 1%nat (-999)); [simpl; tauto | reflexivity | reflexivity].
Defined.

Lemma missing_value_imputer_on_the_combined_sample :
  exists d',
    MissingValueImputer.transform MissingValueImputer.init 0%nat
      {| heap := [combined sample_train sample_form]; stdout := [] |}
    = Ok (0%nat, written {| heap := [combined sample_train sample_form]; stdout := [] |} 0%nat d')
    /\ In 4%Z (index d').
Proof.
  destruct (missing_value_imputer_keeps_the_query_row sample_form
              {| heap := [combined sample_train sample_form]; stdout := [] |} 0%nat
              (combined sample_train sample_form) 4%nat 4%Z)
    as (_ & _ & _ & d' & Hrun & Hin).
  - reflexivity.
  - vm_compute. reflexivity.
  - apply mem_true_iff. vm_compute. reflexivity.
  - reflexivity.
  - intros c Hc. by_cases Hc.
  - intros c Hc. by_cases Hc.
  - exists d'. auto.
Defined.


Lemma profession_filter_twice_on_the_sample :
  let d1 := DropUncommonProfession.body DropUncommonProfession.init sample_train in
  exists df2 s2,
    DropUncommonProfession.transform DropUncommonProfession.init 1%nat
      (allocated sample_store d1) = Ok (df2, s2)
    /\ heap s2 !! df2 = Some d1.
Proof.
  intros d1.
  destruct imputers_are_idempotent_on_clean_data as (_ & Hprof & _).
  apply (Hprof sample_store (allocated sample_store d1) 0%nat 1%nat sample_train d1).
  - reflexivity.
  - unfold well_formed. repeat constructor.
  - reflexivity.
  - reflexivity.
  - intros i Hi. change (nrows d1) with 3%nat in Hi.
    destruct i as [|[|[|i]]]; [reflexivity | reflexivity | reflexivity | lia].
Defined.


Lemma foreign_frame_is_left_alone :
  let s := {| heap := [foreign_frame]; stdout := [] |} in
  DropFeatures.transform DropFeatures.init 0%nat s
  = Ok (0%nat, printed s "One or more features are not in the dataframe")
  /\ MissingValueImputer.transform MissingValueImputer.init 0%nat s
     = Ok (0%nat, printed s "One or more features are not in the dataframe")
  /\ @SkewnessHandler.transform example_numpy SkewnessHandler.init 0%nat s
     = Ok (0%nat, printed s "One or more skewed columns are not found").
Proof.
  intros s.
  destruct (@schema_mismatch_is_a_noop_with_a_diagnostic example_numpy s 0%nat foreign_frame
              eq_refl) as (Hdrop & _ & _ & Himp & _ & Hskew & _).
  split; [apply Hdrop; reflexivity |]. split; [apply Himp; reflexivity | apply Hskew; reflexivity].
Defined.

(** * Further properties of the transformers *)

(** ** Rows selected by a mask *)

Lemma In_mask_select_seq {A} (p : nat -> bool) (x : A) : forall n start (l : list A),
  In x (mask_select (map p (seq start n)) l) ->
  exists j, nth_error l j = Some x /\ p (start + j)%nat = true.
Proof.
  induction n as [|n IH]; intros start l; simpl; [intros [] |].
  destruct l as [|y l]; [intros [] |].
  destruct (p start) eqn:Hp.
  - intros [->|Hx].
    + exists 0%nat. rewrite Nat.add_0_r. auto.
    + destruct (IH (S start) l Hx) as (j & Hj & Hpj). exists (S j).
      rewrite Nat.add_succ_r. auto.
  - intros Hx. destruct (IH (S start) l Hx) as (j & Hj & Hpj). exists (S j).
    rewrite Nat.add_succ_r. auto.
Qed.

(** Every entry a row mask lets through sits at a row where the mask holds. *)
Lemma In_mask_select_row_mask {A} df (p : nat -> bool) (l : list A) (x : A) :
  In x (mask_select (row_mask df p) l) ->
  exists i, nth_error l i = Some x /\ p i = true.
Proof. unfold row_mask. intros Hx. apply (In_mask_select_seq p x _ 0%nat l Hx). Qed.

Lemma nth_error_cell df c i v : nth_error (column c df) i = Some v -> cell df c i = v.
Proof. intros Hv. unfold cell. apply nth_error_nth, Hv. Qed.

Lemma sublist_mask_select {A} (keep : list bool) (l : list A) : sublist (mask_select keep l) l.
Proof.
  revert l. induction keep as [|b keep IH]; intros [|x l]; simpl;
    try apply sublist_nil_l.
  destruct b; [apply sublist_skip, IH | apply sublist_cons, IH].
Qed.

(** ** DropFeatures *)

(** X2.  On a frame holding the four declared columns the column dropper
    updates the frame so that these four labels are gone while every other
    column keeps its position among the remaining ones and its cells; the
    index is unchanged. *)
Theorem column_dropper_removes_exactly_the_declared_columns
    (s : store) (df : ref) (d : DataFrame) :
  heap s !! df = Some d ->
  issubset (DropFeatures.feature_to_drop DropFeatures.init) (columns d) = true ->
  let fs := DropFeatures.feature_to_drop DropFeatures.init in
  exists d',
    DropFeatures.transform DropFeatures.init df s = Ok (df, written s df d')
    /\ heap (written s df d') !! df = Some d'
    /\ index d' = index d
    /\ columns d' = List.filter (fun c => negb (mem c fs)) (columns d)
    /\ (forall c, In c fs -> ~ In c (columns d') /\ getitem c d' = None)
    /\ (forall c, ~ In c fs -> getitem c d' = getitem c d)
    /\ (well_formed d -> well_formed d').
Proof.
  intros Hd Hg fs. exists (drop_columns fs d).
  split; [apply (DropFeatures_run s df d Hd _ Hg) |].
  split; [eapply written_here, Hd |].
  split; [reflexivity |].
  split; [apply columns_drop_columns |].
  split; [|split].
  - intros c Hc.
    assert (Hnot : ~ In c (columns (drop_columns fs d))).
    { rewrite columns_drop_columns. intros Hin. apply filter_In in Hin.
      destruct Hin as [_ Hm]. apply mem_true_iff in Hc. rewrite Hc in Hm. discriminate. }
    split; [exact Hnot |].
    destruct (getitem c (drop_columns fs d)) as [v|] eqn:Hv; [|reflexivity].
    exfalso. apply Hnot. apply lookup_col_Some_iff. exists v. exact Hv.
  - intros c Hc. unfold getitem, drop_columns. simpl.
    apply (lookup_col_filter (fun k => negb (mem k fs))).
    apply mem_false_iff in Hc. rewrite Hc. reflexivity.
  - apply well_formed_drop_columns.
Qed.

Lemma column_dropper_on_the_sample :
  exists d',
    DropFeatures.transform DropFeatures.init 0%nat sample_store
    = Ok (0%nat, written sample_store 0%nat d')
    /\ length (columns d') = 20%nat
    /\ getitem "Name" d' = None.
Proof.
  destruct (column_dropper_removes_exactly_the_declared_columns sample_store 0%nat sample_train)
    as (d' & Hrun & _ & _ & Hcols & Hgone & _).
  - reflexivity.
  - vm_compute. reflexivity.
  - exists d'. split; [exact Hrun |]. split.
    + rewrite Hcols. vm_compute. reflexivity.
    + apply Hgone. simpl. tauto.
Defined.

(** ** DropUncommonProfession *)

(** X3.  On a frame with a "Profession" column the profession filter
    returns a new frame made of exactly the rows whose profession is not one
    of the three excluded ones, cells unchanged; a row without a profession
    is kept; no row of the result has an excluded profession. *)
Theorem profession_filter_keeps_exactly_the_common_professions
    (s : store) (df : ref) (d : DataFrame) :
  heap s !! df = Some d ->
  mem "Profession" (columns d) = true ->
  let excluded := DropUncommonProfession.profession_list DropUncommonProfession.init in
  let keep :=
    row_mask d (fun i => negb (DropUncommonProfession.isin excluded (cell d "Profession" i))) in
  exists d',
    DropUncommonProfession.transform DropUncommonProfession.init df s
    = Ok (length (heap s), allocated s d')
    /\ index d' = mask_select keep (index d)
    /\ columns d' = columns d
    /\ (forall c, column c d' = mask_select keep (column c d))
    /\ (forall i, (i < nrows d)%nat ->
          nth_error keep i
          = Some (match cell d "Profession" i with
                  | VStr p => negb (String.eqb p "Student" || String.eqb p "Unemployed"
                                    || String.eqb p "Businessman")
                  | _ => true
                  end))
    /\ (forall i, DropUncommonProfession.isin excluded (cell d' "Profession" i) = false)
    /\ (well_formed d -> well_formed d').
Proof.
  intros Hd Hg excluded keep. exists (take_rows keep d).
  split; [apply (DropUncommonProfession_run s df d Hd _ Hg) |].
  split; [reflexivity |]. split; [apply columns_take_rows |].
  split; [intros c; apply column_take_rows |]. split; [|split].
  - intros i Hi. unfold keep. rewrite nth_error_row_mask by exact Hi. f_equal.
    destruct (cell d "Profession" i) as [q|p|]; simpl; try reflexivity.
    rewrite orb_false_r, orb_assoc. reflexivity.
  - intros i. unfold cell. rewrite column_take_rows.
    destruct (Nat.lt_ge_cases i (length (mask_select keep (column "Profession" d)))) as [Hlt|Hge].
    + assert (Hin : In (nth i (mask_select keep (column "Profession" d)) VNaN)
                       (mask_select keep (column "Profession" d))) by (apply nth_In, Hlt).
      apply In_mask_select_row_mask in Hin. destruct Hin as (j & Hj & Hp).
      apply nth_error_cell in Hj. rewrite Hj in Hp.
      destruct (DropUncommonProfession.isin excluded _); [discriminate | reflexivity].
    + rewrite nth_overflow by exact Hge. reflexivity.
  - apply well_formed_take_rows.
Qed.

Lemma profession_filter_on_the_sample :
  exists d',
    DropUncommonProfession.transform DropUncommonProfession.init 0%nat sample_store
    = Ok (1%nat, allocated sample_store d')
    /\ index d' = [0%Z; 1%Z; 3%Z].
Proof.
  destruct (profession_filter_keeps_exactly_the_common_professions sample_store 0%nat sample_train)
    as (d' & Hrun & Hidx & _).
  - reflexivity.
  - vm_compute. reflexivity.
  - exists d'. split; [exact Hrun |]. rewrite Hidx. vm_compute. reflexivity.
Defined.

(** ** SkewnessHandler *)

Lemma np_cbrt_numeric_map `{NumPy} l :
  forallb is_numeric l = true -> np_cbrt l = Ok (map cbrt_cell l).
Proof.
  unfold np_cbrt. induction l as [|x l IH]; simpl; intros Hl; [reflexivity |].
  apply andb_true_iff in Hl. destruct Hl as [Hx Hl]. rewrite (IH Hl).
  destruct x as [[q|b]|t|]; [reflexivity | reflexivity | discriminate | reflexivity].
Qed.

(** X4.  On a frame whose four declared columns are numeric the skew
    corrector replaces, in place, every finite number of those columns by
    its cube root; infinite and missing cells stay as they are, and the
    other columns, the labels and the index are unchanged. *)
Theorem skew_corrector_takes_cube_roots `{NumPy} (s : store) (df : ref) (d : DataFrame) :
  heap s !! df = Some d ->
  issubset (SkewnessHandler.col_with_skewness SkewnessHandler.init) (columns d) = true ->
  (forall c, In c (SkewnessHandler.col_with_skewness SkewnessHandler.init) ->
             numeric_column c d) ->
  let fs := SkewnessHandler.col_with_skewness SkewnessHandler.init in
  exists d',
    SkewnessHandler.transform SkewnessHandler.init df s = Ok (df, written s df d')
    /\ index d' = index d
    /\ columns d' = columns d
    /\ (forall c i (x : Q), In c fs -> cell d c i = VNum x -> cell d' c i = VNum (cbrt x))
    /\ (forall c i b, In c fs -> cell d c i = VNum (Inf b) -> cell d' c i = VNum (Inf b))
    /\ (forall c i, In c fs -> cell d c i = VNaN -> cell d' c i = VNaN)
    /\ (forall c, In c fs -> length (column c d') = length (column c d))
    /\ (forall c, ~ In c fs -> column c d' = column c d).
Proof.
  intros Hd Hg Hnum fs.
  assert (Hnd : List.NoDup fs) by (unfold fs; simpl; solve_NoDup).
  assert (Hsub : forall c, In c fs -> In c (columns d)) by (apply issubset_true_iff, Hg).
  set (h := fun c => unwrap (np_cbrt (column c d))).
  assert (Hh : forall c, In c fs -> h c = map cbrt_cell (column c d)).
  { intros c Hc. unfold h. rewrite np_cbrt_numeric_map by (apply Hnum, Hc). reflexivity. }
  destruct (setitems_tagged h fs d Hnd) as (Hi & Hin & Hout & Hnames & _).
  exists (setitems (map (fun c => (c, h c)) fs) d).
  assert (Hcell : forall c i, In c fs ->
            cell (setitems (map (fun c => (c, h c)) fs) d) c i = cbrt_cell (cell d c i)).
  { intros c i Hc. unfold cell. rewrite (Hin c Hc), (Hh c Hc).
    apply (nth_map_default cbrt_cell). reflexivity. }
  split; [|split; [exact Hi | split; [exact (Hnames Hsub) |]]].
  - rewrite (SkewnessHandler_run s df d Hd _ Hg). unfold SkewnessHandler.body.
    rewrite (rmap_tagged np_cbrt); [reflexivity |].
    intros c Hc. rewrite np_cbrt_numeric_map by (apply Hnum, Hc). eauto.
  - split; [|split; [|split; [|split; [|exact Hout]]]].
    + intros c i x Hc Hx. rewrite (Hcell c i Hc), Hx. reflexivity.
    + intros c i b Hc Hx. rewrite (Hcell c i Hc), Hx. reflexivity.
    + intros c i Hc Hx. rewrite (Hcell c i Hc), Hx. reflexivity.
    + intros c Hc. rewrite (Hin c Hc), (Hh c Hc). apply length_map.
Qed.

Lemma skew_corrector_on_the_sample :
  exists d',
    @SkewnessHandler.transform example_numpy SkewnessHandler.init 0%nat sample_store
    = Ok (0%nat, written sample_store 0%nat d')
    /\ cell sample_train "Loan Amount Request (USD)" 0 = VNum 50000
    /\ cell d' "Loan Amount Request (USD)" 0 = VNum (@cbrt example_numpy 50000).
Proof.
  destruct (@skew_corrector_takes_cube_roots example_numpy sample_store 0%nat sample_train)
    as (d' & Hrun & _ & _ & Hnumber & _).
  - reflexivity.
  - vm_compute. reflexivity.
  - intros c Hc. by_cases Hc.
  - exists d'. split; [exact Hrun |]. split; [reflexivity |].
    apply Hnumber; [simpl; tauto | reflexivity].
Defined.

(** ** A string in a numeric column *)

Lemma rmap_raise {A B} (f : A -> result B) (l : list A) (x : A) (e : exn) :
  In x l -> f x = Raise e ->
  (forall y e', In y l -> f y = Raise e' -> e' = e) ->
  rmap f l = Raise e.
Proof.
  induction l as [|a l IH]; simpl; [intros [] |]. intros Hx Hfx Hall.
  destruct (f a) as [b|e'] eqn:Ha.
  - simpl. rewrite IH; [reflexivity | | exact Hfx | intros y e' Hy; apply Hall; auto].
    destruct Hx as [->|Hx]; [congruence | exact Hx].
  - simpl. f_equal. apply (Hall a e'); auto.
Qed.

Lemma numeric_values_raise e l :
  existsb (fun v => negb (is_numeric v)) l = true -> numeric_values e l = Raise e.
Proof.
  induction l as [|[q|t|] l IH]; simpl; intros Hl; try discriminate; auto.
  rewrite IH by exact Hl. reflexivity.
Qed.

Lemma numeric_values_raises_only e e' l : numeric_values e l = Raise e' -> e' = e.
Proof.
  induction l as [|[q|t|] l IH]; simpl; intros Hl; try discriminate; auto.
  - destruct (numeric_values e l); [discriminate | auto].
  - congruence.
Qed.

Lemma np_cbrt_text `{NumPy} l :
  existsb (fun v => negb (is_numeric v)) l = true -> np_cbrt l = Raise TypeError.
Proof.
  intros Hl. apply existsb_exists in Hl. destruct Hl as (x & Hx & Hn).
  unfold np_cbrt. apply (rmap_raise _ l x); [exact Hx | |].
  - destruct x; [discriminate | reflexivity | discriminate].
  - intros y e' _. destruct y; try discriminate. congruence.
Qed.

Lemma MinMaxScaler_raises_only `{NumPy} l e :
  MinMaxScaler.fit_transform l = Raise e -> e = ValueError.
Proof.
  unfold MinMaxScaler.fit_transform.
  destruct (rmap MinMaxScaler.as_float l) as [X|e'] eqn:E; simpl.
  - destruct (existsb is_inf X); [congruence |].
    destruct (fmin_list (numbers X)), (fmax_list (numbers X)); discriminate.
  - intros [= <-]. revert e' E. induction l as [|x l IH]; simpl; [discriminate |].
    intros e'. destruct (MinMaxScaler.as_float x) as [v|e0] eqn:Hx; simpl.
    + destruct (rmap MinMaxScaler.as_float l) as [vs|e1]; simpl; [discriminate |].
      intros [= <-]. apply (IH e1). reflexivity.
    + intros [= <-]. unfold MinMaxScaler.as_float in Hx.
      destruct x as [n|t|]; try discriminate.
      destruct (float_of_str t); [discriminate | congruence].
Qed.

Lemma MinMaxScaler_unreadable `{NumPy} l t :
  In (VStr t) l -> float_of_str t = None ->
  MinMaxScaler.fit_transform l = Raise ValueError.
Proof.
  intros Hin Ht. unfold MinMaxScaler.fit_transform.
  rewrite (rmap_raise _ l (VStr t) ValueError);
    [reflexivity | exact Hin | simpl; rewrite Ht; reflexivity |].
  intros y e' _. unfold MinMaxScaler.as_float. destruct y as [n|u|]; try discriminate.
  destruct (float_of_str u); [discriminate | congruence].
Qed.

Lemma np_cbrt_raises_only `{NumPy} l e : np_cbrt l = Raise e -> e = TypeError.
Proof.
  unfold np_cbrt. induction l as [|x l IH]; simpl; [discriminate |].
  destruct x as [q|t|]; simpl; try congruence.
  - destruct (rmap _ l); [discriminate | auto].
  - destruct (rmap _ l); [discriminate | auto].
Qed.

(** X5.  A string in one of a transformer's declared numeric columns is
    not skipped over, although the guard on the column labels passes: the
    outlier remover and the skew corrector raise [TypeError] on any string,
    and the range normalizer, which converts the cells with Python's
    [float], raises [ValueError] on a string that [float] rejects. *)
Theorem text_in_a_numeric_column_raises `{NumPy}
    (s : store) (df : ref) (d : DataFrame) (c : string) :
  heap s !! df = Some d ->
  holds_text c d ->
  (In c (OutlierImputer.feat_with_outliers OutlierImputer.init) ->
   issubset (OutlierImputer.feat_with_outliers OutlierImputer.init) (columns d) = true ->
   OutlierImputer.transform OutlierImputer.init df s = Raise TypeError)
  /\ (In c (SkewnessHandler.col_with_skewness SkewnessHandler.init) ->
      issubset (SkewnessHandler.col_with_skewness SkewnessHandler.init) (columns d) = true ->
      SkewnessHandler.transform SkewnessHandler.init df s = Raise TypeError)
  /\ (In c (MinMaxWithFeatNames.min_max_scaler_ft MinMaxWithFeatNames.init) ->
      issubset (MinMaxWithFeatNames.min_max_scaler_ft MinMaxWithFeatNames.init) (columns d) = true ->
      holds_unreadable_text c d ->
      MinMaxWithFeatNames.transform MinMaxWithFeatNames.init df s = Raise ValueError).
Proof.
  intros Hd Htext. split; [|split]; intros Hc Hg; [| |intros (t & Hin & Hbad)].
  - rewrite (OutlierImputer_run s df d Hd _ Hg). unfold OutlierImputer.body, df_quantile.
    rewrite (rmap_raise _ _ c TypeError); [reflexivity | exact Hc | |].
    + unfold quantile. rewrite numeric_values_raise by exact Htext. reflexivity.
    + intros y e' _. unfold quantile.
      destruct (numeric_values TypeError (column y d)) as [xs|e''] eqn:E; [discriminate |].
      apply numeric_values_raises_only in E. simpl. congruence.
  - rewrite (SkewnessHandler_run s df d Hd _ Hg). unfold SkewnessHandler.body.
    rewrite (rmap_raise _ _ c TypeError); [reflexivity | exact Hc | |].
    + rewrite np_cbrt_text by exact Htext. reflexivity.
    + intros y e' _. destruct (np_cbrt (column y d)) as [v|e''] eqn:E; [discriminate |].
      apply np_cbrt_raises_only in E. simpl. congruence.
  - rewrite (MinMaxWithFeatNames_run s df d Hd _ Hg). unfold MinMaxWithFeatNames.body.
    destruct (Nat.eqb (nrows d) 0); [reflexivity |].
    rewrite (rmap_raise _ _ c ValueError); [reflexivity | exact Hc | |].
    + rewrite (MinMaxScaler_unreadable _ t Hin Hbad). reflexivity.
    + intros y e' _.
      destruct (MinMaxScaler.fit_transform (column y d)) as [v|e''] eqn:E; [discriminate |].
      apply MinMaxScaler_raises_only in E. simpl. congruence.
Qed.

Lemma text_in_the_income_column_raises :
  OutlierImputer.transform OutlierImputer.init 0%nat
    {| heap := [sample_with_text]; stdout := [] |} = Raise TypeError
  /\ @MinMaxWithFeatNames.transform example_numpy MinMaxWithFeatNames.init 0%nat
       {| heap := [sample_with_text]; stdout := [] |} = Raise ValueError.
Proof.
  destruct (@text_in_a_numeric_column_raises example_numpy
              {| heap := [sample_with_text]; stdout := [] |} 0%nat sample_with_text
              "Income (USD)" eq_refl) as (Hout & _ & Hmm).
  - vm_compute. reflexivity.
  - split; [apply Hout; first [simpl; tauto | vm_compute; reflexivity] |].
    apply Hmm; [simpl; tauto | vm_compute; reflexivity |].
    exists "n/a". split; [vm_compute; tauto | reflexivity].
Defined.

(** ** MissingValueImputer: what is filled in, and when it raises *)

Lemma mode_fill_inv_mode l w :
  mode_fill l = Ok w -> exists m rest, mode l = m :: rest /\ w = fillna m l.
Proof.
  unfold mode_fill. destruct (mode l) as [|m rest]; [discriminate |].
  intros [= <-]. eauto.
Qed.

Lemma median_fill_inv_median l w :
  median_fill l = Ok w -> exists m, median l = Ok m /\ w = fillna (of_fnum m) l.
Proof.
  unfold median_fill. destruct (median l) as [m|e]; [|discriminate].
  simpl. intros [= <-]. eauto.
Qed.

Lemma fillna_no_missing m l :
  isna m = false -> forallb (fun v => negb (isna v)) (fillna m l) = true.
Proof.
  intros Hm. unfold fillna. apply forallb_forall. intros x Hx.
  apply in_map_iff in Hx. destruct Hx as (y & <- & _).
  destruct (isna y) eqn:E; [rewrite Hm | rewrite E]; reflexivity.
Qed.

(** X6.  When the missing-value imputer returns on a well-formed frame
    holding its columns, the frame it was given now consists of exactly the
    rows that had a target; in each mode-imputed column the missing cells hold
    the column's first mode and in each median-imputed column the column's
    median (the float64 mean of the one or two middle values), both taken
    over the remaining rows; every other cell is
    unchanged; the target and the mode-imputed columns have no missing cell
    left. *)
Theorem missing_value_imputer_fills_with_mode_and_median
    (s s' : store) (df r : ref) (d : DataFrame) :
  heap s !! df = Some d ->
  issubset (MissingValueImputer.mode_imputed_ft MissingValueImputer.init
            ++ MissingValueImputer.median_imputed_ft MissingValueImputer.init)
           (columns d) = true ->
  well_formed d ->
  MissingValueImputer.transform MissingValueImputer.init df s = Ok (r, s') ->
  let modes := MissingValueImputer.mode_imputed_ft MissingValueImputer.init in
  let medians := MissingValueImputer.median_imputed_ft MissingValueImputer.init in
  let d1 := take_rows (has_target d) d in
  exists d',
    r = df /\ s' = written s df d'
    /\ In target (columns d)
    /\ index d' = mask_select (has_target d) (index d)
    /\ columns d' = columns d
    /\ well_formed d'
    /\ (forall c, In c modes ->
          exists m rest, mode (column c d1) = m :: rest
                         /\ column c d' = fillna m (column c d1))
    /\ (forall c, In c medians ->
          exists m, median (column c d1) = Ok m
                    /\ column c d' = fillna (of_fnum m) (column c d1))
    /\ (forall c, ~ In c (modes ++ medians) ->
          column c d' = mask_select (has_target d) (column c d))
    /\ no_missing (target :: modes) d'.
Proof.
  intros Hd Hg Hwf Hrun modes medians d1.
  rewrite (MissingValueImputer_run s df d Hd _ Hg) in Hrun.
  destruct (MissingValueImputer.body MissingValueImputer.init d) as [d'|e] eqn:Hb; [|discriminate].
  injection Hrun as <- <-. exists d'. split; [reflexivity |]. split; [reflexivity |].
  pose proof (proj1 (issubset_true_iff _ _) Hg) as Hsub.
  unfold MissingValueImputer.body, MissingValueImputer.dropna in Hb.
  destruct (mem target (columns d)) eqn:Ht; [|discriminate]. cbn [rbind] in Hb.
  fold (has_target d) in Hb. fold d1 in Hb. fold modes medians in Hb, Hsub.
  assert (Hnd1 : List.NoDup modes) by (unfold modes; simpl; solve_NoDup).
  assert (Hnd2 : List.NoDup medians) by (unfold medians; simpl; solve_NoDup).
  assert (Hcols1 : columns d1 = columns d) by apply columns_take_rows.
  rewrite (rfold_ext _ (colwise mode_fill)) in Hb by (intros; apply impute_mode_colwise).
  destruct (rfold (colwise mode_fill) modes d1) as [d2|e] eqn:Hd2; [|discriminate].
  cbn [rbind] in Hb.
  rewrite (rfold_ext _ (colwise median_fill)) in Hb by (intros; apply impute_median_colwise).
  destruct (rfold_colwise_inv mode_fill modes d1 d2 Hnd1 Hd2) as (Hi2 & Hin2 & Hout2 & Hn2 & Hwf2).
  destruct (rfold_colwise_inv median_fill medians d2 d' Hnd2 Hb) as (Hi3 & Hin3 & Hout3 & Hn3 & Hwf3).
  assert (Hcols2 : columns d2 = columns d).
  { rewrite Hn2; [exact Hcols1 |]. intros c Hc. rewrite Hcols1. apply Hsub, in_or_app. auto. }
  assert (Hmode : forall c, In c modes ->
            exists m rest, mode (column c d1) = m :: rest
                           /\ column c d' = fillna m (column c d1)).
  { intros c Hc. rewrite Hout3 by (intros Hc'; apply (mode_median_disjoint c Hc' Hc)).
    apply mode_fill_inv_mode, Hin2, Hc. }
  assert (Hrest : forall c, ~ In c (modes ++ medians) ->
            column c d' = mask_select (has_target d) (column c d)).
  { intros c Hc. rewrite Hout3, Hout2; [apply column_take_rows | |];
      intros Hc'; apply Hc, in_or_app; auto. }
  split; [apply mem_true_iff, Ht |]. split; [rewrite Hi3, Hi2; reflexivity |].
  split; [rewrite Hn3; [exact Hcols2 |]; intros c Hc; rewrite Hcols2; apply Hsub, in_or_app; auto |].
  split.
  { apply Hwf3.
    - apply median_fill_length.
    - intros c Hc. rewrite Hcols2. apply Hsub, in_or_app. auto.
    - apply Hwf2.
      + apply mode_fill_length.
      + intros c Hc. rewrite Hcols1. apply Hsub, in_or_app. auto.
      + apply well_formed_take_rows, Hwf. }
  split; [exact Hmode |]. split; [|split; [exact Hrest |]].
  - intros c Hc. specialize (Hin3 c Hc).
    rewrite Hout2 in Hin3 by (apply mode_median_disjoint, Hc).
    apply median_fill_inv_median, Hin3.
  - intros c [<-|Hc].
    + rewrite Hrest by (unfold modes, medians; simpl; intuition discriminate).
      apply forallb_forall. intros x Hx.
      apply In_mask_select_row_mask in Hx. destruct Hx as (i & Hi & Hp).
      apply nth_error_cell in Hi. rewrite Hi in Hp. exact Hp.
    + destruct (Hmode c Hc) as (m & rest & Hm & ->).
      apply fillna_no_missing. apply (mode_In _ _ _ Hm).
Qed.

Lemma missing_value_imputer_on_the_sample :
  exists d',
    MissingValueImputer.transform MissingValueImputer.init 0%nat sample_store
    = Ok (0%nat, written sample_store 0%nat d')
    /\ index d' = [0%Z; 1%Z; 3%Z]
    /\ column "Dependents" d' = [num 2; num 1; num 1].
Proof.
  assert (Hrun : exists d0, MissingValueImputer.transform MissingValueImputer.init 0%nat sample_store
                            = Ok (0%nat, written sample_store 0%nat d0)).
  { eexists. vm_compute. reflexivity. }
  destruct Hrun as (d0 & Hrun).
  destruct (missing_value_imputer_fills_with_mode_and_median sample_store
              (written sample_store 0%nat d0) 0%nat 0%nat sample_train)
    as (d' & _ & Hs & _ & Hidx & _ & _ & Hmode & _).
  - reflexivity.
  - vm_compute. reflexivity.
  - unfold well_formed. repeat constructor.
  - exact Hrun.
  - exists d'. rewrite Hs in Hrun. split; [exact Hrun |]. split.
    + rewrite Hidx. vm_compute. reflexivity.
    + destruct (Hmode "Dependents") as (m & rest & Hm & ->); [simpl; tauto |].
      vm_compute in Hm. injection Hm as <- _. vm_compute. reflexivity.
Defined.

Lemma mode_all_missing l : forallb isna l = true -> mode l = [].
Proof.
  intros Hl. unfold mode.
  assert (E : List.filter (fun v => negb (isna v)) l = []).
  { induction l as [|x l IH]; simpl; [reflexivity |]. simpl in Hl.
    apply andb_true_iff in Hl. destruct Hl as [Hx Hl]. rewrite Hx. simpl. auto. }
  rewrite E. reflexivity.
Qed.

Lemma MissingValueImputer_no_mode (s : store) (df : ref) (d : DataFrame) :
  heap s !! df = Some d ->
  issubset (MissingValueImputer.mode_imputed_ft MissingValueImputer.init
            ++ MissingValueImputer.median_imputed_ft MissingValueImputer.init)
           (columns d) = true ->
  In target (columns d) ->
  forallb isna (column "Gender" (take_rows (has_target d) d)) = true ->
  MissingValueImputer.transform MissingValueImputer.init df s = Raise (KeyError "0").
Proof.
  intros Hd Hg Ht Hmiss.
  rewrite (MissingValueImputer_run s df d Hd _ Hg).
  unfold MissingValueImputer.body, MissingValueImputer.dropna.
  apply mem_true_iff in Ht. rewrite Ht. cbn [rbind]. fold (has_target d).
  cbn [MissingValueImputer.mode_imputed_ft MissingValueImputer.init rfold].
  unfold MissingValueImputer.impute_mode at 1.
  rewrite (mode_all_missing _ Hmiss). reflexivity.
Qed.

(** X7.  The imputer takes [mode()[0]] without checking that a mode exists:
    when no row with a target has a value in "Gender" (in particular when the
    frame has no rows) the transform raises [KeyError] instead of returning. *)
Theorem missing_value_imputer_raises_without_a_mode
    (s : store) (df : ref) (d : DataFrame) :
  heap s !! df = Some d ->
  issubset (MissingValueImputer.mode_imputed_ft MissingValueImputer.init
            ++ MissingValueImputer.median_imputed_ft MissingValueImputer.init)
           (columns d) = true ->
  In target (columns d) ->
  forallb isna (column "Gender" (take_rows (has_target d) d)) = true ->
  MissingValueImputer.transform MissingValueImputer.init df s = Raise (KeyError "0").
Proof. exact (MissingValueImputer_no_mode s df d). Qed.

Lemma empty_frame_has_no_gender names :
  forallb isna (column "Gender" (take_rows (has_target (empty_frame names)) (empty_frame names)))
  = true.
Proof.
  rewrite column_take_rows. unfold has_target, row_mask. simpl. reflexivity.
Qed.

Lemma missing_value_imputer_on_the_empty_frame :
  MissingValueImputer.transform MissingValueImputer.init 0%nat
    {| heap := [empty_frame train_columns]; stdout := [] |} = Raise (KeyError "0").
Proof.
  apply (missing_value_imputer_raises_without_a_mode
           {| heap := [empty_frame train_columns]; stdout := [] |} 0%nat
           (empty_frame train_columns)).
  - reflexivity.
  - vm_compute. reflexivity.
  - apply mem_true_iff. vm_compute. reflexivity.
  - apply empty_frame_has_no_gender.
Defined.

(** ** MinMaxWithFeatNames on a constant or empty column *)

Lemma float64_fl (q : Q) : float64 q -> exists q' : Q, fl q = Fin q' /\ q' == q.
Proof.
  unfold float64. destruct (fl q) as [q'|b]; simpl; [|discriminate].
  intros Hq. exists q'. split; [reflexivity | apply Qeq_bool_iff, Hq].
Qed.

Lemma is_float64_finite v : is_float64 v = true -> is_finite v = true.
Proof. destruct v as [[q|b]|t|]; simpl; congruence. Qed.

(** A float64 value that is both the minimum and the maximum of its column
    is scaled by 1 and shifted by its own opposite. *)
Lemma scaled_value_constant (lo hi x : Q) :
  float64 x -> lo == hi -> x == lo ->
  MinMaxScaler.scale_cell lo hi (VNum x) = VNum 0.
Proof.
  intros Fx Heq Hx. destruct (float64_fl x Fx) as (x' & Ex & Hx').
  assert (Hscale : MinMaxScaler.scale_ lo hi = Some (Fin 1)).
  { unfold MinMaxScaler.scale_, MinMaxScaler.handle_zeros_in_scale.
    cbn [fsub option_map number_opp fadd]. rewrite (fl_zero (hi + - lo)) by lra.
    vm_compute. reflexivity. }
  assert (Hmul : forall q : Q, q == x -> fmul (Some (Fin q)) (Some (Fin 1)) = Some (Fin x')).
  { intros q Hq. cbn [fmul]. rewrite (fl_Proper (q * 1) x) by lra. rewrite Ex. reflexivity. }
  unfold MinMaxScaler.scale_cell, MinMaxScaler.min_. rewrite Hscale.
  rewrite (Hmul x) by reflexivity. rewrite (Hmul lo) by lra.
  cbn [fsub option_map number_opp fadd].
  rewrite (fl_Proper (0 + - x') (- x)) by lra. rewrite fl_opp, Ex.
  cbn [number_opp]. rewrite (fl_zero (x' + - x')) by lra. reflexivity.
Qed.

(** X8.  The degenerate cases of the range normalizer.  On a non-empty
    frame whose seven declared columns hold finite float64 numbers and
    missing cells, a column whose minimum equals its maximum has all its
    numbers mapped to 0 (the scaler divides by 1 instead of by the zero
    range), and a column without any number is left as it is; the transform
    returns in both cases. *)
Theorem range_normalizer_maps_a_constant_column_to_zero `{NumPy}
    (s : store) (df : ref) (d : DataFrame) :
  heap s !! df = Some d ->
  nrows d <> 0%nat ->
  issubset (MinMaxWithFeatNames.min_max_scaler_ft MinMaxWithFeatNames.init) (columns d) = true ->
  (forall c, In c (MinMaxWithFeatNames.min_max_scaler_ft MinMaxWithFeatNames.init) ->
             float64_column c d) ->
  let fs := MinMaxWithFeatNames.min_max_scaler_ft MinMaxWithFeatNames.init in
  exists d',
    MinMaxWithFeatNames.transform MinMaxWithFeatNames.init df s = Ok (df, written s df d')
    /\ (forall c i (x lo hi : Q),
          In c fs -> data_min d c = Some (Fin lo) -> data_max d c = Some (Fin hi) -> lo == hi ->
          cell d c i = VNum x ->
          exists y : Q, cell d' c i = VNum y /\ y == 0)
    /\ (forall c, In c fs -> data_min d c = None -> column c d' = column c d).
Proof.
  intros Hd Hrows Hg Hnum fs.
  assert (Hfin : forall c, In c fs -> forallb is_finite (column c d) = true).
  { intros c Hc. apply (forallb_impl _ _ _ is_float64_finite), Hnum, Hc. }
  assert (Hnd : List.NoDup fs) by (unfold fs; simpl; solve_NoDup).
  set (h := fun c => unwrap (MinMaxScaler.fit_transform (column c d))).
  destruct (setitems_tagged h fs d Hnd) as (_ & Hin & _).
  exists (setitems (map (fun c => (c, h c)) fs) d).
  split; [|split].
  - rewrite (MinMaxWithFeatNames_run s df d Hd _ Hg). unfold MinMaxWithFeatNames.body.
    apply Nat.eqb_neq in Hrows. rewrite Hrows.
    rewrite (rmap_tagged MinMaxScaler.fit_transform); [reflexivity |].
    intros c Hc. rewrite MinMaxScaler_fit_transform_finite by (apply Hfin, Hc). eauto.
  - intros c i x lo hi Hc Hlo Hhi Heq Hx.
    assert (Hcell : In (VNum (Fin x)) (column c d)).
    { apply (cell_In d c i); [exact Hx | discriminate]. }
    assert (Hxin : In (Fin x) (numbers (column c d))) by (apply In_numbers, Hcell).
    assert (Fx : float64 x).
    { pose proof (Hnum c Hc) as Hall. unfold float64_column in Hall.
      rewrite forallb_forall in Hall. apply (Hall _ Hcell). }
    assert (Hxlo : x == lo).
    { pose proof (fmin_list_le _ _ _ Hlo Hxin) as H1.
      pose proof (fmax_list_ge _ _ _ Hhi Hxin) as H2.
      apply number_leb_Fin in H1, H2. lra. }
    exists 0. split; [|reflexivity].
    unfold cell. rewrite (Hin c Hc). unfold h.
    rewrite MinMaxScaler_fit_transform_finite by (apply Hfin, Hc).
    unfold data_min, data_max in Hlo, Hhi. rewrite Hlo, Hhi. simpl.
    rewrite (nth_map_default (MinMaxScaler.scale_cell lo hi) _ VNaN) by reflexivity.
    unfold cell in Hx. rewrite Hx. apply scaled_value_constant; assumption.
  - intros c Hc Hnone. rewrite (Hin c Hc). unfold h.
    rewrite MinMaxScaler_fit_transform_finite by (apply Hfin, Hc).
    unfold data_min in Hnone. rewrite Hnone. reflexivity.
Qed.

Lemma range_normalizer_on_a_constant_age :
  exists d' (y : Q),
    @MinMaxWithFeatNames.transform example_numpy MinMaxWithFeatNames.init 0%nat
      {| heap := [sample_same_age]; stdout := [] |}
    = Ok (0%nat, written {| heap := [sample_same_age]; stdout := [] |} 0%nat d')
    /\ cell d' "Age" 2 = VNum y /\ y == 0.
Proof.
  destruct (@range_normalizer_maps_a_constant_column_to_zero example_numpy
              {| heap := [sample_same_age]; stdout := [] |} 0%nat sample_same_age)
    as (d' & Hrun & Hconst & _).
  - reflexivity.
  - vm_compute. discriminate.
  - vm_compute. reflexivity.
  - intros c Hc. by_cases Hc.
  - destruct (Hconst "Age" 2%nat 40 40 40) as (y & Hy & Hzero);
      try reflexivity; [simpl; tauto |].
    exists d', y. auto.
Defined.

(** ** Rows are only ever removed *)

Lemma index_setitems news df : index (setitems news df) = index df.
Proof.
  unfold setitems. revert df. induction news as [|kv news IH]; intros df; simpl;
    [reflexivity | rewrite IH; reflexivity].
Qed.

Lemma rfold_colwise_index g cs : forall df df',
  rfold (colwise g) cs df = Ok df' -> index df' = index df.
Proof.
  induction cs as [|k cs IH]; intros df df' Hr; simpl in Hr.
  - injection Hr as <-. reflexivity.
  - unfold colwise in Hr at 1. destruct (g (column k df)) as [v|e]; [|discriminate].
    simpl in Hr. rewrite (IH _ _ Hr). reflexivity.
Qed.

Lemma OutlierImputer_body_index self d d' :
  OutlierImputer.body self d = Ok d' -> exists keep, index d' = mask_select keep (index d).
Proof.
  unfold OutlierImputer.body. intros Hb.
  destruct (df_quantile (1 # 4) _ d) as [Q1|e]; [|discriminate]. cbn [rbind] in Hb.
  destruct (df_quantile (3 # 4) _ d) as [Q3|e]; [|discriminate]. cbn [rbind] in Hb.
  injection Hb as <-. eexists. reflexivity.
Qed.

Lemma MissingValueImputer_body_index self d d' :
  MissingValueImputer.body self d = Ok d' -> index d' = mask_select (has_target d) (index d).
Proof.
  unfold MissingValueImputer.body, MissingValueImputer.dropna. intros Hb.
  destruct (mem target (columns d)); [|discriminate]. cbn [rbind] in Hb.
  rewrite (rfold_ext _ (colwise mode_fill)) in Hb by (intros; apply impute_mode_colwise).
  destruct (rfold (colwise mode_fill) _ _) as [d2|e] eqn:Hd2; [|discriminate].
  cbn [rbind] in Hb.
  rewrite (rfold_ext _ (colwise median_fill)) in Hb by (intros; apply impute_median_colwise).
  rewrite (rfold_colwise_index _ _ _ _ Hb), (rfold_colwise_index _ _ _ _ Hd2). reflexivity.
Qed.

Lemma SkewnessHandler_body_index `{NumPy} self d d' :
  SkewnessHandler.body self d = Ok d' -> index d' = index d.
Proof.
  unfold SkewnessHandler.body. destruct (rmap _ _) as [news|e]; [|discriminate].
  simpl. intros [= <-]. apply index_setitems.
Qed.

Lemma MinMaxWithFeatNames_body_index `{NumPy} self d d' :
  MinMaxWithFeatNames.body self d = Ok d' -> index d' = index d.
Proof.
  unfold MinMaxWithFeatNames.body. destruct (Nat.eqb (nrows d) 0); [discriminate |].
  destruct (rmap _ _) as [news|e]; [|discriminate].
  simpl. intros [= <-]. apply index_setitems.
Qed.

Lemma OneHotWithFeatNames_body_index `{NumPy} self d d' :
  OneHotWithFeatNames.body self d = Ok d' -> index d' = index d.
Proof.
  unfold OneHotWithFeatNames.body, OneHotWithFeatNames.one_hot_enc.
  destruct (Nat.eqb (nrows d) 0); [discriminate |].
  destruct (rmap _ _) as [vocabulary|e]; [|discriminate].
  simpl. intros [= <-]. reflexivity.
Qed.

Lemma only_removes_rows_bind (T1 T2 : ref -> M ref) :
  only_removes_rows T1 -> only_removes_rows T2 ->
  only_removes_rows (fun df => bind (T1 df) T2).
Proof.
  intros H1 H2 s s' df r d Hd Hrun. unfold bind in Hrun.
  destruct (T1 df s) as [[r1 s1]|e] eqn:E1; [|discriminate].
  destruct (H1 s s1 df r1 d Hd E1) as (d1 & Hd1 & Hsub1).
  destruct (H2 s1 s' r1 r d1 Hd1 Hrun) as (d' & Hd' & Hsub2).
  exists d'. split; [exact Hd' | etransitivity; eassumption].
Qed.

Section OnlyRemovesRows.
Context `{NumPy}.

Ltac kept_as_is Hd :=
  match goal with
  | Hrun : Ok (_, printed _ _) = Ok (_, _) |- _ =>
      injection Hrun as <- <-; eexists; split; [exact Hd | reflexivity]
  end.

Lemma DropFeatures_only_removes_rows :
  only_removes_rows (DropFeatures.transform DropFeatures.init).
Proof.
  intros s s' df r d Hd Hrun.
  destruct (issubset (DropFeatures.feature_to_drop DropFeatures.init) (columns d)) eqn:Hg.
  - rewrite (DropFeatures_run s df d Hd _ Hg) in Hrun. injection Hrun as <- <-.
    eexists. split; [eapply written_here, Hd | reflexivity].
  - rewrite (DropFeatures_skip s df d Hd _ Hg) in Hrun. kept_as_is Hd.
Qed.

Lemma OutlierImputer_only_removes_rows :
  only_removes_rows (OutlierImputer.transform OutlierImputer.init).
Proof.
  intros s s' df r d Hd Hrun.
  destruct (issubset (OutlierImputer.feat_with_outliers OutlierImputer.init) (columns d)) eqn:Hg.
  - rewrite (OutlierImputer_run s df d Hd _ Hg) in Hrun.
    destruct (OutlierImputer.body OutlierImputer.init d) as [d'|e] eqn:Hb; [|discriminate].
    injection Hrun as <- <-. exists d'. split; [apply allocated_new |].
    destruct (OutlierImputer_body_index _ _ _ Hb) as (keep & ->). apply sublist_mask_select.
  - rewrite (OutlierImputer_skip s df d Hd _ Hg) in Hrun. kept_as_is Hd.
Qed.

Lemma DropUncommonProfession_only_removes_rows :
  only_removes_rows (DropUncommonProfession.transform DropUncommonProfession.init).
Proof.
  intros s s' df r d Hd Hrun.
  destruct (mem "Profession" (columns d)) eqn:Hg.
  - rewrite (DropUncommonProfession_run s df d Hd _ Hg) in Hrun. injection Hrun as <- <-.
    eexists. split; [apply allocated_new | apply sublist_mask_select].
  - rewrite (DropUncommonProfession_skip s df d Hd _ Hg) in Hrun. kept_as_is Hd.
Qed.

Lemma MissingValueImputer_only_removes_rows :
  only_removes_rows (MissingValueImputer.transform MissingValueImputer.init).
Proof.
  intros s s' df r d Hd Hrun.
  destruct (issubset (MissingValueImputer.mode_imputed_ft MissingValueImputer.init
                      ++ MissingValueImputer.median_imputed_ft MissingValueImputer.init)
                     (columns d)) eqn:Hg.
  - rewrite (MissingValueImputer_run s df d Hd _ Hg) in Hrun.
    destruct (MissingValueImputer.body MissingValueImputer.init d) as [d'|e] eqn:Hb; [|discriminate].
    injection Hrun as <- <-. exists d'. split; [eapply written_here, Hd |].
    rewrite (MissingValueImputer_body_index _ _ _ Hb). apply sublist_mask_select.
  - rewrite (MissingValueImputer_skip s df d Hd _ Hg) in Hrun. kept_as_is Hd.
Qed.

Lemma ValueImputer_only_removes_rows :
  only_removes_rows (ValueImputer.transform ValueImputer.init).
Proof.
  intros s s' df r d Hd Hrun.
  destruct (issubset (ValueImputer.feat_with_999_val ValueImputer.init) (columns d)) eqn:Hg.
  - rewrite (ValueImputer_run s df d Hd _ Hg) in Hrun. injection Hrun as <- <-.
    eexists. split; [eapply written_here, Hd |].
    assert (Hnd : List.NoDup (ValueImputer.feat_with_999_val ValueImputer.init))
      by (simpl; solve_NoDup).
    destruct (ValueImputer_body_spec ValueImputer.init d Hnd) as (-> & _). reflexivity.
  - rewrite (ValueImputer_skip s df d Hd _ Hg) in Hrun. kept_as_is Hd.
Qed.

Lemma SkewnessHandler_only_removes_rows :
  only_removes_rows (SkewnessHandler.transform SkewnessHandler.init).
Proof.
  intros s s' df r d Hd Hrun.
  destruct (issubset (SkewnessHandler.col_with_skewness SkewnessHandler.init) (columns d)) eqn:Hg.
  - rewrite (SkewnessHandler_run s df d Hd _ Hg) in Hrun.
    destruct (SkewnessHandler.body SkewnessHandler.init d) as [d'|e] eqn:Hb; [|discriminate].
    injection Hrun as <- <-. exists d'. split; [eapply written_here, Hd |].
    rewrite (SkewnessHandler_body_index _ _ _ Hb). reflexivity.
  - rewrite (SkewnessHandler_skip s df d Hd _ Hg) in Hrun. kept_as_is Hd.
Qed.

Lemma MinMaxWithFeatNames_only_removes_rows :
  only_removes_rows (MinMaxWithFeatNames.transform MinMaxWithFeatNames.init).
Proof.
  intros s s' df r d Hd Hrun.
  destruct (issubset (MinMaxWithFeatNames.min_max_scaler_ft MinMaxWithFeatNames.init) (columns d))
    eqn:Hg.
  - rewrite (MinMaxWithFeatNames_run s df d Hd _ Hg) in Hrun.
    destruct (MinMaxWithFeatNames.body MinMaxWithFeatNames.init d) as [d'|e] eqn:Hb; [|discriminate].
    injection Hrun as <- <-. exists d'. split; [eapply written_here, Hd |].
    rewrite (MinMaxWithFeatNames_body_index _ _ _ Hb). reflexivity.
  - rewrite (MinMaxWithFeatNames_skip s df d Hd _ Hg) in Hrun. kept_as_is Hd.
Qed.

Lemma OneHotWithFeatNames_only_removes_rows :
  only_removes_rows (OneHotWithFeatNames.transform OneHotWithFeatNames.init).
Proof.
  intros s s' df r d Hd Hrun.
  destruct (issubset (OneHotWithFeatNames.one_hot_enc_ft OneHotWithFeatNames.init) (columns d))
    eqn:Hg.
  - rewrite (OneHotWithFeatNames_run s df d Hd _ Hg) in Hrun.
    destruct (OneHotWithFeatNames.body OneHotWithFeatNames.init d) as [d'|e] eqn:Hb; [|discriminate].
    injection Hrun as <- <-. exists d'. split; [apply allocated_new |].
    rewrite (OneHotWithFeatNames_body_index _ _ _ Hb). reflexivity.
  - rewrite (OneHotWithFeatNames_skip s df d Hd _ Hg) in Hrun. kept_as_is Hd.
Qed.

End OnlyRemovesRows.

(** X9.  No step adds, duplicates or reorders rows: whenever one of the
    eight transformers returns, the reference it returns holds a frame whose
    index is a subsequence of the index of the frame it was given, and the
    same holds for [full_pipeline] as a whole. *)
Theorem pipeline_only_removes_rows `{NumPy} :
  only_removes_rows (DropFeatures.transform DropFeatures.init)
  /\ only_removes_rows (OutlierImputer.transform OutlierImputer.init)
  /\ only_removes_rows (DropUncommonProfession.transform DropUncommonProfession.init)
  /\ only_removes_rows (MissingValueImputer.transform MissingValueImputer.init)
  /\ only_removes_rows (ValueImputer.transform ValueImputer.init)
  /\ only_removes_rows (SkewnessHandler.transform SkewnessHandler.init)
  /\ only_removes_rows (MinMaxWithFeatNames.transform MinMaxWithFeatNames.init)
  /\ only_removes_rows (OneHotWithFeatNames.transform OneHotWithFeatNames.init)
  /\ only_removes_rows full_pipeline.
Proof.
  repeat match goal with |- _ /\ _ => split end.
  - apply DropFeatures_only_removes_rows.
  - apply OutlierImputer_only_removes_rows.
  - apply DropUncommonProfession_only_removes_rows.
  - apply MissingValueImputer_only_removes_rows.
  - apply ValueImputer_only_removes_rows.
  - apply SkewnessHandler_only_removes_rows.
  - apply MinMaxWithFeatNames_only_removes_rows.
  - apply OneHotWithFeatNames_only_removes_rows.
  - intros s s' df r d Hd Hrun. rewrite full_pipeline_chain in Hrun.
    revert s s' df r d Hd Hrun.
    change (only_removes_rows
              (fun df =>
                 d1 <- DropFeatures.transform DropFeatures.init df ;;
                 d2 <- OutlierImputer.transform OutlierImputer.init d1 ;;
                 d3 <- DropUncommonProfession.transform DropUncommonProfession.init d2 ;;
                 d4 <- MissingValueImputer.transform MissingValueImputer.init d3 ;;
                 d5 <- ValueImputer.transform ValueImputer.init d4 ;;
                 d6 <- SkewnessHandler.transform SkewnessHandler.init d5 ;;
                 d7 <- MinMaxWithFeatNames.transform MinMaxWithFeatNames.init d6 ;;
                 OneHotWithFeatNames.transform OneHotWithFeatNames.init d7)).
    apply only_removes_rows_bind; [apply DropFeatures_only_removes_rows |].
    apply only_removes_rows_bind; [apply OutlierImputer_only_removes_rows |].
    apply only_removes_rows_bind; [apply DropUncommonProfession_only_removes_rows |].
    apply only_removes_rows_bind; [apply MissingValueImputer_only_removes_rows |].
    apply only_removes_rows_bind; [apply ValueImputer_only_removes_rows |].
    apply only_removes_rows_bind; [apply SkewnessHandler_only_removes_rows |].
    apply only_removes_rows_bind; [apply MinMaxWithFeatNames_only_removes_rows |].
    apply OneHotWithFeatNames_only_removes_rows.
Qed.

Lemma pipeline_on_the_combined_sample_only_removes_rows :
  let s := {| heap := [combined sample_train sample_form]; stdout := [] |} in
  exists r s' d',
    @full_pipeline example_numpy 0%nat s = Ok (r, s')
    /\ heap s' !! r = Some d'
    /\ sublist (index d') [0%Z; 1%Z; 2%Z; 3%Z; 4%Z].
Proof.
  intros s.
  assert (Hrun : exists r s', @full_pipeline example_numpy 0%nat s = Ok (r, s')).
  { eexists _, _. vm_compute. reflexivity. }
  destruct Hrun as (r & s' & Hrun).
  destruct (@pipeline_only_removes_rows example_numpy) as (_ & _ & _ & _ & _ & _ & _ & _ & Hpipe).
  destruct (Hpipe s s' 0%nat r (combined sample_train sample_form) eq_refl Hrun)
    as (d' & Hd' & Hsub).
  exists r, s', d'. auto.
Defined.

(** ** The pipeline on a frame without rows *)

Lemma lookup_col_filter_out (p : string -> bool) c l :
  p c = false -> lookup_col c (List.filter (fun kv => p (fst kv)) l) = None.
Proof.
  intros Hp. induction l as [|[k w] l IH]; simpl; [reflexivity |].
  destruct (p k) eqn:Hk; simpl; [|exact IH].
  destruct (String.eqb_spec k c) as [->|Hne]; [congruence | exact IH].
Qed.

Lemma columns_without_rows d c : well_formed d -> nrows d = 0%nat -> column c d = [].
Proof.
  intros Hwf Hn. unfold column.
  destruct (getitem c d) as [v|] eqn:Hv; [|reflexivity].
  assert (Hc : In c (columns d)) by (apply lookup_col_Some_iff; eauto).
  pose proof (well_formed_column c d Hwf Hc) as Hlen. unfold column in Hlen.
  rewrite Hv, Hn in Hlen. destruct v; [reflexivity | discriminate].
Qed.

Lemma In_columns_drop_columns c cs d :
  In c (columns d) -> ~ In c cs -> In c (columns (drop_columns cs d)).
Proof.
  intros Hc Hn. rewrite columns_drop_columns. apply filter_In. split; [exact Hc |].
  apply mem_false_iff in Hn. rewrite Hn. reflexivity.
Qed.

(** X10.  The pipeline does not return on an input without rows: for a
    well-formed frame that has the columns of the training layout and no row,
    the first three steps pass the empty frame on and the missing-value
    imputer raises [KeyError] when it takes the mode of "Gender", so
    [full_pipeline] raises. *)
Theorem full_pipeline_raises_on_a_frame_without_rows `{NumPy}
    (s : store) (df : ref) (d : DataFrame) :
  heap s !! df = Some d ->
  well_formed d ->
  nrows d = 0%nat ->
  issubset train_columns (columns d) = true ->
  full_pipeline df s = Raise (KeyError "0").
Proof.
  intros Hd Hwf Hn Hsub. pose proof (proj1 (issubset_true_iff _ _) Hsub) as Hin.
  rewrite full_pipeline_chain.
  (* drop features *)
  set (d1 := drop_columns (DropFeatures.feature_to_drop DropFeatures.init) d).
  erewrite bind_Ok.
  2:{ apply (DropFeatures_run s df d Hd). apply issubset_true_iff. intros c Hc. apply Hin.
      revert Hc. simpl. intuition (subst; simpl; tauto). }
  fold d1. set (s1 := written s df d1).
  assert (H1 : heap s1 !! df = Some d1) by (eapply written_here, Hd).
  assert (Hwf1 : well_formed d1) by apply well_formed_drop_columns, Hwf.
  assert (Hcols1 : forall c, In c kept_columns -> In c (columns d1)).
  { intros c Hc. apply In_columns_drop_columns;
      [apply Hin, In_train_columns, Hc | apply kept_not_dropped, Hc]. }
  assert (He1 : forall c, column c d1 = []) by (intros c; apply columns_without_rows; assumption).
  (* outlier remover *)
  set (d2 := take_rows
               (row_mask d1 (fun i => negb (outlier_row
                                              (OutlierImputer.feat_with_outliers OutlierImputer.init)
                                              d1 i))) d1).
  erewrite bind_Ok.
  2:{ rewrite (OutlierImputer_run s1 df d1 H1).
      - rewrite OutlierImputer_body_numeric; [reflexivity |].
        intros c _. unfold numeric_column. rewrite He1. reflexivity.
      - apply issubset_true_iff. intros c Hc. apply Hcols1, In_kept_columns.
        apply in_or_app. right. apply in_or_app. left. apply outlier_features_numeric, Hc. }
  fold d2. set (s2 := allocated s1 d2). set (r2 := length (heap s1)).
  assert (H2 : heap s2 !! r2 = Some d2) by apply allocated_new.
  assert (Hcols2 : columns d2 = columns d1) by apply columns_take_rows.
  assert (He2 : forall c, column c d2 = []).
  { intros c. unfold d2. rewrite column_take_rows, He1. apply mask_select_nil. }
  (* drop uncommon profession *)
  set (d3 := DropUncommonProfession.body DropUncommonProfession.init d2).
  erewrite bind_Ok.
  2:{ apply (DropUncommonProfession_run s2 r2 d2 H2). apply mem_true_iff.
      rewrite Hcols2. apply Hcols1, In_kept_columns. simpl. tauto. }
  fold d3. set (s3 := allocated s2 d3). set (r3 := length (heap s2)).
  assert (H3 : heap s3 !! r3 = Some d3) by apply allocated_new.
  assert (Hcols3 : columns d3 = columns d1).
  { unfold d3, DropUncommonProfession.body. rewrite columns_take_rows. exact Hcols2. }
  assert (He3 : forall c, column c d3 = []).
  { intros c. unfold d3, DropUncommonProfession.body.
    rewrite column_take_rows, He2. apply mask_select_nil. }
  (* missing value imputer *)
  unfold bind. rewrite (MissingValueImputer_no_mode s3 r3 d3 H3); [reflexivity | | |].
  - apply issubset_true_iff. intros c Hc. rewrite Hcols3. apply Hcols1, In_kept_columns.
    apply in_app_or in Hc. destruct Hc as [Hc|Hc].
    + apply in_or_app. left. right. right. exact Hc.
    + do 4 (apply in_or_app; right). exact Hc.
  - rewrite Hcols3. apply Hcols1, In_kept_columns. simpl. tauto.
  - rewrite column_take_rows, He3, mask_select_nil. reflexivity.
Qed.

Lemma full_pipeline_on_the_empty_training_frame :
  @full_pipeline example_numpy 0%nat {| heap := [empty_frame train_columns]; stdout := [] |}
  = Raise (KeyError "0").
Proof.
  apply (@full_pipeline_raises_on_a_frame_without_rows example_numpy
           {| heap := [empty_frame train_columns]; stdout := [] |} 0%nat
           (empty_frame train_columns)).
  - reflexivity.
  - unfold well_formed. repeat constructor.
  - reflexivity.
  - vm_compute. reflexivity.
Defined.

(** ** OneHotWithFeatNames: the encoding can be read back *)

Lemma same_key_categorical a b :
  is_categorical a = true -> same_key a b = true -> a = b.
Proof.
  destruct a as [x|s|], b as [y|t|]; simpl; try discriminate; auto.
  intros _ E. apply String.eqb_eq in E. subst. reflexivity.
Qed.

Lemma nth_indicator cat l i :
  (i < length l)%nat ->
  nth i (OneHotWithFeatNames.indicator cat l) VNaN
  = VNum (if same_key (nth i l VNaN) cat then 1 else 0).
Proof.
  intros Hi. unfold OneHotWithFeatNames.indicator.
  rewrite (nth_indep _ VNaN (VNum (if same_key VNaN cat then 1 else 0)))
    by (rewrite length_map; exact Hi).
  apply (map_nth (fun v => VNum (if same_key v cat then 1 else 0))).
Qed.

Lemma In_vocabulary_of_cell l v : In v l -> is_categorical v = true -> In v (vocabulary l).
Proof.
  intros Hv Hcat.
  pose proof (count_key_unique_keys v l Hv) as Hcount.
  rewrite <- count_key_vocabulary in Hcount. unfold count_key in Hcount.
  destruct (List.filter (same_key v) (vocabulary l)) as [|cat rest] eqn:E; [discriminate |].
  assert (Hin : In cat (List.filter (same_key v) (vocabulary l))) by (rewrite E; left; reflexivity).
  apply filter_In in Hin. destruct Hin as [Hin Hsame].
  rewrite (same_key_categorical v cat Hcat Hsame). exact Hin.
Qed.

(** X11.  The one-hot encoding loses nothing.  On a non-empty frame whose
    eight declared columns are categorical, the indicator column of a category
    holds 1 in exactly the rows whose cell is that category, and two rows
    agree on all indicator columns of a declared column exactly when they
    hold the same category in it. *)
Theorem one_hot_encoding_can_be_read_back `{NumPy}
    (s : store) (df : ref) (d : DataFrame) :
  heap s !! df = Some d ->
  nrows d <> 0%nat ->
  issubset (OneHotWithFeatNames.one_hot_enc_ft OneHotWithFeatNames.init) (columns d) = true ->
  (forall c, In c (OneHotWithFeatNames.one_hot_enc_ft OneHotWithFeatNames.init) ->
             categorical_column c d) ->
  let fs := OneHotWithFeatNames.one_hot_enc_ft OneHotWithFeatNames.init in
  let group c := OneHotWithFeatNames.expand d c (vocabulary (column c d)) in
  exists d',
    OneHotWithFeatNames.transform OneHotWithFeatNames.init df s
    = Ok (length (heap s), allocated s d')
    /\ cols d' = flat_map group fs
                 ++ List.filter (fun kv => negb (mem (fst kv) fs)) (cols d)
    /\ forall c i, In c fs -> (i < length (column c d))%nat ->
         (forall cat, In cat (vocabulary (column c d)) ->
            (nth i (OneHotWithFeatNames.indicator cat (column c d)) VNaN = VNum 1
             <-> cell d c i = cat))
         /\ (forall j, (j < length (column c d))%nat ->
               ((forall kv, In kv (group c) -> nth i (snd kv) VNaN = nth j (snd kv) VNaN)
                <-> cell d c i = cell d c j)).
Proof.
  intros Hd Hrows Hg Hcat fs group.
  eexists. split.
  { rewrite (OneHotWithFeatNames_run s df d Hd _ Hg).
    rewrite OneHotWithFeatNames_body_categorical by assumption. reflexivity. }
  split; [reflexivity |].
  - intros c i Hc Hi.
    assert (Hall : forall v, In v (column c d) -> is_categorical v = true).
    { pose proof (Hcat c Hc) as Hf. unfold categorical_column in Hf.
      rewrite forallb_forall in Hf. exact Hf. }
    assert (Hone : forall k cat, (k < length (column c d))%nat ->
              (nth k (OneHotWithFeatNames.indicator cat (column c d)) VNaN = VNum 1
               <-> same_key (cell d c k) cat = true)).
    { intros k cat Hk. rewrite nth_indicator by exact Hk. fold (cell d c k).
      destruct (same_key (cell d c k) cat); split; intros E; try reflexivity; discriminate. }
    assert (Hkey : forall k cat, (k < length (column c d))%nat ->
              (same_key (cell d c k) cat = true <-> cell d c k = cat)).
    { intros k cat Hk. split.
      - apply same_key_categorical, Hall. unfold cell. apply nth_In, Hk.
      - intros <-. apply same_key_refl. }
    split.
    + intros cat _. rewrite (Hone i cat Hi). apply Hkey, Hi.
    + intros j Hj. split.
      * intros Hsame.
        assert (Hin : In (cell d c i) (vocabulary (column c d))).
        { apply In_vocabulary_of_cell; [unfold cell; apply nth_In, Hi |].
          apply Hall. unfold cell. apply nth_In, Hi. }
        assert (H1 : nth i (OneHotWithFeatNames.indicator (cell d c i) (column c d)) VNaN = VNum 1).
        { apply (Hone i _ Hi), same_key_refl. }
        specialize (Hsame (OneHotWithFeatNames.feature_name c (cell d c i),
                           OneHotWithFeatNames.indicator (cell d c i) (column c d))).
        simpl in Hsame. rewrite Hsame in H1.
        -- apply (Hone j _ Hj), (Hkey j _ Hj) in H1. symmetry. exact H1.
        -- unfold group, OneHotWithFeatNames.expand. apply in_map_iff.
           exists (cell d c i). auto.
      * intros Heq kv Hkv. unfold group, OneHotWithFeatNames.expand in Hkv.
        apply in_map_iff in Hkv. destruct Hkv as (cat & <- & _). simpl.
        rewrite !nth_indicator by assumption. fold (cell d c i) (cell d c j).
        rewrite Heq. reflexivity.
Qed.

Lemma one_hot_encoding_of_the_sample_can_be_read_back :
  nth 1 (OneHotWithFeatNames.indicator (VStr "Rural") (column "Location" sample_train)) VNaN
  = VNum 1
  <-> cell sample_train "Location" 1 = VStr "Rural".
Proof.
  destruct (@one_hot_encoding_can_be_read_back example_numpy sample_store 0%nat sample_train)
    as (d' & _ & _ & Hread).
  - reflexivity.
  - vm_compute. discriminate.
  - vm_compute. reflexivity.
  - intros c Hc. by_cases Hc.
  - destruct (Hread "Location" 1%nat) as (Hcat & _).
    + simpl. tauto.
    + vm_compute. lia.
    + apply Hcat. vm_compute. tauto.
Defined.

(** ** The order of the categories *)

Lemma value_leb_total a b : value_leb a b = true \/ value_leb b a = true.
Proof.
  destruct a as [x|s|], b as [y|t|]; simpl; auto.
  - apply number_leb_total.
  - apply String.leb_total.
Qed.

Lemma HdRel_insert_by x y l :
  value_leb y x = true ->
  Sorted.HdRel (fun a b => value_leb a b = true) y l ->
  Sorted.HdRel (fun a b => value_leb a b = true) y (insert_by value_leb x l).
Proof.
  intros Hyx Hhd. destruct l as [|z l]; simpl.
  - constructor. exact Hyx.
  - destruct (value_leb x z); constructor; [exact Hyx |].
    inversion Hhd; assumption.
Qed.

Lemma ascending_insert_by x l : ascending l -> ascending (insert_by value_leb x l).
Proof.
  unfold ascending. intros Hs. induction Hs as [|y l Hs IH Hhd]; simpl.
  - repeat constructor.
  - destruct (value_leb x y) eqn:E.
    + constructor; [constructor; assumption | constructor; exact E].
    + constructor; [exact IH |]. apply HdRel_insert_by; [|exact Hhd].
      destruct (value_leb_total x y) as [Hxy|Hyx]; [congruence | exact Hyx].
Qed.

Lemma ascending_sort_by l : ascending (sort_by value_leb l).
Proof.
  induction l as [|x l IH]; simpl; [constructor | apply ascending_insert_by, IH].
Qed.

Lemma isna_is_the_missing_key y : isna y = same_key VNaN y.
Proof. destruct y; reflexivity. Qed.

Lemma missing_categories l :
  List.filter isna (unique_keys l) = if existsb isna l then [VNaN] else [].
Proof.
  assert (Hall : forall x, In x (List.filter isna (unique_keys l)) -> x = VNaN).
  { intros x Hx. apply filter_In in Hx. destruct Hx as [_ Hx]. destruct x; try discriminate.
    reflexivity. }
  assert (Hlen : length (List.filter isna (unique_keys l))
                 = if existsb isna l then 1%nat else 0%nat).
  { rewrite (filter_ext isna (same_key VNaN) isna_is_the_missing_key).
    fold (count_key VNaN (unique_keys l)).
    destruct (existsb isna l) eqn:E.
    - apply count_key_unique_keys. apply existsb_exists in E.
      destruct E as (x & Hx & Hna). destruct x; try discriminate. exact Hx.
    - unfold count_key. destruct (List.filter (same_key VNaN) (unique_keys l)) as [|x rest] eqn:F;
        [reflexivity |].
      assert (Hx : In x (List.filter (same_key VNaN) (unique_keys l)))
        by (rewrite F; left; reflexivity).
      apply filter_In in Hx. destruct Hx as [Hx Hk]. apply In_unique_keys in Hx.
      rewrite <- isna_is_the_missing_key in Hk.
      assert (Hex : existsb isna l = true) by (apply existsb_exists; eauto).
      congruence. }
  destruct (existsb isna l).
  - destruct (List.filter isna (unique_keys l)) as [|x [|y rest]]; try discriminate.
    rewrite (Hall x); [reflexivity | left; reflexivity].
  - destruct (List.filter isna (unique_keys l)); [reflexivity | discriminate].
Qed.

Lemma NoDup_of_count_key l :
  (forall x, In x l -> count_key x l = 1%nat) -> List.NoDup l.
Proof.
  induction l as [|x l IH]; intros Hone; constructor.
  - intros Hx. pose proof (Hone x (or_introl eq_refl)) as H1.
    unfold count_key in H1. simpl in H1. rewrite same_key_refl in H1. simpl in H1.
    assert (Hin : In x (List.filter (same_key x) l)).
    { apply filter_In. split; [exact Hx | apply same_key_refl]. }
    destruct (List.filter (same_key x) l); [destruct Hin | discriminate].
  - apply IH. intros y Hy. pose proof (Hone y (or_intror Hy)) as H1.
    assert (Hin : In y (List.filter (same_key y) l)).
    { apply filter_In. split; [exact Hy | apply same_key_refl]. }
    unfold count_key in *. simpl in H1.
    destruct (same_key y x); simpl in H1;
      destruct (List.filter (same_key y) l) as [|z [|z' rest]];
      simpl in *; try reflexivity; try discriminate; destruct Hin.
Qed.

Lemma NoDup_unique_keys l : List.NoDup (unique_keys l).
Proof.
  apply NoDup_of_count_key. intros x Hx. apply count_key_unique_keys, In_unique_keys, Hx.
Qed.

Lemma NoDup_insert_by {A} (leb : A -> A -> bool) x l :
  ~ In x l -> List.NoDup l -> List.NoDup (insert_by leb x l).
Proof.
  intros Hx Hl. induction Hl as [|y l Hy Hl IH]; simpl.
  - constructor; [exact Hx | constructor].
  - destruct (leb x y).
    + constructor; [exact Hx | constructor; assumption].
    + constructor.
      * rewrite In_insert_by. intros [->|Hin]; [apply Hx; left; reflexivity | exact (Hy Hin)].
      * apply IH. intros Hin. apply Hx. right. exact Hin.
Qed.

Lemma NoDup_sort_by {A} (leb : A -> A -> bool) l : List.NoDup l -> List.NoDup (sort_by leb l).
Proof.
  intros Hl. induction Hl as [|x l Hx Hl IH]; simpl; [constructor |].
  apply NoDup_insert_by; [rewrite In_sort_by; exact Hx | exact IH].
Qed.

Lemma strings_of_strings l :
  (forall v, In v l -> is_categorical v = true /\ isna v = false) -> l = map VStr (strings_of l).
Proof.
  induction l as [|x l IH]; intros Hall; [reflexivity |].
  destruct (Hall x (or_introl eq_refl)) as [Hc Hn].
  destruct x as [q|t|]; try discriminate. simpl. f_equal.
  apply IH. intros v Hv. apply Hall. right. exact Hv.
Qed.

Lemma string_compare_trans : forall a b c,
  String.compare a b = Lt -> String.compare b c = Lt -> String.compare a c = Lt.
Proof.
  induction a as [|x a IH]; intros [|y b] [|z c]; simpl; try discriminate; auto.
  destruct (Ascii.compare x y) eqn:E1; try discriminate;
    destruct (Ascii.compare y z) eqn:E2; try discriminate.
  - apply Ascii.compare_eq_iff in E1. subst y. rewrite E2. apply IH.
  - apply Ascii.compare_eq_iff in E1. subst y. rewrite E2. reflexivity.
  - apply Ascii.compare_eq_iff in E2. subst z. rewrite E1. reflexivity.
  - assert (E : Ascii.compare x z = Lt).
    { unfold Ascii.compare in *. rewrite N.compare_lt_iff in *. lia. }
    rewrite E. reflexivity.
Qed.

Lemma string_ltb_trans a b c :
  String.ltb a b = true -> String.ltb b c = true -> String.ltb a c = true.
Proof.
  unfold String.ltb. intros H1 H2.
  destruct (String.compare a b) eqn:E1; try discriminate.
  destruct (String.compare b c) eqn:E2; try discriminate.
  rewrite (string_compare_trans a b c E1 E2). reflexivity.
Qed.

Lemma string_leb_ltb a b : String.leb a b = true -> a <> b -> String.ltb a b = true.
Proof.
  unfold String.leb, String.ltb. destruct (String.compare a b) eqn:E; try discriminate; auto.
  intros _ Hne. apply String.compare_eq_iff in E. contradiction.
Qed.

Lemma string_ltb_irrefl a : String.ltb a a = false.
Proof.
  unfold String.ltb. destruct (String.compare a a) eqn:E; try reflexivity.
  pose proof (String.compare_antisym a a) as H. rewrite E in H. discriminate.
Qed.

(** Sorted strings without repetition are strictly ascending. *)
Lemma strictly_ascending_of_sorted (l : list string) :
  ascending (map VStr l) -> List.NoDup l -> strictly_ascending l.
Proof.
  intros Hs Hnd. unfold strictly_ascending. apply Sorted.Sorted_StronglySorted.
  - intros a b c. apply string_ltb_trans.
  - induction l as [|a l IH]; [constructor |].
    inversion Hs as [|? ? Hs' Hhd]; subst. inversion Hnd as [|? ? Ha Hnd']; subst.
    constructor; [apply IH; assumption |].
    destruct l as [|b l]; constructor.
    inversion Hhd as [|? ? Hab]; subst. simpl in Hab.
    apply string_leb_ltb; [exact Hab |]. intros ->. apply Ha. left. reflexivity.
Qed.

Lemma strictly_ascending_NoDup l : strictly_ascending l -> List.NoDup l.
Proof.
  intros Hs. induction Hs as [|a l Hs IH Hall]; constructor; [|exact IH].
  intros Ha. rewrite List.Forall_forall in Hall. specialize (Hall a Ha).
  rewrite string_ltb_irrefl in Hall. discriminate.
Qed.

Lemma map_flat_map_fst {A B C} (g : A -> list (B * C)) (l : list A) :
  map fst (flat_map g l) = flat_map (fun x => map fst (g x)) l.
Proof.
  induction l as [|x l IH]; simpl; [reflexivity |]. rewrite map_app, IH. reflexivity.
Qed.

Lemma map_fst_filter_keys (p : string -> bool) (l : list (string * list value)) :
  map fst (List.filter (fun kv => p (fst kv)) l) = List.filter p (map fst l).
Proof.
  induction l as [|[k w] l IH]; simpl; [reflexivity |].
  destruct (p k); simpl; rewrite IH; reflexivity.
Qed.

(** The vocabulary of a categorical column: its strings, sorted, then the
    missing category. *)
Lemma vocabulary_categorical l :
  forallb is_categorical l = true ->
  let present := strings_of (sort_by value_leb
                               (List.filter (fun v => negb (isna v)) (unique_keys l))) in
  vocabulary l = map VStr present ++ (if existsb isna l then [VNaN] else [])
  /\ strictly_ascending present
  /\ (forall p, In p present <-> In (VStr p) l).
Proof.
  intros Hcat present. rewrite forallb_forall in Hcat.
  set (sorted := sort_by value_leb (List.filter (fun v => negb (isna v)) (unique_keys l))).
  assert (Hin : forall v, In v sorted <-> In v (unique_keys l) /\ isna v = false).
  { intros v. unfold sorted. rewrite In_sort_by, filter_In, negb_true_iff. tauto. }
  assert (Hstr : sorted = map VStr present).
  { apply strings_of_strings. intros v Hv. apply Hin in Hv. destruct Hv as [Hv Hn].
    split; [apply Hcat, In_unique_keys, Hv | exact Hn]. }
  split; [|split].
  - unfold vocabulary. fold sorted. rewrite missing_categories, Hstr. reflexivity.
  - apply strictly_ascending_of_sorted.
    + rewrite <- Hstr. apply ascending_sort_by.
    + apply (NoDup_map_inv VStr). rewrite <- Hstr. unfold sorted.
      apply NoDup_sort_by, List.NoDup_filter, NoDup_unique_keys.
  - intros p. split.
    + intros Hp. apply In_unique_keys. apply (in_map VStr) in Hp. rewrite <- Hstr in Hp.
      apply Hin in Hp. tauto.
    + intros Hp. assert (Hv : In (VStr p) (vocabulary l)).
      { apply In_vocabulary_of_cell; [exact Hp | reflexivity]. }
      unfold vocabulary in Hv. fold sorted in Hv. apply in_app_or in Hv.
      destruct Hv as [Hv|Hv].
      * rewrite Hstr in Hv. apply in_map_iff in Hv. destruct Hv as (q & [= ->] & Hq). exact Hq.
      * apply filter_In in Hv. destruct Hv as [_ Hv]. discriminate.
Qed.

Lemma flat_map_ext_In {A B} (f g : A -> list B) (l : list A) :
  (forall x, In x l -> f x = g x) -> flat_map f l = flat_map g l.
Proof.
  induction l as [|x l IH]; intros E; simpl; [reflexivity |].
  rewrite (E x) by (left; reflexivity). rewrite IH; [reflexivity |].
  intros y Hy. apply E. right. exact Hy.
Qed.

(** X12.  The labels of the frame the one-hot encoder returns.  On a
    non-empty frame whose eight declared columns are categorical, the columns
    of the new frame are, for each declared column [c] in turn, the labels
    "c_p" of the strings [p] present in column [c], each once and in
    strictly ascending order of code points, then "c_nan" when the column
    has a missing cell; the columns that are not encoded follow in their
    original order. *)
Theorem one_hot_labels_follow_the_sorted_categories `{NumPy}
    (s : store) (df : ref) (d : DataFrame) :
  heap s !! df = Some d ->
  nrows d <> 0%nat ->
  issubset (OneHotWithFeatNames.one_hot_enc_ft OneHotWithFeatNames.init) (columns d) = true ->
  (forall c, In c (OneHotWithFeatNames.one_hot_enc_ft OneHotWithFeatNames.init) ->
             categorical_column c d) ->
  let fs := OneHotWithFeatNames.one_hot_enc_ft OneHotWithFeatNames.init in
  exists d' (present : string -> list string),
    OneHotWithFeatNames.transform OneHotWithFeatNames.init df s
    = Ok (length (heap s), allocated s d')
    /\ columns d'
       = flat_map (fun c =>
                     map (fun p => String.append c (String.append "_" p)) (present c)
                     ++ (if existsb isna (column c d) then [String.append c "_nan"] else []))
                  fs
         ++ List.filter (fun k => negb (mem k fs)) (columns d)
    /\ forall c, In c fs ->
         strictly_ascending (present c)
         /\ List.NoDup (present c)
         /\ (forall p, In p (present c) <-> In (VStr p) (column c d)).
Proof.
  intros Hd Hrows Hg Hcat fs.
  set (present := fun c =>
         strings_of (sort_by value_leb
                       (List.filter (fun v => negb (isna v)) (unique_keys (column c d))))).
  eexists. exists present. split; [|split].
  - rewrite (OneHotWithFeatNames_run s df d Hd _ Hg).
    rewrite OneHotWithFeatNames_body_categorical by assumption. reflexivity.
  - unfold columns at 1. cbn [cols]. rewrite map_app, map_flat_map_fst.
    rewrite (map_fst_filter_keys (fun k => negb (mem k fs))). f_equal.
    apply flat_map_ext_In. intros c Hc.
    destruct (vocabulary_categorical (column c d) (Hcat c Hc)) as (Hv & _).
    unfold OneHotWithFeatNames.expand. rewrite map_map. cbn [fst].
    rewrite Hv, map_app, map_map. f_equal.
    destruct (existsb isna (column c d)); reflexivity.
  - intros c Hc.
    destruct (vocabulary_categorical (column c d) (Hcat c Hc)) as (_ & Hasc & Hin).
    split; [exact Hasc |]. split; [apply strictly_ascending_NoDup, Hasc | exact Hin].
Qed.

Lemma one_hot_labels_of_the_sample :
  exists d' present,
    @OneHotWithFeatNames.transform example_numpy OneHotWithFeatNames.init 0%nat sample_store
    = Ok (1%nat, allocated sample_store d')
    /\ strictly_ascending (present "Location")
    /\ (In "Rural" (present "Location") <-> In (VStr "Rural") (column "Location" sample_train)).
Proof.
  destruct (@one_hot_labels_follow_the_sorted_categories example_numpy
              sample_store 0%nat sample_train)
    as (d' & present & Hrun & _ & Hcats).
  - reflexivity.
  - vm_compute. discriminate.
  - vm_compute. reflexivity.
  - intros c Hc. vm_compute in Hc.
    repeat (destruct Hc as [<-|Hc]; [vm_compute; reflexivity |]); destruct Hc.
  - destruct (Hcats "Location") as (Hasc & _ & Hin); [simpl; tauto |].
    exists d', present. split; [exact Hrun |]. split; [exact Hasc | apply Hin].
Defined.
